(** * news_fetcher: article acquisition and ranking pipeline

    A shallow embedding of [src/news_fetcher/utils.py], [tools.py] and
    [llm_client.py], with the properties the specification states about
    them.

    Conventions of the embedding.
    - A Python [str] is a Rocq [string]; each character stands for the
      code point of the same number (0..255).  The character tables of
      [str.strip], [re] and [unicodedata] are written out for that range.
    - Library calls whose result is decided outside of the program (the
      HTTP client, the feed parser, the content extractors, the date
      parser, the language model, the iteration order of a [set]) are
      Section variables: every definition and theorem is stated for an
      arbitrary behaviour of these collaborators.
    - An exception that can leave a function is a value of [exn]; a
      function that can raise returns [result]. *)

From Stdlib Require Import String Ascii List ZArith QArith Bool Lia DecimalString.
From Stdlib Require Import Sorted Permutation.
From stdpp Require Import base option list strings gmap.

Import ListNotations.
Local Open Scope string_scope.
Local Open Scope list_scope.

(* ===================================================================== *)
(** * Strings as the source uses them                                      *)
(* ===================================================================== *)

Module Str.

(** [not s]: the empty string is falsy. *)
Definition is_empty (s : string) : bool :=
  match s with EmptyString => true | String _ _ => false end.

(** [s.startswith(p)]. *)
Definition startswith (p s : string) : bool := String.prefix p s.

(** [s.rstrip(c)] for a one-character argument: every trailing [c] goes. *)
Fixpoint rstrip (c : ascii) (s : string) : string :=
  match s with
  | EmptyString => EmptyString
  | String a t =>
      let t' := rstrip c t in
      if Ascii.eqb a c && is_empty t' then EmptyString else String a t'
  end.

(** [c in s] for a character. *)
Fixpoint mem (c : ascii) (s : string) : bool :=
  match s with
  | EmptyString => false
  | String a t => Ascii.eqb a c || mem c t
  end.

(** [s[:n]]. *)
Fixpoint take (n : nat) (s : string) : string :=
  match n, s with
  | O, _ => EmptyString
  | S _, EmptyString => EmptyString
  | S k, String a t => String a (take k t)
  end.

(** [s[n:]]. *)
Fixpoint drop (n : nat) (s : string) : string :=
  match n, s with
  | O, _ => s
  | S _, EmptyString => EmptyString
  | S k, String _ t => drop k t
  end.

(** [p in s] for a string [p]: some suffix of [s] starts with [p]. *)
Fixpoint contains (p s : string) : bool :=
  String.prefix p s ||
  match s with
  | EmptyString => false
  | String _ t => contains p t
  end.

Lemma is_empty_true s : is_empty s = true <-> s = "".
Proof. destruct s; simpl; split; congruence. Qed.

Lemma is_empty_false s : is_empty s = false <-> s <> "".
Proof. destruct s; simpl; split; congruence. Qed.

Lemma rstrip_idem c s : rstrip c (rstrip c s) = rstrip c s.
Proof.
  induction s as [|a t IH]; simpl; [reflexivity|].
  destruct (Ascii.eqb a c && is_empty (rstrip c t)) eqn:E; simpl.
  - reflexivity.
  - rewrite IH, E. reflexivity.
Qed.

Lemma rstrip_app c x y :
  rstrip c y <> "" -> rstrip c (x +:+ y) = x +:+ rstrip c y.
Proof.
  intros Hy. induction x as [|a t IH]; simpl; [reflexivity|].
  rewrite IH. destruct (rstrip c y) eqn:E; [congruence|].
  replace (is_empty (t +:+ String a0 s)) with false.
  - rewrite andb_false_r. reflexivity.
  - destruct t; reflexivity.
Qed.

Lemma rstrip_cons_ne c a t :
  Ascii.eqb a c = false -> rstrip c (String a t) = String a (rstrip c t).
Proof. intros E. simpl. rewrite E. reflexivity. Qed.

Lemma prefix_length p s :
  String.prefix p s = true -> (String.length p <= String.length s)%nat.
Proof.
  revert s. induction p as [|a p IH]; intros [|b s]; simpl; try lia; try congruence.
  destruct (ascii_dec a b); [|congruence]. intros H. apply IH in H. lia.
Qed.

Lemma length_app x y :
  String.length (x +:+ y) = (String.length x + String.length y)%nat.
Proof. induction x as [|a x IH]; simpl; [reflexivity|]. rewrite IH. reflexivity. Qed.

End Str.

(* ===================================================================== *)
(** * utils.py: normalize_url                                              *)
(* ===================================================================== *)

(** [url.startswith(('http://', 'https://'))]. *)
Definition has_scheme (url : string) : bool :=
  Str.startswith "http://" url || Str.startswith "https://" url.

(** utils.py, [normalize_url]. *)
Definition normalize_url (url : string) : string :=
  if Str.is_empty url then ""
  else
    let url := if has_scheme url then url else "https://" +:+ url in
    Str.rstrip "/" url.

Example normalize_url_plain :
  normalize_url "example.com/news/" = "https://example.com/news".
Proof. reflexivity. Qed.

Example normalize_url_http :
  normalize_url "http://example.com//" = "http://example.com".
Proof. reflexivity. Qed.

Section NormalizeUrl.

(** What [normalize_url] feeds to [rstrip]. *)
Definition with_scheme (url : string) : string :=
  if has_scheme url then url else "https://" +:+ url.

Lemma has_scheme_with_scheme u : has_scheme (with_scheme u) = true.
Proof.
  unfold with_scheme. destruct (has_scheme u) eqn:E; [exact E|].
  destruct u; reflexivity.
Qed.

Lemma has_scheme_h u : has_scheme u = true -> exists t, u = String "h" t.
Proof.
  unfold has_scheme, Str.startswith. intros H.
  destruct u as [|a t]; [discriminate H|].
  apply orb_true_iff in H. cbn [String.prefix] in H.
  destruct (ascii_dec "h" a) as [<-|]; [eauto|].
  destruct H; discriminate.
Qed.

Lemma normalize_url_nonempty u :
  u <> "" -> normalize_url u = Str.rstrip "/" (with_scheme u).
Proof.
  intros H. unfold normalize_url, with_scheme.
  apply Str.is_empty_false in H. rewrite H. reflexivity.
Qed.

(** A normalized non-empty URL keeps at least the [h] of its scheme. *)
Lemma normalize_url_h u : u <> "" -> exists t, normalize_url u = String "h" t.
Proof.
  intros H. rewrite (normalize_url_nonempty _ H).
  destruct (has_scheme_h _ (has_scheme_with_scheme u)) as [t ->].
  rewrite Str.rstrip_cons_ne by reflexivity. eauto.
Qed.

Lemma normalize_url_rstrip u :
  Str.rstrip "/" (normalize_url u) = normalize_url u.
Proof.
  destruct u as [|a t]; [reflexivity|].
  rewrite normalize_url_nonempty by discriminate.
  apply Str.rstrip_idem.
Qed.

Lemma normalize_url_fixed v :
  has_scheme v = true -> Str.rstrip "/" v = v -> normalize_url v = v.
Proof.
  intros Hs Hr. destruct (has_scheme_h _ Hs) as [t ->].
  unfold normalize_url. simpl Str.is_empty. cbv iota. rewrite Hs. exact Hr.
Qed.

Lemma normalize_url_prepend v :
  v <> "" -> has_scheme v = false -> Str.rstrip "/" v = v ->
  normalize_url v = "https://" +:+ v.
Proof.
  intros Hne Hs Hr. rewrite (normalize_url_nonempty _ Hne).
  unfold with_scheme. rewrite Hs.
  rewrite Str.rstrip_app; rewrite Hr; [reflexivity|exact Hne].
Qed.

End NormalizeUrl.

(** C6 (as amended). Normalizing twice gives the same as normalizing once
    exactly when the input is empty or its normalized form still starts
    with [http://] or [https://]: the trailing-slash strip may eat into the
    scheme separator ([http://] becomes [http:]), and then the second pass
    prepends a scheme again. *)
Theorem normalize_url_idempotent_iff (u : string) :
  normalize_url (normalize_url u) = normalize_url u
  <-> (u = "" \/ has_scheme (normalize_url u) = true).
Proof.
  split.
  - intros Hid. destruct u as [|a t]; [left; reflexivity|right].
    destruct (has_scheme (normalize_url (String a t))) eqn:Hs; [reflexivity|].
    exfalso.
    destruct (normalize_url_h (String a t)) as [w Hw]; [discriminate|].
    rewrite normalize_url_prepend in Hid.
    + apply (f_equal String.length) in Hid.
      rewrite Str.length_app in Hid. simpl in Hid. lia.
    + rewrite Hw. discriminate.
    + exact Hs.
    + apply normalize_url_rstrip.
  - intros [->|Hs]; [reflexivity|].
    apply normalize_url_fixed; [exact Hs|apply normalize_url_rstrip].
Qed.

(** C6 (as stated) fails: [http://] is non-empty, its normal form is
    [http:], and normalizing that prepends a scheme. *)
Lemma normalize_url_not_idempotent :
  normalize_url "http://" = "http:" /\
  normalize_url (normalize_url "http://") = "https://http:" /\
  normalize_url (normalize_url "http://") <> normalize_url "http://".
Proof. repeat split; try reflexivity. discriminate. Qed.

(* ===================================================================== *)
(** * hashlib.md5                                                          *)
(* ===================================================================== *)

Module MD5.

(** RFC 1321 on 32-bit words kept in [Z], wrap-around written out. *)
Local Open Scope Z_scope.

Definition mask32 : Z := 0xffffffff.
Definition w32 (x : Z) : Z := Z.land x mask32.
Definition add32 (x y : Z) : Z := w32 (x + y).
Definition not32 (x : Z) : Z := Z.lxor (w32 x) mask32.
Definition rotl32 (x s : Z) : Z :=
  w32 (Z.lor (Z.shiftl x s) (Z.shiftr x (32 - s))).

Definition K : list Z :=
  [0xd76aa478; 0xe8c7b756; 0x242070db; 0xc1bdceee;
   0xf57c0faf; 0x4787c62a; 0xa8304613; 0xfd469501;
   0x698098d8; 0x8b44f7af; 0xffff5bb1; 0x895cd7be;
   0x6b901122; 0xfd987193; 0xa679438e; 0x49b40821;
   0xf61e2562; 0xc040b340; 0x265e5a51; 0xe9b6c7aa;
   0xd62f105d; 0x02441453; 0xd8a1e681; 0xe7d3fbc8;
   0x21e1cde6; 0xc33707d6; 0xf4d50d87; 0x455a14ed;
   0xa9e3e905; 0xfcefa3f8; 0x676f02d9; 0x8d2a4c8a;
   0xfffa3942; 0x8771f681; 0x6d9d6122; 0xfde5380c;
   0xa4beea44; 0x4bdecfa9; 0xf6bb4b60; 0xbebfbc70;
   0x289b7ec6; 0xeaa127fa; 0xd4ef3085; 0x04881d05;
   0xd9d4d039; 0xe6db99e5; 0x1fa27cf8; 0xc4ac5665;
   0xf4292244; 0x432aff97; 0xab9423a7; 0xfc93a039;
   0x655b59c3; 0x8f0ccc92; 0xffeff47d; 0x85845dd1;
   0x6fa87e4f; 0xfe2ce6e0; 0xa3014314; 0x4e0811a1;
   0xf7537e82; 0xbd3af235; 0x2ad7d2bb; 0xeb86d391].

Definition shifts : list Z :=
  [7; 12; 17; 22; 7; 12; 17; 22; 7; 12; 17; 22; 7; 12; 17; 22;
   5; 9; 14; 20; 5; 9; 14; 20; 5; 9; 14; 20; 5; 9; 14; 20;
   4; 11; 16; 23; 4; 11; 16; 23; 4; 11; 16; 23; 4; 11; 16; 23;
   6; 10; 15; 21; 6; 10; 15; 21; 6; 10; 15; 21; 6; 10; 15; 21].

(** [str.encode()]: UTF-8 of code points below 256. *)
Fixpoint utf8 (s : string) : list Z :=
  match s with
  | EmptyString => []
  | String c t =>
      let n := Z.of_N (N_of_ascii c) in
      if n <? 128 then n :: utf8 t
      else Z.lor 0xc0 (Z.shiftr n 6) :: Z.lor 0x80 (Z.land n 0x3f) :: utf8 t
  end.

(** [k] bytes of [x], least significant first. *)
Fixpoint le_bytes (k : nat) (x : Z) : list Z :=
  match k with
  | O => []
  | S k' => Z.land x 0xff :: le_bytes k' (Z.shiftr x 8)
  end.

Definition pad (msg : list Z) : list Z :=
  let len := Z.of_nat (List.length msg) in
  msg ++ [0x80] ++ repeat 0 (Z.to_nat ((55 - len) mod 64)) ++ le_bytes 8 (8 * len).

Fixpoint chunks {A} (fuel n : nat) (l : list A) : list (list A) :=
  match fuel with
  | O => []
  | S f =>
      match l with
      | [] => []
      | _ => firstn n l :: chunks f n (skipn n l)
      end
  end.

Definition word_of (bs : list Z) : Z :=
  fold_right (fun b acc => b + 256 * acc) 0 bs.

Definition words (block : list Z) : list Z :=
  map word_of (chunks 16 4 block).

Definition step (M : list Z) (st : Z * Z * Z * Z) (i : nat) : Z * Z * Z * Z :=
  let '(a, b, c, d) := st in
  let zi := Z.of_nat i in
  let q := (i / 16)%nat in
  let f :=
    match q with
    | 0%nat => Z.lor (Z.land b c) (Z.land (not32 b) d)
    | 1%nat => Z.lor (Z.land d b) (Z.land (not32 d) c)
    | 2%nat => Z.lxor b (Z.lxor c d)
    | _ => Z.lxor c (Z.lor b (not32 d))
    end in
  let g :=
    match q with
    | 0%nat => zi
    | 1%nat => (5 * zi + 1) mod 16
    | 2%nat => (3 * zi + 5) mod 16
    | _ => (7 * zi) mod 16
    end in
  let f' := w32 (f + a + nth i K 0 + nth (Z.to_nat g) M 0) in
  (d, add32 b (rotl32 f' (nth i shifts 0)), b, c).

Definition compress (st : Z * Z * Z * Z) (block : list Z) : Z * Z * Z * Z :=
  let '(a0, b0, c0, d0) := st in
  let '(a, b, c, d) := fold_left (step (words block)) (seq 0 64) st in
  (add32 a0 a, add32 b0 b, add32 c0 c, add32 d0 d).

Definition init : Z * Z * Z * Z :=
  (0x67452301, 0xefcdab89, 0x98badcfe, 0x10325476).

Definition digest (msg : list Z) : list Z :=
  let p := pad msg in
  let '(a, b, c, d) := fold_left compress (chunks (List.length p) 64 p) init in
  le_bytes 4 a ++ le_bytes 4 b ++ le_bytes 4 c ++ le_bytes 4 d.

Definition hexchar (n : Z) : ascii :=
  nth (Z.to_nat n)
    ["0"; "1"; "2"; "3"; "4"; "5"; "6"; "7"; "8"; "9";
     "a"; "b"; "c"; "d"; "e"; "f"]%char "0"%char.

Fixpoint hex (bs : list Z) : string :=
  match bs with
  | [] => EmptyString
  | b :: t => String (hexchar (Z.shiftr b 4)) (String (hexchar (Z.land b 0xf)) (hex t))
  end.

(** [hashlib.md5(s.encode()).hexdigest()]. *)
Definition hexdigest (s : string) : string := hex (digest (utf8 s)).

Lemma length_le_bytes k x : List.length (le_bytes k x) = k.
Proof. revert x. induction k as [|k IH]; intros x; simpl; [reflexivity|]. rewrite IH. reflexivity. Qed.

Lemma length_hex bs : String.length (hex bs) = (2 * List.length bs)%nat.
Proof. induction bs as [|b t IH]; simpl; [reflexivity|]. rewrite IH. lia. Qed.

(** A digest is 16 bytes, its hexadecimal form 32 characters. *)
Lemma length_hexdigest s : String.length (hexdigest s) = 32%nat.
Proof.
  unfold hexdigest, digest.
  destruct (fold_left compress _ init) as [[[a b] c] d].
  rewrite length_hex, !length_app, !length_le_bytes. reflexivity.
Qed.

End MD5.

Example md5_empty : MD5.hexdigest "" = "d41d8cd98f00b204e9800998ecf8427e".
Proof. vm_compute. reflexivity. Qed.

Example md5_abc : MD5.hexdigest "abc" = "900150983cd24fb0d6963f7d28e17f72".
Proof. vm_compute. reflexivity. Qed.

(* ===================================================================== *)
(** * Character classes of the run-time library, code points 0..255       *)
(* ===================================================================== *)

Module Chr.
Local Open Scope N_scope.

Definition code (c : ascii) : N := N_of_ascii c.

(** [str.isspace], which is also what [\s] matches in a [str] pattern:
    TAB..CR, FS..US, SPACE, NEL and NBSP. *)
Definition is_space (c : ascii) : bool :=
  let n := code c in
  ((9 <=? n) && (n <=? 13)) || ((28 <=? n) && (n <=? 32))
  || (n =? 133) || (n =? 160).

(** [unicodedata.category(c)[0] == 'C']: Cc is 0..31 and 127..159, Cf
    holds the soft hyphen 173. *)
Definition is_category_C (c : ascii) : bool :=
  let n := code c in
  (n <=? 31) || ((127 <=? n) && (n <=? 159)) || (n =? 173).

(** [c in '\n\r\t']. *)
Definition is_nl_cr_tab (c : ascii) : bool :=
  let n := code c in (n =? 10) || (n =? 13) || (n =? 9).

(** [\d] in a [str] pattern. *)
Definition is_digit (c : ascii) : bool :=
  let n := code c in (48 <=? n) && (n <=? 57).

(** [c.lower()]: A..Z and the upper-case letters of 192..222. *)
Definition lower (c : ascii) : ascii :=
  let n := code c in
  if ((65 <=? n) && (n <=? 90))
     || ((192 <=? n) && (n <=? 222) && negb (n =? 215))
  then ascii_of_N (n + 32) else c.

End Chr.

Module Text.

(** [s.lower()]. *)
Fixpoint lower (s : string) : string :=
  match s with
  | EmptyString => EmptyString
  | String a t => String (Chr.lower a) (lower t)
  end.

Fixpoint lstrip (s : string) : string :=
  match s with
  | EmptyString => EmptyString
  | String a t => if Chr.is_space a then lstrip t else s
  end.

Fixpoint rstrip (s : string) : string :=
  match s with
  | EmptyString => EmptyString
  | String a t =>
      let t' := rstrip t in
      if Chr.is_space a && Str.is_empty t' then EmptyString else String a t'
  end.

(** [s.strip()]. *)
Definition strip (s : string) : string := rstrip (lstrip s).

(** [re.sub(r'\s+', ' ', s)]; [in_run] says that the previous character
    was white space, already replaced. *)
Fixpoint collapse_ws (in_run : bool) (s : string) : string :=
  match s with
  | EmptyString => EmptyString
  | String a t =>
      if Chr.is_space a
      then if in_run then collapse_ws true t else String " " (collapse_ws true t)
      else String a (collapse_ws false t)
  end.

(** [''.join(c for c in s if keep c)]. *)
Fixpoint filter (keep : ascii -> bool) (s : string) : string :=
  match s with
  | EmptyString => EmptyString
  | String a t => if keep a then String a (filter keep t) else filter keep t
  end.

(** [s.split()]: the maximal runs of characters that are not white
    space.  [cur] is the run being read, last character first. *)
Fixpoint split_ws_go (cur : list ascii) (s : string) : list string :=
  let flush (r : list string) :=
    match cur with
    | [] => r
    | _ => string_of_list_ascii (rev cur) :: r
    end in
  match s with
  | EmptyString => flush []
  | String a t =>
      if Chr.is_space a then flush (split_ws_go [] t)
      else split_ws_go (a :: cur) t
  end.

Definition split_ws (s : string) : list string := split_ws_go [] s.

End Text.

Example strip_collapse :
  Text.collapse_ws false (Text.strip "  Hello   big  world ") = "Hello big world".
Proof. reflexivity. Qed.

Example split_ws_example :
  Text.split_ws " one  two three " = ["one"; "two"; "three"].
Proof. reflexivity. Qed.

Example lower_example : Text.lower "Breaking NEWS 42" = "breaking news 42".
Proof. reflexivity. Qed.

(* ===================================================================== *)
(** * utils.py: clean_text                                                 *)
(* ===================================================================== *)

Section CleanText.

(** [html._charref.sub(html._replace_charref, s)]: the replacement of
    character references, which rests on the HTML5 entity table. *)
Variable charref_sub : string -> string.

(** [html.unescape]: a text without [&] is returned as it is. *)
Definition html_unescape (s : string) : string :=
  if Str.mem "&" s then charref_sub s else s.

(** utils.py, [clean_text]. *)
Definition clean_text (text : string) : string :=
  if Str.is_empty text then ""
  else
    let text := Text.collapse_ws false (Text.strip text) in
    let text :=
      Text.filter
        (fun char => negb (Chr.is_category_C char) || Chr.is_nl_cr_tab char)
        text in
    html_unescape text.

End CleanText.

Example clean_text_example :
  forall f, clean_text f "  Markets   rally today " = "Markets rally today".
Proof. intros f. reflexivity. Qed.


(* ===================================================================== *)
(** * Articles                                                             *)
(* ===================================================================== *)

(** The value found under a key of a [dict]: the key is missing, or it
    holds [None], or it holds a value. *)
Inductive slot (A : Type) : Type :=
| Missing : slot A
| PyNone : slot A
| Value : A -> slot A.
Arguments Missing {A}.
Arguments PyNone {A}.
Arguments Value {A} _.

(** [d.get(key, default)]. *)
Definition slot_get {A} (s : slot A) (default : A) : option A :=
  match s with
  | Missing => Some default
  | PyNone => None
  | Value a => Some a
  end.

(** An article [dict], as [search_feeds] and [fetch_article] build it.
    Text fields hold a [str]; a missing text key reads as the default the
    source passes to [get], which is the empty string. *)
Record Article : Type := mkArticle {
  title : string;
  url : string;
  summary : string;
  published : slot string;
  author : string;
  source : option string;
  source_url : string;
  domain : option string;
  tags : list string;
  fetched_at : string;
  word_count : option Z
}.

(** An article that only has a title and a URL. *)
Definition stub (t u : string) : Article :=
  mkArticle t u "" PyNone "" None "" None [] "" None.

(* ===================================================================== *)
(** * utils.py: deduplicate_articles                                       *)
(* ===================================================================== *)

Section Deduplicate.

Variable charref_sub : string -> string.

(** The loop state: [seen_urls], [seen_titles], [deduped]. *)
Record DedupState : Type := mkDedup {
  seen_urls : gset string;
  seen_titles : gset string;
  deduped : list Article
}.

Definition normalized_url_of (article : Article) : string :=
  normalize_url (url article).

Definition normalized_title_of (article : Article) : string :=
  Text.lower (clean_text charref_sub (title article)).

(** [title_hash], the member that the loop adds to [seen_titles]. *)
Definition title_hash_of (article : Article) : string :=
  MD5.hexdigest (normalized_title_of article).

(** The test of the inner loop for one member of [seen_titles]. *)
Definition similar_to (normalized_title existing_title : string) : bool :=
  (20 <? String.length normalized_title)%nat
  && (20 <? String.length existing_title)%nat
  && String.eqb (Str.take 50 normalized_title) (Str.take 50 existing_title).

(** [is_similar] after the inner loop. *)
Definition is_similar (normalized_title : string) (seen : gset string) : bool :=
  existsb (similar_to normalized_title) (elements seen).

(** Does the body of the loop reach [deduped.append(article)]? *)
Definition keeps (st : DedupState) (article : Article) : bool :=
  let normalized_url := normalized_url_of article in
  let normalized_title := normalized_title_of article in
  if negb (Str.is_empty normalized_url)
     && bool_decide (normalized_url ∈ seen_urls st)
  then false
  else if bool_decide (title_hash_of article ∈ seen_titles st)
  then false
  else negb (is_similar normalized_title (seen_titles st)).

(** One iteration of [for article in articles]. *)
Definition dedup_step (st : DedupState) (article : Article) : DedupState :=
  if keeps st article then
    mkDedup
      (if Str.is_empty (normalized_url_of article) then seen_urls st
       else {[normalized_url_of article]} ∪ seen_urls st)
      (if Str.is_empty (normalized_title_of article) then seen_titles st
       else {[title_hash_of article]} ∪ seen_titles st)
      (deduped st ++ [article])
  else st.

Definition dedup_init : DedupState := mkDedup ∅ ∅ [].

(** utils.py, [deduplicate_articles]. *)
Definition deduplicate_articles (articles : list Article) : list Article :=
  match articles with
  | [] => articles
  | _ => deduped (fold_left dedup_step articles dedup_init)
  end.

End Deduplicate.

Definition breaking_extra : Article :=
  stub "Breaking News About The Economy And Markets Today Extra"
       "https://example.com/a".

Definition breaking_other : Article :=
  stub "Breaking News About The Economy And Markets Today Other"
       "https://example.org/b".

(** ** The loop state is a function of the articles kept so far *)

Section DeduplicateFacts.

Variable charref_sub : string -> string.

Abbreviation dedupe := (deduplicate_articles charref_sub).
Abbreviation nurl := normalized_url_of.
Abbreviation ntitle := (normalized_title_of charref_sub).
Abbreviation thash := (title_hash_of charref_sub).

(** The non-empty normalized URLs of a list of articles, in order. *)
Definition nonempty_urls (l : list Article) : list string :=
  List.filter (fun u => negb (Str.is_empty u)) (map normalized_url_of l).

(** The title hashes that the loop records for a list of kept articles. *)
Definition recorded_hashes (l : list Article) : list string :=
  map thash (List.filter (fun k => negb (Str.is_empty (ntitle k))) l).

(** The state that the loop is in when [kept] is what it has appended. *)
Definition state_of (kept : list Article) : DedupState :=
  mkDedup (list_to_set (nonempty_urls kept))
          (list_to_set (recorded_hashes kept)) kept.

(** The URL rule fires: an article kept before has the same non-empty URL. *)
Definition url_seen (kept : list Article) (a : Article) : bool :=
  negb (Str.is_empty (nurl a))
  && bool_decide (nurl a ∈ nonempty_urls kept).

(** A title rule fires: the hash is recorded, or the similarity test
    succeeds against a recorded member. *)
Definition title_suppressed (kept : list Article) (a : Article) : bool :=
  bool_decide (thash a ∈ recorded_hashes kept)
  || existsb (similar_to (ntitle a)) (recorded_hashes kept).

Lemma existsb_elements (f : string -> bool) (l : list string) :
  existsb f (elements (list_to_set l : gset string)) = existsb f l.
Proof.
  apply eq_true_iff_eq. rewrite !existsb_exists.
  split; intros (x & Hx & Hf); exists x; split; try exact Hf;
    apply list_elem_of_In; apply list_elem_of_In in Hx.
  - apply elem_of_elements in Hx. apply elem_of_list_to_set in Hx. exact Hx.
  - apply elem_of_elements. apply elem_of_list_to_set. exact Hx.
Qed.

Lemma keeps_state_of kept a :
  keeps charref_sub (state_of kept) a
  = negb (url_seen kept a || title_suppressed kept a).
Proof.
  unfold keeps, url_seen, title_suppressed, is_similar, state_of. simpl.
  rewrite existsb_elements.
  rewrite !(bool_decide_ext _ _ (elem_of_list_to_set _ _)).
  destruct (negb (Str.is_empty (nurl a)) && bool_decide (nurl a ∈ nonempty_urls kept));
    [reflexivity|].
  destruct (bool_decide (thash a ∈ recorded_hashes kept)); reflexivity.
Qed.

Lemma nonempty_urls_snoc kept a :
  nonempty_urls (kept ++ [a])
  = nonempty_urls kept ++ (if Str.is_empty (nurl a) then [] else [nurl a]).
Proof.
  unfold nonempty_urls. rewrite map_app, List.filter_app. simpl.
  destruct (Str.is_empty (nurl a)); reflexivity.
Qed.

Lemma recorded_hashes_snoc kept a :
  recorded_hashes (kept ++ [a])
  = recorded_hashes kept ++ (if Str.is_empty (ntitle a) then [] else [thash a]).
Proof.
  unfold recorded_hashes. rewrite List.filter_app, map_app. simpl.
  destruct (Str.is_empty (ntitle a)); reflexivity.
Qed.

(** What one iteration appends. *)
Definition after (kept : list Article) (a : Article) : list Article :=
  if url_seen kept a || title_suppressed kept a then kept else kept ++ [a].

Lemma dedup_step_state_of kept a :
  dedup_step charref_sub (state_of kept) a = state_of (after kept a).
Proof.
  unfold dedup_step, after. rewrite keeps_state_of.
  destruct (url_seen kept a || title_suppressed kept a); simpl; [reflexivity|].
  unfold state_of. simpl.
  rewrite nonempty_urls_snoc, recorded_hashes_snoc, !list_to_set_app_L.
  f_equal.
  - destruct (Str.is_empty (nurl a)); simpl; rewrite (right_id_L ∅ (∪));
      [reflexivity|apply (comm_L (∪))].
  - destruct (Str.is_empty (ntitle a)); simpl; rewrite (right_id_L ∅ (∪));
      [reflexivity|apply (comm_L (∪))].
Qed.

(** The list version of the loop. *)
Fixpoint dedup_from (kept l : list Article) : list Article :=
  match l with
  | [] => kept
  | a :: t => dedup_from (after kept a) t
  end.

Lemma fold_dedup_step l kept :
  fold_left (dedup_step charref_sub) l (state_of kept)
  = state_of (dedup_from kept l).
Proof.
  revert kept. induction l as [|a t IH]; intros kept; simpl; [reflexivity|].
  rewrite dedup_step_state_of. apply IH.
Qed.

Lemma deduplicate_articles_dedup_from l : dedupe l = dedup_from [] l.
Proof.
  destruct l as [|a t]; [reflexivity|].
  unfold deduplicate_articles.
  change dedup_init with (state_of []).
  rewrite fold_dedup_step. reflexivity.
Qed.

Lemma dedup_from_app kept l1 l2 :
  dedup_from kept (l1 ++ l2) = dedup_from (dedup_from kept l1) l2.
Proof.
  revert kept. induction l1 as [|a t IH]; intros kept; simpl; [reflexivity|].
  apply IH.
Qed.

(** The loop only appends, and what it appends is a subsequence of what
    it reads. *)
Lemma dedup_from_extends kept l :
  exists rest, dedup_from kept l = kept ++ rest /\ sublist rest l.
Proof.
  revert kept. induction l as [|a t IH]; intros kept; simpl.
  - exists []. rewrite app_nil_r. split; [reflexivity|constructor].
  - destruct (IH (after kept a)) as (rest & -> & Hsub). unfold after.
    destruct (url_seen kept a || title_suppressed kept a).
    + exists rest. split; [reflexivity|]. apply sublist_cons, Hsub.
    + exists (a :: rest). rewrite <- app_assoc. split; [reflexivity|].
      apply sublist_skip, Hsub.
Qed.

Lemma NoDup_snoc {A} (l : list A) (x : A) :
  NoDup l -> x ∉ l -> NoDup (l ++ [x]).
Proof.
  intros Hl Hx. apply NoDup_app. split; [exact Hl|]. split.
  - intros y Hy Hy'. apply list_elem_of_singleton in Hy'. subst y. exact (Hx Hy).
  - apply NoDup_singleton.
Qed.

Lemma after_NoDup kept a :
  NoDup (nonempty_urls kept) -> NoDup (nonempty_urls (after kept a)).
Proof.
  intros H. unfold after.
  destruct (url_seen kept a) eqn:Eu; simpl; [exact H|].
  destruct (title_suppressed kept a); [exact H|].
  rewrite nonempty_urls_snoc.
  unfold url_seen in Eu.
  destruct (Str.is_empty (nurl a)); simpl in *; [rewrite app_nil_r; exact H|].
  apply NoDup_snoc; [exact H|].
  apply bool_decide_eq_false in Eu. exact Eu.
Qed.

Lemma dedup_from_NoDup kept l :
  NoDup (nonempty_urls kept) -> NoDup (nonempty_urls (dedup_from kept l)).
Proof.
  revert kept. induction l as [|a t IH]; intros kept H; simpl; [exact H|].
  apply IH, after_NoDup, H.
Qed.

Lemma nonempty_urls_elem u l :
  u ∈ nonempty_urls l -> u ∈ map normalized_url_of l.
Proof.
  unfold nonempty_urls. rewrite !list_elem_of_In, filter_In. tauto.
Qed.

(** An article whose URL no earlier article of the input has is never
    stopped by the URL rule. *)
Lemma url_seen_first_occurrence l1 a :
  nurl a ∉ map normalized_url_of l1 -> url_seen (dedupe l1) a = false.
Proof.
  intros Hfirst. unfold url_seen.
  apply andb_false_iff. right. apply bool_decide_eq_false.
  intros Hin. apply Hfirst.
  apply nonempty_urls_elem in Hin.
  rewrite deduplicate_articles_dedup_from in Hin.
  destruct (dedup_from_extends [] l1) as (rest & Hrest & Hsub).
  rewrite Hrest in Hin. simpl in Hin.
  apply list_elem_of_fmap in Hin as (k & -> & Hk).
  apply list_elem_of_fmap. exists k. split; [reflexivity|].
  eapply elem_of_sublist; eassumption.
Qed.

Lemma take_all n s : (String.length s <= n)%nat -> Str.take n s = s.
Proof.
  revert n. induction s as [|c t IH]; intros [|n] H; simpl in *;
    try reflexivity; try lia.
  rewrite IH by lia. reflexivity.
Qed.

Lemma length_take n s : String.length (Str.take n s) = Nat.min n (String.length s).
Proof.
  revert n. induction s as [|c t IH]; intros [|n]; simpl; try reflexivity.
  rewrite IH. reflexivity.
Qed.

Lemma recorded_hashes_length kept h :
  h ∈ recorded_hashes kept -> String.length h = 32%nat.
Proof.
  unfold recorded_hashes. intros H.
  apply list_elem_of_fmap in H as (k & -> & _). apply MD5.length_hexdigest.
Qed.

(** Against a 32-character digest the similarity test can only succeed for
    a title that is that digest. *)
Lemma similar_to_digest nt h :
  String.length h = 32%nat -> similar_to nt h = true -> nt = h.
Proof.
  intros Hlen H. unfold similar_to in H.
  apply andb_true_iff in H as [_ H]. apply String.eqb_eq in H.
  rewrite (take_all 50 h) in H by lia.
  assert (Hl : String.length (Str.take 50 nt) = 32%nat) by (rewrite H; exact Hlen).
  rewrite length_take in Hl.
  rewrite take_all in H by lia. exact H.
Qed.

(** The members of [seen_titles] are digests, not titles: the similarity
    rule never fires for a title unless the title itself is one of the
    recorded digests. *)
Lemma similar_rule_only_on_digests kept nt :
  existsb (similar_to nt) (recorded_hashes kept) = true ->
  nt ∈ recorded_hashes kept.
Proof.
  intros H. apply existsb_exists in H as (h & Hin & Hsim).
  apply list_elem_of_In in Hin.
  rewrite (similar_to_digest nt h); [exact Hin| |exact Hsim].
  eapply recorded_hashes_length, Hin.
Qed.

Lemma long_title_never_similar kept nt :
  (32 < String.length nt)%nat ->
  existsb (similar_to nt) (recorded_hashes kept) = false.
Proof.
  intros Hlen. destruct (existsb _ _) eqn:E; [|reflexivity].
  apply similar_rule_only_on_digests, recorded_hashes_length in E. lia.
Qed.

End DeduplicateFacts.

(** C1. The two articles of the specification's example have normalized
    titles of 55 characters that agree on the first 50, and both survive
    [deduplicate_articles]: the similarity loop compares the title with the
    members of [seen_titles], which are MD5 digests, so the rule that the
    source announces never fires for them. *)
Theorem near_duplicate_titles_both_survive (charref_sub : string -> string) :
  String.length (normalized_title_of charref_sub breaking_extra) = 55%nat
  /\ String.length (normalized_title_of charref_sub breaking_other) = 55%nat
  /\ Str.take 50 (normalized_title_of charref_sub breaking_extra)
     = Str.take 50 (normalized_title_of charref_sub breaking_other)
  /\ deduplicate_articles charref_sub [breaking_extra; breaking_other]
     = [breaking_extra; breaking_other].
Proof. repeat split; vm_compute; reflexivity. Qed.

Definition first_v : Article := stub "t" "v.example".
Definition first_u : Article := stub "t" "u.example".
Definition second_u : Article := stub "s" "u.example".

(** C10 (as stated) fails. [first_u] and [second_u] share the normalized
    URL [https://u.example]; [first_u], the first occurrence, repeats the
    title of [first_v] and is dropped by the title rule before its URL is
    recorded, so the later occurrence [second_u] is the one that is kept. *)
Lemma later_occurrence_kept :
  (forall charref_sub,
      deduplicate_articles charref_sub [first_v; first_u; second_u]
      = [first_v; second_u])
  /\ normalized_url_of first_u = "https://u.example"
  /\ normalized_url_of second_u = "https://u.example"
  /\ first_u <> second_u.
Proof.
  split; [intros f; vm_compute; reflexivity|].
  repeat split; try reflexivity. discriminate.
Qed.

(** C10 (as amended). The output is a subsequence of the input and no two
    kept articles share a non-empty normalized URL.  The fate of each
    article is decided by what was kept before it: it is dropped when a
    kept article has its non-empty URL or a title rule fires, and appended
    otherwise.  For the first occurrence of a URL the URL rule cannot
    fire, so it is kept exactly when no title rule suppresses it. *)
Theorem deduplicate_subsequence_first_unsuppressed
    (charref_sub : string -> string) (l : list Article) :
  sublist (deduplicate_articles charref_sub l) l
  /\ NoDup (nonempty_urls (deduplicate_articles charref_sub l))
  /\ forall l1 a l2, l = l1 ++ a :: l2 ->
       let kept := deduplicate_articles charref_sub l1 in
       (exists rest,
           sublist rest l2
           /\ deduplicate_articles charref_sub l
              = (if url_seen kept a || title_suppressed charref_sub kept a
                 then kept else kept ++ [a]) ++ rest)
       /\ (normalized_url_of a ∉ map normalized_url_of l1 ->
           url_seen kept a = false).
Proof.
  split; [|split].
  - rewrite deduplicate_articles_dedup_from.
    destruct (dedup_from_extends charref_sub [] l) as (rest & -> & H). exact H.
  - rewrite deduplicate_articles_dedup_from.
    apply dedup_from_NoDup. constructor.
  - intros l1 a l2 -> kept. split.
    + subst kept. rewrite !deduplicate_articles_dedup_from.
      rewrite dedup_from_app. simpl.
      destruct (dedup_from_extends charref_sub
                  (after charref_sub (dedup_from charref_sub [] l1) a) l2)
        as (rest & Hrest & Hsub).
      exists rest. split; [exact Hsub|]. exact Hrest.
    + apply url_seen_first_occurrence.
Qed.

(* ===================================================================== *)
(** * Exceptions, time, slices                                             *)
(* ===================================================================== *)

(** The exceptions that the modelled code can meet. *)
Inductive exn : Type :=
| TypeError
| KeyError
| ValueError
| JSONDecodeError
| RequestError (msg : string).

(** A call that returns or raises. *)
Inductive result (A : Type) : Type :=
| Return (a : A)
| Raise (e : exn).
Arguments Return {A} _.
Arguments Raise {A} _.

(** A [datetime]: the reading of its wall clock in microseconds, and its
    UTC offset when it is timezone-aware. *)
Record DateTime : Type := mkDateTime {
  wall : Z;
  utcoffset : option Z
}.

(** [datetime.now()], a naive [datetime], for a clock reading [now]. *)
Definition naive (now : Z) : DateTime := mkDateTime now None.

(** [datetime.now() - d], in microseconds: subtracting an aware [datetime]
    from a naive one raises [TypeError]. *)
Definition since (now : Z) (d : DateTime) : result Z :=
  match utcoffset d with
  | None => Return (now - wall d)%Z
  | Some _ => Raise TypeError
  end.

Definition micros_per_second : Z := 1000000.
Definition micros_per_day : Z := 86400 * micros_per_second.

(** [l[:n]] for an [int] [n]: a negative [n] counts from the end. *)
Definition slice_to {A} (l : list A) (n : Z) : list A :=
  if (0 <=? n)%Z then firstn (Z.to_nat n) l
  else firstn (Z.to_nat (Z.of_nat (List.length l) + n)) l.

(* ===================================================================== *)
(** * config.py                                                            *)
(* ===================================================================== *)

Record UserPreferences : Type := mkPreferences {
  interests : list string;
  max_articles_per_feed : Z;
  exclude_domains : list string;
  keywords_boost : list string;
  keywords_filter : list string
}.

(** config.py, [LLMConfig], the fields that [is_available] reads. *)
Record LLMConfig : Type := mkLLMConfig {
  provider : string;
  api_key : option string
}.

(** config.py, [Config], loaded: [sources] is the category dictionary in
    insertion order. *)
Record Config : Type := mkConfig {
  preferences : UserPreferences;
  sources : list (string * list string);
  cache_ttl : Z;
  llm_config : LLMConfig
}.

(** [d.get(k)] on a dictionary kept as an association list. *)
Fixpoint dict_get {V} (d : list (string * V)) (k : string) : option V :=
  match d with
  | [] => None
  | (k', v) :: t => if String.eqb k' k then Some v else dict_get t k
  end.

(** config.py, [Config.get_sources_for_topic]. *)
Definition get_sources_for_topic (config : Config) (topic : string) : list string :=
  match dict_get (sources config) (Text.lower topic) with
  | Some urls => urls
  | None =>
      let matches :=
        flat_map
          (fun '(category, urls) =>
             if Str.contains (Text.lower topic) (Text.lower category)
                || Str.contains (Text.lower category) (Text.lower topic)
             then urls else [])
          (sources config) in
      match matches with
      | [] => default [] (dict_get (sources config) "general")
      | _ => matches
      end
  end.

(* ===================================================================== *)
(** * The cache files                                                      *)
(* ===================================================================== *)

(** What [cached_data['timestamp']] finds in a cached dictionary. *)
Inductive TimestampField : Type :=
| TsMissing
| TsNotStr
| TsStr (s : string).

(** What [json.load] makes of a cache file: the file does not parse; it
    parses to something that is not a dictionary; it parses to a
    dictionary with (or without) a timestamp and a payload. *)
Inductive CacheDoc (P : Type) : Type :=
| DocCorrupt
| DocNotDict
| DocDict (ts : TimestampField) (payload : P).
Arguments DocCorrupt {P}.
Arguments DocNotDict {P}.
Arguments DocDict {P} _ _.

(** The outcome of the cache check at the head of an operation. *)
Inductive CacheOutcome (P : Type) : Type :=
| CacheHit (p : P)
| CacheMiss
| CacheRaise (e : exn).
Arguments CacheHit {P} _.
Arguments CacheMiss {P}.
Arguments CacheRaise {P} _.

Section CacheRead.

(** [datetime.fromisoformat]; [None] when it raises [ValueError]. *)
Variable fromisoformat : string -> option DateTime.

(** The timestamp test both operations run on a parsed cache file.
    [KeyError] and [ValueError] are caught and the read goes on as a miss;
    a [TypeError] is not among the caught exceptions. *)
Definition timestamp_fresh (now ttl : Z) (ts : TimestampField) : CacheOutcome unit :=
  match ts with
  | TsMissing => CacheMiss
  | TsNotStr => CacheRaise TypeError
  | TsStr s =>
      match fromisoformat s with
      | None => CacheMiss
      | Some cache_time =>
          match since now cache_time with
          | Raise e => CacheRaise e
          | Return age =>
              if (age <? ttl * micros_per_second)%Z then CacheHit tt else CacheMiss
          end
      end
  end.

(** The [if cache_path.exists(): try: ... except (json.JSONDecodeError,
    KeyError, ValueError): pass] block; [payload_of] is what the operation
    takes from a fresh dictionary ([None]: a [KeyError]). *)
Definition cache_read {P R} (payload_of : P -> option R)
    (now ttl : Z) (file : option (CacheDoc P)) : CacheOutcome R :=
  match file with
  | None => CacheMiss
  | Some DocCorrupt => CacheMiss
  | Some DocNotDict => CacheRaise TypeError
  | Some (DocDict ts payload) =>
      match timestamp_fresh now ttl ts with
      | CacheHit _ =>
          match payload_of payload with
          | Some r => CacheHit r
          | None => CacheMiss
          end
      | CacheMiss => CacheMiss
      | CacheRaise e => CacheRaise e
      end
  end.

End CacheRead.

(** ** What a cache read can end in *)

Section CacheReadFacts.

Variable fromisoformat : string -> option DateTime.
Context {P R : Type}.
Variable payload_of : P -> option R.

(** A read is a miss exactly when there is no file, the file does not
    parse, the dictionary has no timestamp, the timestamp is not in ISO
    format, the entry is [ttl] seconds old or older, or the payload key is
    not there. *)
Lemma cache_read_miss_iff (now ttl : Z) (file : option (CacheDoc P)) :
  cache_read fromisoformat payload_of now ttl file = CacheMiss
  <-> file = None
      \/ file = Some DocCorrupt
      \/ exists ts payload,
           file = Some (DocDict ts payload)
           /\ (ts = TsMissing
               \/ exists s,
                    ts = TsStr s
                    /\ (fromisoformat s = None
                        \/ exists t,
                             fromisoformat s = Some (naive t)
                             /\ ((ttl * micros_per_second <= now - t)%Z
                                 \/ payload_of payload = None))).
Proof.
  unfold cache_read, timestamp_fresh, since, naive.
  destruct file as [[| |ts payload]|]; simpl.
  - split; [tauto|]. intros _. reflexivity.
  - split; [discriminate|].
    intros [H|[H|(ts & p & H & _)]]; discriminate.
  - destruct ts as [| |s]; simpl.
    + split; [|reflexivity]. intros _. right. right. eauto 10.
    + split; [discriminate|].
      intros [H|[H|(ts & p & [= <- <-] & [H|(s & H & _)])]]; discriminate.
    + destruct (fromisoformat s) as [[w [off|]]|] eqn:Eiso; simpl.
      * split; [discriminate|].
        intros [H|[H|(ts & p & [= <- <-] & [H|(s' & [= <-] & [H|(t & H & _)])])]];
          try discriminate; congruence.
      * destruct (now - w <? ttl * micros_per_second)%Z eqn:Eage.
        -- apply Z.ltb_lt in Eage.
           destruct (payload_of payload) eqn:Ep.
           ++ split; [discriminate|].
              intros [H|[H|(ts & p & [= <- <-] & [H|(s' & [= <-] & [H|(t & H & [Ht|Ht])])])]];
                try discriminate; try congruence.
              rewrite Eiso in H. injection H as <-. lia.
           ++ split; [|reflexivity]. intros _. right. right.
              exists (TsStr s), payload. split; [reflexivity|]. right.
              exists s. split; [reflexivity|]. right. exists w. tauto.
        -- apply Z.ltb_ge in Eage.
           split; [|reflexivity]. intros _. right. right.
           exists (TsStr s), payload. split; [reflexivity|]. right.
           exists s. split; [reflexivity|]. right. exists w. tauto.
      * split; [|reflexivity]. intros _. right. right.
        exists (TsStr s), payload. split; [reflexivity|]. right.
        exists s. split; [reflexivity|]. left. exact Eiso.
  - split; [|reflexivity]. intros _. left. reflexivity.
Qed.

(** A read within the TTL of a dictionary with a naive ISO timestamp is a
    hit on its payload. *)
Lemma cache_read_fresh (now ttl t : Z) (s : string) (payload : P) (r : R) :
  fromisoformat s = Some (naive t) ->
  (now - t < ttl * micros_per_second)%Z ->
  payload_of payload = Some r ->
  cache_read fromisoformat payload_of now ttl (Some (DocDict (TsStr s) payload))
  = CacheHit r.
Proof.
  intros Hiso Hage Hp. unfold cache_read, timestamp_fresh. rewrite Hiso. simpl.
  apply Z.ltb_lt in Hage. rewrite Hage, Hp. reflexivity.
Qed.

(** A file that parses to something other than a dictionary is neither a
    hit nor a miss: the subscript raises [TypeError], which the [except]
    clause of the cache block does not list. *)
Lemma cache_read_not_dict (now ttl : Z) :
  cache_read fromisoformat payload_of now ttl (Some DocNotDict)
  = CacheRaise TypeError.
Proof. reflexivity. Qed.

End CacheReadFacts.

(* ===================================================================== *)
(** * utils.py: extract_domain                                             *)
(* ===================================================================== *)

Section ExtractDomain.

(** [urlparse(u).netloc]; [None] when [urlparse] raises. *)
Variable netloc_of : string -> option string.

(** utils.py, [extract_domain]. *)
Definition extract_domain (url : string) : string :=
  if Str.is_empty url then ""
  else
    match netloc_of (normalize_url url) with
    | None => ""
    | Some netloc =>
        let domain := Text.lower netloc in
        if Str.startswith "www." domain then Str.drop 4 domain else domain
    end.

End ExtractDomain.

(* ===================================================================== *)
(** * list.sort                                                            *)
(* ===================================================================== *)

Section Sort.

Context {A K : Type}.
Variable ltb : K -> K -> bool.
Variable key : A -> K.

(** [x] enters a descending list in front of the first element whose key
    is not greater than its own. *)
Fixpoint insert_desc (x : A) (l : list A) : list A :=
  match l with
  | [] => [x]
  | y :: t => if ltb (key x) (key y) then y :: insert_desc x t else x :: l
  end.

(** [l.sort(key=key, reverse=True)]: descending, and stable (elements
    with equal keys stay in their original order). *)
Definition sort_desc (l : list A) : list A := fold_right insert_desc [] l.

End Sort.

Section SortFacts.

Context {A K : Type}.
Variable ltb : K -> K -> bool.
Variable key : A -> K.

(** [x] may stand before [y] in a descending list. *)
Definition not_below (x y : A) : Prop := ltb (key x) (key y) = false.

Hypothesis ltb_asym : forall a b, ltb a b = true -> ltb b a = false.
Hypothesis not_ltb_trans :
  forall a b c, ltb a b = false -> ltb b c = false -> ltb a c = false.

Lemma insert_desc_perm (x : A) (l : list A) :
  Permutation (insert_desc ltb key x l) (x :: l).
Proof.
  induction l as [|y t IH]; simpl; [reflexivity|].
  destruct (ltb (key x) (key y)); [|reflexivity].
  rewrite IH. apply perm_swap.
Qed.

Lemma sort_desc_perm (l : list A) : Permutation (sort_desc ltb key l) l.
Proof.
  induction l as [|x t IH]; simpl; [reflexivity|].
  rewrite insert_desc_perm, IH. reflexivity.
Qed.

Lemma insert_desc_sorted (x : A) (l : list A) :
  StronglySorted not_below l ->
  StronglySorted not_below (insert_desc ltb key x l).
Proof.
  induction 1 as [|y t Hsorted IH Hall]; simpl.
  - repeat constructor.
  - destruct (ltb (key x) (key y)) eqn:E.
    + constructor; [exact IH|].
      apply Forall_forall. intros z Hz.
      apply list_elem_of_In in Hz.
      apply (Permutation_in _ (insert_desc_perm x t)) in Hz as [<-|Hz].
      * apply ltb_asym, E.
      * rewrite Forall_forall in Hall. apply Hall, list_elem_of_In, Hz.
    + constructor; [constructor; assumption|].
      constructor; [exact E|].
      apply Forall_forall. intros z Hz. rewrite Forall_forall in Hall.
      eapply not_ltb_trans; [exact E|apply Hall, Hz].
Qed.

(** The sort leaves a permutation of its argument in which no element is
    followed by one with a greater key. *)
Lemma sort_desc_sorted (l : list A) :
  StronglySorted not_below (sort_desc ltb key l).
Proof.
  induction l as [|x t IH]; simpl; [constructor|].
  apply insert_desc_sorted, IH.
Qed.

End SortFacts.

(** ** The order of strings *)

Lemma ascii_compare_lt_trans (a b c : ascii) :
  Ascii.compare a b = Lt -> Ascii.compare b c = Lt -> Ascii.compare a c = Lt.
Proof.
  unfold Ascii.compare. rewrite !N.compare_lt_iff. lia.
Qed.

Lemma ascii_compare_eq (a b : ascii) : Ascii.compare a b = Eq -> a = b.
Proof.
  unfold Ascii.compare. intros H. apply N.compare_eq_iff in H.
  rewrite <- (ascii_N_embedding a), <- (ascii_N_embedding b), H. reflexivity.
Qed.

Lemma string_compare_lt_trans (a b c : string) :
  String.compare a b = Lt -> String.compare b c = Lt -> String.compare a c = Lt.
Proof.
  revert b c. induction a as [|x a IH]; intros [|y b] [|z c]; simpl;
    try discriminate; try reflexivity.
  destruct (Ascii.compare x y) eqn:Exy; try discriminate;
    destruct (Ascii.compare y z) eqn:Eyz; try discriminate; intros Hab Hbc.
  - apply ascii_compare_eq in Exy, Eyz. subst.
    replace (Ascii.compare z z) with Eq
      by (symmetry; unfold Ascii.compare; apply N.compare_refl).
    eapply IH; eassumption.
  - apply ascii_compare_eq in Exy. subst. rewrite Eyz. reflexivity.
  - apply ascii_compare_eq in Eyz. subst. rewrite Exy. reflexivity.
  - rewrite (ascii_compare_lt_trans _ _ _ Exy Eyz). reflexivity.
Qed.

Lemma string_ltb_asym (a b : string) :
  String.ltb a b = true -> String.ltb b a = false.
Proof.
  unfold String.ltb. rewrite (String.compare_antisym a b).
  destruct (String.compare b a); simpl; congruence.
Qed.

Lemma string_not_ltb_trans (a b c : string) :
  String.ltb a b = false -> String.ltb b c = false -> String.ltb a c = false.
Proof.
  unfold String.ltb. intros Hab Hbc.
  destruct (String.compare a c) eqn:Eac; try reflexivity. exfalso.
  destruct (String.compare a b) eqn:Eab; try discriminate.
  - apply String.compare_eq_iff in Eab. subst. rewrite Eac in Hbc. discriminate.
  - destruct (String.compare b c) eqn:Ebc; try discriminate.
    + apply String.compare_eq_iff in Ebc. subst. congruence.
    + rewrite String.compare_antisym in Eab, Ebc.
      destruct (String.compare b a) eqn:Eba; try discriminate.
      destruct (String.compare c b) eqn:Ecb; try discriminate.
      pose proof (string_compare_lt_trans _ _ _ Ecb Eba) as Hca.
      rewrite String.compare_antisym, Hca in Eac. discriminate.
Qed.

(** Only the empty string is not above the empty string. *)
Lemma string_not_above_empty (s : string) : String.ltb "" s = false -> s = "".
Proof. destruct s; [reflexivity|discriminate]. Qed.

(* ===================================================================== *)
(** * tools.py: search_feeds                                               *)
(* ===================================================================== *)

(** A feed entry as [feedparser] gives it; [None] is an attribute that
    the entry does not have. *)
Record Entry : Type := mkEntry {
  e_title : option string;
  e_link : option string;
  e_summary : option string;
  e_published : option string;
  e_updated : option string;
  e_author : option string;
  e_tags : list string
}.

(** [feedparser.parse(content)]. *)
Record Feed : Type := mkFeed {
  bozo : bool;
  feed_title : option string;
  entries : list Entry
}.

(** [requests.get(...)] followed by [raise_for_status()]. *)
Inductive HttpResult : Type :=
| HttpOk (content : string)
| HttpError (e : exn).

(** A feed cache file holds a timestamp and, under ['articles'], the
    articles of the feed. *)
Abbreviation FeedDoc := (CacheDoc (option (list Article))).

(** The dictionary [search_feeds] returns: the failure for an empty list
    of sources, or the articles found. *)
Inductive SearchResult : Type :=
| NoSources (error : string)
| Found (articles : list Article) (total_found : nat)
        (sources_used : list string) (errors : list string)
        (topic : option string) (timestamp : string).

(** [result['success']]. *)
Definition sr_success (r : SearchResult) : bool :=
  match r with
  | NoSources _ => false
  | Found _ _ _ _ _ _ => true
  end.

(** [result['articles']]. *)
Definition sr_articles (r : SearchResult) : list Article :=
  match r with
  | NoSources _ => []
  | Found articles _ _ _ _ _ => articles
  end.

(** The key of the final sort, [x.get('published', '')]: [None] is the
    [None] object, found when the key is there and holds it. *)
Definition published_key (x : Article) : option string :=
  slot_get (published x) "".

Definition key_is_None (k : option string) : bool :=
  match k with
  | None => true
  | Some _ => false
  end.

(** The key as a string, for the comparisons of a sort in which no key is
    [None]. *)
Definition date_key (x : Article) : string := default "" (published_key x).

(** [articles.sort(key=lambda x: x.get('published', ''), reverse=True)].
    Sorting two or more elements compares each of them with another at
    least once, and [<] between [None] and a [str] or [None] raises
    [TypeError]; once no key is [None] the keys are strings, compared by
    code points. *)
Definition sort_by_published (articles : list Article) : result (list Article) :=
  if (2 <=? List.length articles)%nat
     && existsb (fun x => key_is_None (published_key x)) articles
  then Raise TypeError
  else
    Return (sort_desc String.ltb date_key articles).

(** When the sort returns, its result is a permutation of the articles in
    which no article is followed by one with a greater date string. *)
Lemma sort_by_published_sorted (articles l : list Article) :
  sort_by_published articles = Return l ->
  Permutation l articles
  /\ StronglySorted (not_below String.ltb date_key) l.
Proof.
  unfold sort_by_published. destruct (_ && _); [discriminate|].
  intros [= <-]. split.
  - apply sort_desc_perm.
  - apply sort_desc_sorted.
    + exact string_ltb_asym.
    + exact string_not_ltb_trans.
Qed.

(** In a sorted result, an article without the ['published'] key (its
    sort key is the empty string) is followed only by articles whose key
    is empty too: the undated articles come last. *)
Lemma undated_sort_last (articles l1 l2 : list Article) (x : Article) :
  sort_by_published articles = Return (l1 ++ x :: l2) ->
  date_key x = "" ->
  Forall (fun y => date_key y = "") l2.
Proof.
  intros Hsort Hx. apply sort_by_published_sorted in Hsort as [_ Hsorted].
  induction l1 as [|a t IH]; simpl in Hsorted.
  - apply StronglySorted_inv in Hsorted as [_ Hall].
    eapply Forall_impl; [exact Hall|]. intros y Hy. unfold not_below in Hy.
    rewrite Hx in Hy. apply string_not_above_empty, Hy.
  - apply StronglySorted_inv in Hsorted as [Hsorted _]. apply IH, Hsorted.
Qed.

Section SearchFeeds.

Variable charref_sub : string -> string.
Variable netloc_of : string -> option string.
(** [dateutil.parser.parse]; [None] when it raises. *)
Variable date_parse : string -> option DateTime.
(** [d.isoformat()]. *)
Variable isoformat : DateTime -> string.
Variable fromisoformat : string -> option DateTime.
(** [str(e)]. *)
Variable exn_str : exn -> string.
Variable http_get : string -> HttpResult.
Variable feedparser_parse : string -> Feed.

(** The two [try: published = date_parser.parse(...).isoformat()] blocks
    of the entry loop. *)
Definition entry_published (entry : Entry) : option string :=
  let published :=
    match e_published entry with
    | Some s => option_map isoformat (date_parse s)
    | None => None
    end in
  match e_updated entry, published with
  | Some s, None => option_map isoformat (date_parse s)
  | Some s, Some "" => option_map isoformat (date_parse s)
  | _, _ => published
  end.

(** The [article] dictionary built for an entry. *)
Definition article_of_entry (now : Z) (feed_url : string) (feed : Feed)
    (entry : Entry) : Article :=
  {| title := clean_text charref_sub (default "No title" (e_title entry));
     url := normalize_url (default "" (e_link entry));
     summary := clean_text charref_sub (default "" (e_summary entry));
     published :=
       match entry_published entry with
       | Some s => Value s
       | None => PyNone
       end;
     author := default "" (e_author entry);
     source := Some (default (extract_domain netloc_of feed_url) (feed_title feed));
     source_url := feed_url;
     domain := Some (extract_domain netloc_of (default "" (e_link entry)));
     tags := e_tags entry;
     fetched_at := isoformat (naive now);
     word_count := None |}.

(** [x in l] for strings. *)
Definition in_list (x : string) (l : list string) : bool :=
  existsb (String.eqb x) l.

(** The inner loop over [feed.entries[:max_articles_per_feed]]; the
    attributes of an entry are strings, so building its article does not
    raise. *)
Definition feed_articles_of (config : Config) (now : Z) (feed_url : string)
    (feed : Feed) : list Article :=
  List.filter
    (fun article =>
       negb (in_list (default "" (domain article))
                     (exclude_domains (preferences config))))
    (map (article_of_entry now feed_url feed)
         (slice_to (entries feed) (max_articles_per_feed (preferences config)))).

(** The path of the cache file of a feed. *)
Definition feed_cache_path (feed_url : string) : string :=
  "feed_" +:+ MD5.hexdigest feed_url +:+ ".json".

(** The state of the loop over the feeds: the cache directory, [articles]
    and [errors]. *)
Record FeedLoop : Type := mkFeedLoop {
  fl_cache : gmap string FeedDoc;
  fl_articles : list Article;
  fl_errors : list string
}.

(** One iteration of [for feed_url in feed_urls[:5]]. *)
Definition feed_step (config : Config) (now : Z) (st : FeedLoop)
    (feed_url : string) : FeedLoop :=
  let failed (e : exn) :=
    mkFeedLoop (fl_cache st) (fl_articles st)
      (fl_errors st
       ++ ["Error fetching feed " +:+ feed_url +:+ ": " +:+ exn_str e]) in
  let cached :=
    cache_read fromisoformat
      (fun articles : option (list Article) =>
         option_map
           (fun l => slice_to l (max_articles_per_feed (preferences config)))
           articles)
      now (cache_ttl config) (fl_cache st !! feed_cache_path feed_url) in
  match cached with
  | CacheHit cached_articles =>
      mkFeedLoop (fl_cache st) (fl_articles st ++ cached_articles) (fl_errors st)
  | CacheRaise e => failed e
  | CacheMiss =>
      match http_get feed_url with
      | HttpError e => failed e
      | HttpOk content =>
          let feed := feedparser_parse content in
          if bozo feed && bool_decide (entries feed = [])
          then
            mkFeedLoop (fl_cache st) (fl_articles st)
              (fl_errors st ++ ["Failed to parse feed: " +:+ feed_url])
          else
            let feed_articles := feed_articles_of config now feed_url feed in
            mkFeedLoop
              (<[feed_cache_path feed_url :=
                   DocDict (TsStr (isoformat (naive now))) (Some feed_articles)]>
                 (fl_cache st))
              (fl_articles st ++ feed_articles)
              (fl_errors st)
      end
  end.

(** The feed URLs that [search_feeds] settles on. *)
Definition resolve_feed_urls (config : Config) (topic : option string)
    (sources_arg : option (list string)) : list string :=
  match sources_arg, topic with
  | Some (s :: l), _ => s :: l
  | _, Some (String c t) => get_sources_for_topic config (String c t)
  | _, _ =>
      flat_map (get_sources_for_topic config) (interests (preferences config))
  end.

(** tools.py, [search_feeds], for a loaded [config], the clock reading
    [now] and the cache directory [cache]: the new cache directory, and
    the dictionary returned or the exception that leaves the function. *)
Definition search_feeds (config : Config) (now : Z) (cache : gmap string FeedDoc)
    (topic : option string) (sources_arg : option (list string)) (limit : Z)
  : gmap string FeedDoc * result SearchResult :=
  let feed_urls := resolve_feed_urls config topic sources_arg in
  match feed_urls with
  | [] =>
      (cache, Return (NoSources "No sources found for the given topic or criteria"))
  | _ =>
      let st :=
        fold_left (feed_step config now) (firstn 5 feed_urls)
                  (mkFeedLoop cache [] []) in
      let articles := deduplicate_articles charref_sub (fl_articles st) in
      match sort_by_published articles with
      | Raise e => (fl_cache st, Raise e)
      | Return articles =>
          let articles := slice_to articles limit in
          (fl_cache st,
           Return (Found articles (List.length articles) feed_urls
                     (fl_errors st) topic (isoformat (naive now))))
      end
  end.

(** [articles] just before the sort: the loop over the feeds, then
    [deduplicate_articles]. *)
Definition gathered (config : Config) (now : Z) (cache : gmap string FeedDoc)
    (topic : option string) (sources_arg : option (list string)) : list Article :=
  deduplicate_articles charref_sub
    (fl_articles
       (fold_left (feed_step config now)
          (firstn 5 (resolve_feed_urls config topic sources_arg))
          (mkFeedLoop cache [] []))).

Lemma sort_by_published_raises (articles : list Article) (a : Article) :
  (2 <= List.length articles)%nat ->
  a ∈ articles -> published a = PyNone ->
  sort_by_published articles = Raise TypeError.
Proof.
  intros Hlen Hin Hnone. unfold sort_by_published.
  apply Nat.leb_le in Hlen. rewrite Hlen. simpl.
  replace (existsb _ articles) with true; [reflexivity|].
  symmetry. apply existsb_exists. exists a. split.
  - apply list_elem_of_In, Hin.
  - unfold published_key. rewrite Hnone. reflexivity.
Qed.

(** When nothing raises, the list returned is the deduplicated list,
    sorted and cut at [limit]. *)
Lemma search_feeds_found config now cache topic sources_arg limit r :
  (search_feeds config now cache topic sources_arg limit).2 = Return r ->
  sr_success r = true ->
  sort_by_published (gathered config now cache topic sources_arg)
  = Return
      (sort_desc String.ltb date_key
         (gathered config now cache topic sources_arg))
  /\ sr_articles r
     = slice_to
         (sort_desc String.ltb date_key
            (gathered config now cache topic sources_arg))
         limit.
Proof.
  unfold search_feeds, gathered.
  destruct (resolve_feed_urls config topic sources_arg) as [|u us] eqn:Eu.
  - simpl. intros [= <-]. discriminate.
  - set (arts := deduplicate_articles _ _).
    unfold sort_by_published.
    destruct (_ && _); simpl; [discriminate|].
    intros [= <-] _. split; reflexivity.
Qed.

(** A feed that was fetched at [now] is served from the cache until the
    TTL has run out (for an [isoformat] that [fromisoformat] reads back). *)
Lemma feed_step_then_hit config now now' st feed_url content :
  fromisoformat (isoformat (naive now)) = Some (naive now) ->
  cache_read fromisoformat
    (fun articles : option (list Article) =>
       option_map
         (fun l => slice_to l (max_articles_per_feed (preferences config)))
         articles)
    now (cache_ttl config) (fl_cache st !! feed_cache_path feed_url)
  = CacheMiss ->
  http_get feed_url = HttpOk content ->
  bozo (feedparser_parse content)
  && bool_decide (entries (feedparser_parse content) = []) = false ->
  (now' - now < cache_ttl config * micros_per_second)%Z ->
  cache_read fromisoformat
    (fun articles : option (list Article) =>
       option_map
         (fun l => slice_to l (max_articles_per_feed (preferences config)))
         articles)
    now' (cache_ttl config)
    (fl_cache (feed_step config now st feed_url) !! feed_cache_path feed_url)
  = CacheHit
      (slice_to
         (feed_articles_of config now feed_url (feedparser_parse content))
         (max_articles_per_feed (preferences config))).
Proof.
  intros Hiso Hmiss Hget Hparsed Hage.
  unfold feed_step. rewrite Hmiss, Hget, Hparsed. simpl.
  rewrite lookup_insert_eq.
  apply (cache_read_fresh _ _ now' (cache_ttl config) now); auto.
Qed.

(** C4. When two or more articles are left after deduplication and one of
    them has no date, the sort that follows the feed loop, which is
    outside every [try], raises [TypeError] and the exception leaves
    [search_feeds]: no result dictionary is returned. *)
Theorem search_feeds_propagates_TypeError
    (config : Config) (now : Z) (cache : gmap string FeedDoc)
    (topic : option string) (sources_arg : option (list string)) (limit : Z)
    (a : Article) :
  resolve_feed_urls config topic sources_arg <> [] ->
  (2 <= List.length (gathered config now cache topic sources_arg))%nat ->
  a ∈ gathered config now cache topic sources_arg ->
  published a = PyNone ->
  (search_feeds config now cache topic sources_arg limit).2 = Raise TypeError.
Proof.
  intros Hurls Hlen Hin Hnone. unfold search_feeds.
  destruct (resolve_feed_urls config topic sources_arg) as [|u us] eqn:Eu;
    [congruence|].
  fold (gathered config now cache topic sources_arg) in *.
  unfold gathered in *. rewrite Eu in *.
  rewrite (sort_by_published_raises _ a Hlen Hin Hnone). reflexivity.
Qed.

End SearchFeeds.

(* ===================================================================== *)
(** * A run of search_feeds on one feed with two entries                   *)
(* ===================================================================== *)

Module FeedRun.

Definition feed_url : string := "https://feed.example/rss".

Definition dated_entry : Entry :=
  mkEntry (Some "Alpha") (Some "https://site.example/1") (Some "first")
          (Some "Mon, 01 Jan 2024 10:00:00 GMT") None None [].

Definition undated_entry : Entry :=
  mkEntry (Some "Beta") (Some "https://site.example/2") (Some "second")
          None None None [].

Definition feed : Feed := mkFeed false (Some "Example") [dated_entry; undated_entry].

(** 1 January 2024, 10:00:00 UTC, as microseconds since 1 January 1970. *)
Definition new_year_10h : Z := 1704103200000000.

(** The clock of the run: 2 January 2024, 00:00:00. *)
Definition now : Z := 1704153600000000.

Definition date_parse (s : string) : option DateTime :=
  if String.eqb s "Mon, 01 Jan 2024 10:00:00 GMT"
  then Some (mkDateTime new_year_10h (Some 0%Z)) else None.

Definition isoformat (d : DateTime) : string :=
  if (wall d =? new_year_10h)%Z then "2024-01-01T10:00:00+00:00"
  else "2024-01-02T00:00:00".

Definition fromisoformat (s : string) : option DateTime :=
  if String.eqb s "2024-01-02T00:00:00" then Some (naive now) else None.

Definition http_get (u : string) : HttpResult :=
  if String.eqb u feed_url then HttpOk "<rss/>"
  else HttpError (RequestError "unreachable").

Definition feedparser_parse (content : string) : Feed := feed.

Definition netloc_of (u : string) : option string :=
  if Str.startswith "https://site.example" u then Some "site.example"
  else Some "feed.example".

Definition exn_str (e : exn) : string :=
  match e with
  | RequestError msg => msg
  | _ => "error"
  end.

Definition config : Config :=
  mkConfig (mkPreferences ["news"] 10 [] [] [])
           [("news", [feed_url])] 3600 (mkLLMConfig "openai" None).

Definition dated_article (f : string -> string) : Article :=
  article_of_entry f netloc_of date_parse isoformat now feed_url feed dated_entry.

Definition undated_article (f : string -> string) : Article :=
  article_of_entry f netloc_of date_parse isoformat now feed_url feed undated_entry.

Definition run (f : string -> string) :=
  search_feeds f netloc_of date_parse isoformat fromisoformat exn_str
               http_get feedparser_parse config now ∅ (Some "news") None 10.

End FeedRun.

Example feed_run_articles (f : string -> string) :
  published (FeedRun.dated_article f) = Value "2024-01-01T10:00:00+00:00"
  /\ published (FeedRun.undated_article f) = PyNone
  /\ title (FeedRun.undated_article f) = "Beta".
Proof. repeat split. Qed.

(** A feed with one dated and one undated entry: both articles reach the
    sort, the undated one with ['published': None], so the key that
    [x.get('published', '')] yields for it is [None] and not the empty
    string, and the sort raises [TypeError]: this invocation is not a
    successful one. *)
Example search_feeds_undated_entry_raises (charref_sub : string -> string) :
  gathered charref_sub FeedRun.netloc_of FeedRun.date_parse FeedRun.isoformat
           FeedRun.fromisoformat FeedRun.exn_str FeedRun.http_get
           FeedRun.feedparser_parse FeedRun.config FeedRun.now ∅
           (Some "news") None
  = [FeedRun.dated_article charref_sub; FeedRun.undated_article charref_sub]
  /\ published_key (FeedRun.undated_article charref_sub) = None
  /\ (FeedRun.run charref_sub).2 = Raise TypeError.
Proof. repeat split; vm_compute; reflexivity. Qed.

(** The run above meets the conditions of
    [search_feeds_propagates_TypeError]. *)
Lemma search_feeds_propagates_TypeError_witness :
  (FeedRun.run (fun s => s)).2 = Raise TypeError.
Proof.
  unfold FeedRun.run.
  apply (search_feeds_propagates_TypeError _ _ _ _ _ _ _ _ _ _ _ _ _ _
           (FeedRun.undated_article (fun s => s))).
  - vm_compute. discriminate.
  - vm_compute. lia.
  - vm_compute. apply list_elem_of_In. simpl. right. left. reflexivity.
  - reflexivity.
Defined.

(* ===================================================================== *)
(** * tools.py: fetch_article                                              *)
(* ===================================================================== *)

(** [json.loads] of what [trafilatura.extract(..., output_format='json')]
    returns; [None] is a key that the dictionary does not have. *)
Record TrafJson : Type := mkTrafJson {
  tj_text : option string;
  tj_title : option string;
  tj_author : option string;
  tj_date : option string;
  tj_description : option string;
  tj_language : option string
}.

(** The [attrs] of a [soup.find('meta', attrs=...)]. *)
Inductive MetaAttr : Type :=
| ByName (name : string)
| ByProperty (property : string).

(** What the fallback reads off [Document(html)] and
    [BeautifulSoup(html)]. *)
Record Readable : Type := mkReadable {
  doc_title : string;
  title_tag_text : option string;
  find_meta : MetaAttr -> option (option string);
  summary_text : string
}.

(** [article_data] before the [update]. *)
Record ArticleData : Type := mkArticleData {
  ad_title : string;
  ad_text : string;
  ad_author : string;
  ad_published : string;
  ad_description : string;
  ad_url : string;
  ad_domain : string;
  ad_language : string;
  ad_word_count : nat;
  ad_extraction_method : string
}.

(** [article_data] after [update({'fetched_at': ..., 'success': True,
    'error': None})]: the dictionary written to the cache and returned. *)
Record FetchedArticle : Type := mkFetched {
  fa_data : ArticleData;
  fa_fetched_at : string
}.

(** An article cache file; the payload is the rest of the dictionary. *)
Abbreviation ArticleDoc := (CacheDoc FetchedArticle).

(** What [fetch_article] returns: [cached_data], the extracted article
    (with ['success': True]), or a failure dictionary (with ['success':
    False] and an error message). *)
Inductive FetchResult : Type :=
| Cached (cached_data : FetchedArticle)
| Extracted (article : FetchedArticle)
| Failed (error url fetched_at : string).

(** [result['success']] of a dictionary built by [fetch_article]. *)
Definition fr_success (r : FetchResult) : bool :=
  match r with
  | Extracted _ => true
  | Cached _ => true
  | Failed _ _ _ => false
  end.

Definition no_content_error : string :=
  "Failed to extract meaningful content from the article".

Section FetchArticle.

Variable charref_sub : string -> string.
Variable netloc_of : string -> option string.
Variable isoformat : DateTime -> string.
Variable fromisoformat : string -> option DateTime.
Variable exn_str : exn -> string.
Variable http_get : string -> HttpResult.
(** [trafilatura.extract(html, output_format='json', ..., url=url)]. *)
Variable trafilatura_extract : string -> string -> option string.
(** [json.loads]; [None] when it raises [JSONDecodeError]. *)
Variable json_loads : string -> option TrafJson.
(** [Document(html)], [BeautifulSoup(html)] and the reads on them; an
    exception of the libraries is a [Raise]. *)
Variable readability : string -> result Readable.

(** The primary stage: [article_data] after the Trafilatura block. *)
Definition primary_extraction (url html_content : string) : option ArticleData :=
  match trafilatura_extract html_content url with
  | None => None
  | Some "" => None
  | Some extracted_content =>
      match json_loads extracted_content with
      | None => None
      | Some content_json =>
          let text := default "" (tj_text content_json) in
          if (200 <? String.length text)%nat
          then
            Some {| ad_title := default "" (tj_title content_json);
                    ad_text := text;
                    ad_author := default "" (tj_author content_json);
                    ad_published := default "" (tj_date content_json);
                    ad_description := default "" (tj_description content_json);
                    ad_url := url;
                    ad_domain := extract_domain netloc_of url;
                    ad_language := default "" (tj_language content_json);
                    ad_word_count := List.length (Text.split_ws text);
                    ad_extraction_method := "trafilatura" |}
          else None
      end
  end.

(** [soup.find('meta', a) or soup.find('meta', b)], then
    [tag.get('content', '')] when a tag was found. *)
Definition meta_content (r : Readable) (a b : MetaAttr) : string :=
  let tag :=
    match find_meta r a with
    | Some t => Some t
    | None => find_meta r b
    end in
  match tag with
  | Some content => default "" content
  | None => ""
  end.

(** The fallback stage: the [article_data] of the Readability block. *)
Definition fallback_extraction (url : string) (r : Readable) : ArticleData :=
  let title :=
    if Str.is_empty (doc_title r)
    then match title_tag_text r with
         | Some t => Text.strip t
         | None => ""
         end
    else doc_title r in
  let author := meta_content r (ByName "author") (ByProperty "article:author") in
  let published :=
    meta_content r (ByProperty "article:published_time") (ByName "date") in
  let description :=
    meta_content r (ByName "description") (ByProperty "og:description") in
  let text_content := summary_text r in
  {| ad_title := clean_text charref_sub title;
     ad_text := clean_text charref_sub text_content;
     ad_author := clean_text charref_sub author;
     ad_published := published;
     ad_description := clean_text charref_sub description;
     ad_url := url;
     ad_domain := extract_domain netloc_of url;
     ad_language := "";
     ad_word_count := List.length (Text.split_ws text_content);
     ad_extraction_method := "readability" |}.

(** The path of the cache file of an article. *)
Definition article_cache_path (url : string) : string :=
  "article_" +:+ MD5.hexdigest url +:+ ".json".

(** The body of the outer [try], after the page is fetched:
    [article_data] at the final [if article_data:], or the exception that
    the outer [except] catches. *)
Definition extract_stages (url html_content : string) : result (option ArticleData) :=
  let article_data := primary_extraction url html_content in
  match article_data with
  | Some d => Return (Some d)
  | None =>
      match readability html_content with
      | Raise e => Raise e
      | Return r => Return (Some (fallback_extraction url r))
      end
  end.

(** tools.py, [fetch_article], for the clock reading [now] and the cache
    directory [cache]: the new cache directory, and the dictionary
    returned or the exception that leaves the function. *)
Definition fetch_article (config : Config) (now : Z)
    (cache : gmap string ArticleDoc) (url : string)
  : gmap string ArticleDoc * result FetchResult :=
  let url := normalize_url url in
  let cache_path := article_cache_path url in
  let fetched_at := isoformat (naive now) in
  match cache_read fromisoformat (fun d => Some d) now (cache_ttl config)
                   (cache !! cache_path) with
  | CacheHit cached_data => (cache, Return (Cached cached_data))
  | CacheRaise e => (cache, Raise e)
  | CacheMiss =>
      let failed (e : exn) :=
        (cache,
         Return (Failed ("Error fetching article: " +:+ exn_str e) url fetched_at)) in
      match http_get url with
      | HttpError e => failed e
      | HttpOk html_content =>
          match extract_stages url html_content with
          | Raise e => failed e
          | Return (Some article_data) =>
              let article := mkFetched article_data fetched_at in
              (<[cache_path := DocDict TsMissing article]> cache,
               Return (Extracted article))
          | Return None =>
              (cache, Return (Failed no_content_error url fetched_at))
          end
      end
  end.

Lemma clean_text_empty : clean_text charref_sub "" = "".
Proof. reflexivity. Qed.

(** The fallback stage always leaves a dictionary in [article_data]. *)
Lemma extract_stages_some url html_content r :
  extract_stages url html_content = Return r -> r <> None.
Proof.
  unfold extract_stages.
  destruct (primary_extraction url html_content); [intros [= <-]; discriminate|].
  destruct (readability html_content); intros [= <-]. discriminate.
Qed.

(** The failure that [fetch_article] keeps for an article without content
    is never returned. *)
Lemma fetch_article_never_no_content config now cache url u t :
  (fetch_article config now cache url).2 <> Return (Failed no_content_error u t).
Proof.
  unfold fetch_article.
  destruct (cache_read _ _ _ _ _); simpl; try discriminate.
  destruct (http_get _); simpl; [|discriminate].
  destruct (extract_stages _ content) as [[d|]|e] eqn:E; simpl; try discriminate.
  apply extract_stages_some in E. congruence.
Qed.

(** The cache check of [fetch_article] stands before its [try]: a cache
    file that holds valid JSON other than a dictionary makes the subscript
    raise [TypeError], and the exception leaves the function. *)
Lemma fetch_article_raises_on_non_dict_cache config now cache url :
  cache !! article_cache_path (normalize_url url) = Some DocNotDict ->
  fetch_article config now cache url = (cache, Raise TypeError).
Proof.
  intros Hfile. unfold fetch_article. cbv zeta. rewrite Hfile. reflexivity.
Qed.

(** C2. The page is fetched, the primary stage yields no article (the
    extractor returns nothing, or JSON that does not parse, or a text of
    200 characters or fewer) and the fallback extractor finds no text:
    [fetch_article] returns the article with the empty text, marked
    successful, and not the failure that the specification keeps for this
    case. *)
Theorem fetch_article_empty_text_successful
    (config : Config) (now : Z) (cache : gmap string ArticleDoc)
    (url html_content : string) (r : Readable) :
  cache !! article_cache_path (normalize_url url) = None ->
  http_get (normalize_url url) = HttpOk html_content ->
  primary_extraction (normalize_url url) html_content = None ->
  readability html_content = Return r ->
  summary_text r = "" ->
  exists article,
    (fetch_article config now cache url).2 = Return (Extracted article)
    /\ fr_success (Extracted article) = true
    /\ ad_text (fa_data article) = ""
    /\ ad_word_count (fa_data article) = 0%nat.
Proof.
  intros Hcache Hget Htraf Hread Htext.
  unfold fetch_article. cbv zeta. rewrite Hcache. simpl. rewrite Hget.
  unfold extract_stages. rewrite Htraf, Hread.
  eexists. split; [reflexivity|]. simpl. rewrite Htext. repeat split.
Qed.

(** C8. The dictionary that [fetch_article] writes to the cache has no
    ['timestamp'] key, so every later read of it, at whatever time, ends
    in the [KeyError] that is caught: a miss, and the article is fetched
    again. *)
Theorem fetch_article_cache_never_hits
    (config : Config) (now : Z) (cache cache' : gmap string ArticleDoc)
    (url : string) (article : FetchedArticle) :
  fetch_article config now cache url = (cache', Return (Extracted article)) ->
  cache' !! article_cache_path (normalize_url url)
  = Some (DocDict TsMissing article)
  /\ forall now' ttl,
       cache_read fromisoformat (fun d => Some d) now' ttl
                  (cache' !! article_cache_path (normalize_url url))
       = CacheMiss.
Proof.
  unfold fetch_article.
  destruct (cache_read _ _ _ _ _); simpl; try discriminate.
  destruct (http_get _); simpl; [|discriminate].
  destruct (extract_stages _ content) as [[d|]|e]; simpl; try discriminate.
  intros [= <- <-].
  rewrite lookup_insert_eq. split; [reflexivity|]. intros now' ttl. reflexivity.
Qed.

End FetchArticle.


(* ===================================================================== *)
(** * A run of fetch_article on two pages                                  *)
(* ===================================================================== *)

Module PageRun.

Definition empty_url : string := "https://news.example/empty".
Definition story_url : string := "https://news.example/story".

Definition empty_page : string := "<html><body></body></html>".
Definition story_page : string := "<html><body><p>Rates were cut.</p></body></html>".

Definition http_get (u : string) : HttpResult :=
  if String.eqb u empty_url then HttpOk empty_page
  else if String.eqb u story_url then HttpOk story_page
  else HttpError (RequestError "unreachable").

Definition trafilatura_extract (html u : string) : option string := None.

Definition json_loads (s : string) : option TrafJson := None.

Definition readability (html : string) : result Readable :=
  Return (mkReadable "" None (fun _ => None)
            (if String.eqb html story_page then "Rates were cut." else "")).

Definition netloc_of (u : string) : option string := Some "news.example".

Definition fetch (f : string -> string) :=
  fetch_article f netloc_of FeedRun.isoformat FeedRun.fromisoformat
                FeedRun.exn_str http_get trafilatura_extract json_loads
                readability FeedRun.config.

Definition story : FetchedArticle :=
  mkFetched
    (mkArticleData "" "Rates were cut." "" "" "" story_url "news.example" "" 3
                   "readability")
    "2024-01-02T00:00:00".

End PageRun.

(** The empty page meets the conditions of
    [fetch_article_empty_text_successful]. *)
Lemma fetch_article_empty_text_successful_witness :
  exists article,
    (PageRun.fetch (fun s => s) FeedRun.now ∅ PageRun.empty_url).2
    = Return (Extracted article)
    /\ fr_success (Extracted article) = true
    /\ ad_text (fa_data article) = ""
    /\ ad_word_count (fa_data article) = 0%nat.
Proof.
  unfold PageRun.fetch.
  apply (fetch_article_empty_text_successful _ _ _ _ _ _ _ _ _ _ _ _ _
           PageRun.empty_page (mkReadable "" None (fun _ => None) ""));
    reflexivity.
Defined.

(** The story page meets the conditions of
    [fetch_article_cache_never_hits]: a second call one second later
    misses the cache. *)
Lemma fetch_article_cache_never_hits_witness :
  (<[article_cache_path PageRun.story_url := DocDict TsMissing PageRun.story]>
     (∅ : gmap string ArticleDoc))
    !! article_cache_path (normalize_url PageRun.story_url)
  = Some (DocDict TsMissing PageRun.story)
  /\ forall now' ttl,
       cache_read FeedRun.fromisoformat (fun d => Some d) now' ttl
         ((<[article_cache_path PageRun.story_url :=
               DocDict TsMissing PageRun.story]>
             (∅ : gmap string ArticleDoc))
            !! article_cache_path (normalize_url PageRun.story_url))
       = CacheMiss.
Proof.
  apply (fetch_article_cache_never_hits (fun s => s) PageRun.netloc_of
           FeedRun.isoformat FeedRun.fromisoformat FeedRun.exn_str
           PageRun.http_get PageRun.trafilatura_extract PageRun.json_loads
           PageRun.readability FeedRun.config FeedRun.now ∅).
  reflexivity.
Defined.

(** Two calls for the same article, one second apart: the second call
    extracts the page again instead of returning the cached dictionary. *)
Example second_fetch_extracts_again (f : string -> string) :
  (PageRun.fetch f FeedRun.now ∅ PageRun.story_url).2
  = Return (Extracted PageRun.story)
  /\ (PageRun.fetch f (FeedRun.now + 1000000)
        (PageRun.fetch f FeedRun.now ∅ PageRun.story_url).1
        PageRun.story_url).2
     = Return (Extracted PageRun.story).
Proof. split; vm_compute; reflexivity. Qed.

(* ===================================================================== *)
(** * llm_client.py: LLMClient                                             *)
(* ===================================================================== *)

Module LLMClient.

(** A character of the class [[\d,\s]]. *)
Definition in_class (c : ascii) : bool :=
  Chr.is_digit c || Ascii.eqb c "," || Chr.is_space c.

(** The longest prefix of characters that satisfy [p], and the rest. *)
Fixpoint span (p : ascii -> bool) (s : string) : string * string :=
  match s with
  | EmptyString => (EmptyString, EmptyString)
  | String c t =>
      if p c then let '(run, rest) := span p t in (String c run, rest)
      else (EmptyString, s)
  end.

(** A match of [\[[\d,\s]+\]] at the head of [s]: what is between the
    brackets.  The class holds neither bracket, so the run is the longest
    one. *)
Definition array_here (s : string) : option string :=
  match s with
  | String "[" t =>
      match span in_class t with
      | (String c run, String "]" _) => Some (String c run)
      | _ => None
      end
  | _ => None
  end.

(** [re.search(r'\[[\d,\s]+\]', response)]: the leftmost match, as the
    text between its brackets. *)
Fixpoint search_array (s : string) : option string :=
  match array_here s with
  | Some inner => Some inner
  | None =>
      match s with
      | EmptyString => None
      | String _ t => search_array t
      end
  end.

(** White space of the JSON grammar: space, TAB, LF, CR. *)
Definition is_json_ws (c : ascii) : bool :=
  let n := Chr.code c in
  ((n =? 32) || (n =? 9) || (n =? 10) || (n =? 13))%N.

Fixpoint all_chars (p : ascii -> bool) (s : string) : bool :=
  match s with
  | EmptyString => true
  | String c t => p c && all_chars p t
  end.

Fixpoint lstrip_json (s : string) : string :=
  match s with
  | EmptyString => EmptyString
  | String c t => if is_json_ws c then lstrip_json t else s
  end.

Fixpoint rstrip_json (s : string) : string :=
  match s with
  | EmptyString => EmptyString
  | String c t =>
      let t' := rstrip_json t in
      if is_json_ws c && Str.is_empty t' then EmptyString else String c t'
  end.

(** [s.split(',')], with the piece being read in [cur], last character
    first. *)
Fixpoint split_commas (cur : list ascii) (s : string) : list string :=
  match s with
  | EmptyString => [string_of_list_ascii (rev cur)]
  | String c t =>
      if Ascii.eqb c "," then string_of_list_ascii (rev cur) :: split_commas [] t
      else split_commas (c :: cur) t
  end.

(** The value of a string of decimal digits. *)
Definition int_of_digits (s : string) : N :=
  fold_left (fun acc c => (10 * acc + (Chr.code c - 48))%N)
            (list_ascii_of_string s) 0%N.

(** [int(s)] for a string of decimal digits; [None] for the [ValueError]
    that more than 4300 digits raise ([sys.int_info.default_max_str_digits]). *)
Definition int (s : string) : option N :=
  if (4300 <? String.length s)%nat then None else Some (int_of_digits s).

(** A JSON number made of digits only: [0], or digits without a leading
    zero. *)
Definition json_int (s : string) : option N :=
  match s with
  | EmptyString => None
  | String c t =>
      if all_chars Chr.is_digit s && (Str.is_empty t || negb (Ascii.eqb c "0"))
      then int s else None
  end.

(** [json.loads('[' + inner + ']')] for [inner] of the class above: the
    list of integers, or [None] when it raises. *)
Definition json_loads_array (inner : string) : option (list N) :=
  if all_chars is_json_ws inner then Some []
  else
    mapM (fun piece => json_int (rstrip_json (lstrip_json piece)))
         (split_commas [] inner).

(** [\w] in a [str] pattern, for code points below 256. *)
Definition is_word (c : ascii) : bool :=
  let n := Chr.code c in
  ((48 <=? n) && (n <=? 57) || (65 <=? n) && (n <=? 90) || (n =? 95)
   || (97 <=? n) && (n <=? 122)
   || (n =? 170) || (n =? 178) || (n =? 179) || (n =? 181) || (n =? 185)
   || (n =? 186) || (188 <=? n) && (n <=? 190)
   || (192 <=? n) && (n <=? 214) || (216 <=? n) && (n <=? 246)
   || (248 <=? n))%N.

(** The maximal runs of word characters of [s]. *)
Fixpoint word_runs (cur : list ascii) (s : string) : list string :=
  let flush (r : list string) :=
    match cur with
    | [] => r
    | _ => string_of_list_ascii (rev cur) :: r
    end in
  match s with
  | EmptyString => flush []
  | String c t =>
      if is_word c then word_runs (c :: cur) t else flush (word_runs [] t)
  end.

(** [re.findall(r'\b\d+\b', response)]: a match starts and ends at a
    word boundary, so the matches are the word runs made of digits. *)
Definition findall_numbers (s : string) : list string :=
  List.filter (all_chars Chr.is_digit) (word_runs [] s).

(** llm_client.py, [LLMClient._parse_ranking_response]; [None] also
    stands for the exception that the method catches. *)
Definition _parse_ranking_response (response : string) : option (list N) :=
  match search_array response with
  | Some inner =>
      match json_loads_array inner with
      | None => None
      | Some indices => Some (firstn 5 indices)
      end
  | None =>
      match findall_numbers response with
      | [] => None
      | numbers => mapM int (firstn 5 numbers)
      end
  end.

(** llm_client.py, [LLMClient.is_available]. *)
Definition is_available (config : Config) : bool :=
  match api_key (llm_config config) with
  | Some (String _ _) => negb (Str.is_empty (provider (llm_config config)))
  | _ => false
  end.

(** A double quote. *)
Definition dquote : string := String (ascii_of_nat 34) EmptyString.

(** [s.endswith(p)]. *)
Definition endswith (p s : string) : bool :=
  Str.startswith (string_of_list_ascii (rev (list_ascii_of_string p)))
                 (string_of_list_ascii (rev (list_ascii_of_string s))).

Section Calls.

(** [self._call_llm(self._create_ranking_prompt(article_summaries,
    topic))] for the articles and the topic; [None] when the call fails
    or an exception is raised on the way. *)
Variable call_llm : list Article -> string -> option string.
(** [self._call_llm(self._create_summarization_prompt(articles))]. *)
Variable call_llm_summary : list Article -> option string.

(** [[articles[i] for i in ranked_indices if i < len(articles)]]. *)
Definition select (articles : list Article) (ranked_indices : list N)
  : list Article :=
  omap (fun i => articles !! N.to_nat i)
       (List.filter (fun i => (i <? N.of_nat (List.length articles))%N)
                    ranked_indices).

(** llm_client.py, [LLMClient.rank_articles]. *)
Definition rank_articles (config : Config) (articles : list Article)
    (topic : string) : option (list Article) :=
  if negb (is_available config) then None
  else
    match call_llm articles topic with
    | Some (String c r) =>
        match _parse_ranking_response (String c r) with
        | Some (i :: l) => Some (select articles (i :: l))
        | _ => None
        end
    | _ => None
    end.

(** llm_client.py, [LLMClient.summarize_articles]. *)
Definition summarize_articles (config : Config) (articles : list Article)
  : option string :=
  if negb (is_available config) then None
  else
    match call_llm_summary articles with
    | Some (String c r) =>
        let summary := Text.strip (String c r) in
        Some (if Str.startswith dquote summary && endswith dquote summary
              then Str.take (String.length summary - 2) (Str.drop 1 summary)
              else summary)
    | _ => None
    end.

End Calls.

End LLMClient.

Example parse_plain_array :
  LLMClient._parse_ranking_response "Here you go: [3, 1, 7, 2, 9, 4]" = Some [3; 1; 7; 2; 9]%N.
Proof. reflexivity. Qed.

Example parse_double_comma : LLMClient._parse_ranking_response "[1,,2]" = None.
Proof. reflexivity. Qed.

Example parse_leading_zero : LLMClient._parse_ranking_response "[01]" = None.
Proof. reflexivity. Qed.

Example parse_empty_array : LLMClient._parse_ranking_response "[ ]" = Some [].
Proof. reflexivity. Qed.

Example parse_no_number : LLMClient._parse_ranking_response "I cannot rank these." = None.
Proof. reflexivity. Qed.

Example parse_numbers_in_prose :
  LLMClient._parse_ranking_response "pick 3 and 12ab and x7 and 007" = Some [3; 7]%N.
Proof. reflexivity. Qed.

Example parse_empty_response : LLMClient._parse_ranking_response "" = None.
Proof. reflexivity. Qed.

(* ===================================================================== *)
(** * tools.py: rank_articles                                              *)
(* ===================================================================== *)

(** Scores are kept as exact rationals: the rounding of the floating-point
    operations is not part of the embedding, the overflow of [0.9 **
    days_old] is. *)

Local Open Scope Q_scope.

(** [x < y] on scores. *)
Definition Qltb (x y : Q) : bool := negb (Qle_bool y x).

(** [max(0, x)]. *)
Definition max0 (x : Q) : Q := if Qltb 0 x then x else 0.

(** [0.9 ** days_old] leaves the range of a [float] for [days_old] at or
    below -6737, with an [OverflowError]. *)
Definition pow_overflows (days_old : Z) : bool := (days_old <=? -6737)%Z.

Section RankArticles.

Variable date_parse : string -> option DateTime.
(** The ranker behind [LLMClient.rank_articles]. *)
Variable call_llm : list Article -> string -> option string.

(** The recency block: what it adds to the score.  Whatever is raised
    inside the [try] is swallowed and nothing is added. *)
Definition recency_score (now : Z) (item : Article) : Q :=
  match published item with
  | Value (String c s) =>
      match date_parse (String c s) with
      | None => 0
      | Some pub_date =>
          match since now pub_date with
          | Raise _ => 0
          | Return age =>
              let days_old := (age / micros_per_day)%Z in
              if pow_overflows days_old then 0
              else max0 (10 * (9 # 10) ^ days_old)
          end
      end
  | _ => 0
  end.

(** One iteration of a keyword loop that adds [w_title] and [w_summary]. *)
Definition keyword_step (title summary : string) (w_title w_summary : Q)
    (score : Q) (keyword : string) : Q :=
  let keyword_lower := Text.lower keyword in
  let score :=
    if Str.contains keyword_lower title then score + w_title else score in
  if Str.contains keyword_lower summary then score + w_summary else score.

(** [item.get('word_count', len(item.get('summary', '').split()))]. *)
Definition word_count_of (item : Article) : Z :=
  default (Z.of_nat (List.length (Text.split_ws (summary item))))
          (word_count item).

(** The body of [for item in items]: the score paired with the item. *)
Definition heuristic_score (config : Config) (now : Z) (topic : string)
    (item : Article) : Q :=
  let score := 0 in
  let score := score + recency_score now item in
  let domain_bonus := 2 in
  let score := score + domain_bonus in
  let title := Text.lower (title item) in
  let summary := Text.lower (summary item) in
  let topic_lower := Text.lower topic in
  let score := if Str.contains topic_lower title then score + 15 else score in
  let score := if Str.contains topic_lower summary then score + 10 else score in
  let score :=
    fold_left (keyword_step title summary 8 5)
              (keywords_boost (preferences config)) score in
  let score :=
    fold_left (keyword_step title summary (-20) (-10))
              (keywords_filter (preferences config)) score in
  let word_count := word_count_of item in
  if (200 <? word_count)%Z then score + 3
  else if (100 <? word_count)%Z then score + 1
  else score.

(** [top_candidates]: the items by descending score, the first 15. *)
Definition top_candidates (config : Config) (now : Z) (topic : string)
    (items : list Article) : list Article :=
  let scored_items :=
    map (fun item => (item, heuristic_score config now topic item)) items in
  map fst (firstn 15 (sort_desc Qltb snd scored_items)).

(** tools.py, [rank_articles]. *)
Definition rank_articles (config : Config) (now : Z) (items : list Article)
    (topic : string) : list Article :=
  match items with
  | [] => []
  | _ =>
      let top_candidates := top_candidates config now topic items in
      let reranked :=
        if LLMClient.is_available config
        then LLMClient.rank_articles call_llm config top_candidates topic
        else None in
      match reranked with
      | Some (a :: l) => firstn 5 (a :: l)
      | _ => firstn 5 top_candidates
      end
  end.


(** ** The heuristic score as a sum *)

(** How many keywords, lower-cased, occur in [text]. *)
Definition hits (keywords : list string) (text : string) : Q :=
  inject_Z
    (Z.of_nat
       (List.length
          (List.filter (fun k => Str.contains (Text.lower k) text) keywords))).

Lemma hits_cons k keywords text :
  hits (k :: keywords) text
  == (if Str.contains (Text.lower k) text then 1 else 0) + hits keywords text.
Proof.
  unfold hits. simpl List.filter.
  destruct (Str.contains (Text.lower k) text).
  - change (List.length (k :: ?l)) with (S (List.length l)).
    rewrite Nat2Z.inj_succ. unfold Z.succ. rewrite inject_Z_plus. ring.
  - ring.
Qed.

Lemma fold_keyword_step title summary w_title w_summary keywords score :
  fold_left (keyword_step title summary w_title w_summary) keywords score
  == score + w_title * hits keywords title + w_summary * hits keywords summary.
Proof.
  revert score. induction keywords as [|k t IH]; intros score; simpl fold_left.
  - unfold hits. simpl. ring.
  - rewrite IH, !hits_cons. unfold keyword_step.
    destruct (Str.contains (Text.lower k) title),
             (Str.contains (Text.lower k) summary); ring.
Qed.

(** The length bonus. *)
Definition length_bonus (item : Article) : Q :=
  if (200 <? word_count_of item)%Z then 3
  else if (100 <? word_count_of item)%Z then 1
  else 0.

(** The score is the sum of its parts, without any clamping. *)
Lemma heuristic_score_sum config now topic item :
  heuristic_score config now topic item
  == recency_score now item + 2
     + (if Str.contains (Text.lower topic) (Text.lower (title item))
        then 15 else 0)
     + (if Str.contains (Text.lower topic) (Text.lower (summary item))
        then 10 else 0)
     + 8 * hits (keywords_boost (preferences config)) (Text.lower (title item))
     + 5 * hits (keywords_boost (preferences config)) (Text.lower (summary item))
     - 20 * hits (keywords_filter (preferences config)) (Text.lower (title item))
     - 10 * hits (keywords_filter (preferences config)) (Text.lower (summary item))
     + length_bonus item.
Proof.
  unfold heuristic_score, length_bonus. cbv zeta.
  set (s2 := fold_left _ (keywords_filter _) _).
  assert (Hs2 : s2 == recency_score now item + 2
     + (if Str.contains (Text.lower topic) (Text.lower (title item))
        then 15 else 0)
     + (if Str.contains (Text.lower topic) (Text.lower (summary item))
        then 10 else 0)
     + 8 * hits (keywords_boost (preferences config)) (Text.lower (title item))
     + 5 * hits (keywords_boost (preferences config)) (Text.lower (summary item))
     - 20 * hits (keywords_filter (preferences config)) (Text.lower (title item))
     - 10 * hits (keywords_filter (preferences config)) (Text.lower (summary item))).
  { subst s2. rewrite !fold_keyword_step.
    destruct (Str.contains (Text.lower topic) (Text.lower (title item))),
             (Str.contains (Text.lower topic) (Text.lower (summary item))); ring. }
  destruct (200 <? word_count_of item)%Z; [rewrite Hs2; ring|].
  destruct (100 <? word_count_of item)%Z; rewrite Hs2; ring.
Qed.

(** [item] with another value under ['published']. *)
Definition with_published (p : slot string) (item : Article) : Article :=
  {| title := title item; url := url item; summary := summary item;
     published := p; author := author item; source := source item;
     source_url := source_url item; domain := domain item;
     tags := tags item; fetched_at := fetched_at item;
     word_count := word_count item |}.

(** C5. A publish date that parses to a timezone-aware [datetime] adds
    nothing to the score: subtracting it from the naive [datetime.now()]
    raises [TypeError] inside the [try], so the article scores as if it
    had no date, whatever its age. *)
Theorem aware_date_scores_as_undated
    (config : Config) (now : Z) (topic : string) (item : Article)
    (c : ascii) (s : string) (pub_date : DateTime) (offset : Z) :
  published item = Value (String c s) ->
  date_parse (String c s) = Some pub_date ->
  utcoffset pub_date = Some offset ->
  recency_score now item = 0
  /\ heuristic_score config now topic item
     = heuristic_score config now topic (with_published PyNone item).
Proof.
  intros Hpub Hparse Haware.
  assert (Hrec : recency_score now item = 0).
  { unfold recency_score, since. rewrite Hpub, Hparse, Haware. reflexivity. }
  split; [exact Hrec|].
  unfold heuristic_score. rewrite Hrec. reflexivity.
Qed.

(** ** The refinement stage *)

(** The indices of the ranker's response that point into the candidates;
    none when the ranker is unavailable, did not answer, or its answer did
    not parse. *)
Definition usable_indices (config : Config) (candidates : list Article)
    (topic : string) : list N :=
  if LLMClient.is_available config then
    match call_llm candidates topic with
    | Some response =>
        match LLMClient._parse_ranking_response response with
        | Some ranked_indices =>
            List.filter (fun i => (i <? N.of_nat (List.length candidates))%N)
                        ranked_indices
        | None => []
        end
    | None => []
    end
  else [].

Lemma filter_in_range (articles : list Article) (indices : list N) :
  Forall (fun i => (N.to_nat i < List.length articles)%nat)
         (List.filter (fun i => (i <? N.of_nat (List.length articles))%N) indices).
Proof.
  apply Forall_forall. intros i Hi. apply list_elem_of_In, filter_In in Hi as [_ Hi].
  apply N.ltb_lt in Hi. lia.
Qed.

Lemma omap_lookup_length (articles : list Article) (indices : list N) :
  Forall (fun i => (N.to_nat i < List.length articles)%nat) indices ->
  List.length (omap (fun i => articles !! N.to_nat i) indices)
  = List.length indices.
Proof.
  induction 1 as [|i l Hi _ IH]; [reflexivity|]. simpl.
  destruct (lookup_lt_is_Some_2 articles (N.to_nat i) Hi) as [a ->].
  simpl. f_equal. exact IH.
Qed.

Lemma select_length (articles : list Article) (indices : list N) :
  List.length (LLMClient.select articles indices)
  = List.length
      (List.filter (fun i => (i <? N.of_nat (List.length articles))%N) indices).
Proof. apply omap_lookup_length, filter_in_range. Qed.

(** Every index that the refinement uses points into the candidate list
    (the others are dropped, and each one used yields its article); a
    response for which the parser returns nothing leaves the heuristic
    order; and the result is the first five of the selected articles when
    at least one usable index came back, the first five of the heuristic
    order otherwise. *)
Lemma rank_articles_by_usable
    (config : Config) (now : Z) (items : list Article) (topic : string) :
  let candidates := top_candidates config now topic items in
  let usable := usable_indices config candidates topic in
  let refined := omap (fun i => candidates !! N.to_nat i) usable in
  Forall (fun i => (N.to_nat i < List.length candidates)%nat) usable
  /\ List.length refined = List.length usable
  /\ (forall response,
         call_llm candidates topic = Some response ->
         LLMClient._parse_ranking_response response = None ->
         rank_articles config now items topic = firstn 5 candidates)
  /\ rank_articles config now items topic
     = match usable with
       | [] => firstn 5 candidates
       | _ => firstn 5 refined
       end.
Proof.
  intros candidates usable refined.
  assert (Hrange : Forall (fun i => (N.to_nat i < List.length candidates)%nat) usable).
  { subst usable. unfold usable_indices.
    destruct (LLMClient.is_available config); [|constructor].
    destruct (call_llm candidates topic) as [response|]; [|constructor].
    destruct (LLMClient._parse_ranking_response response); [|constructor].
    apply filter_in_range. }
  assert (Hlen : List.length refined = List.length usable)
    by (apply omap_lookup_length, Hrange).
  assert (Hmain : rank_articles config now items topic
     = match usable with
       | [] => firstn 5 candidates
       | _ => firstn 5 refined
       end).
  { unfold rank_articles. destruct items as [|item rest].
    - assert (Hu : usable = []).
      { destruct usable as [|i l] eqn:Eu; [reflexivity|].
        apply Forall_cons in Hrange as [Hi _]. simpl in Hi. lia. }
      rewrite Hu. reflexivity.
    - fold candidates. subst refined usable. unfold usable_indices, LLMClient.rank_articles in *.
      destruct (LLMClient.is_available config); simpl; [|reflexivity].
      destruct (call_llm candidates topic) as [[|c r]|]; simpl; try reflexivity.
      destruct (LLMClient._parse_ranking_response (String c r)) as [[|i l]|];
        try reflexivity.
      fold (LLMClient.select candidates (i :: l)).
      pose proof (select_length candidates (i :: l)) as Hsel.
      unfold LLMClient.select in *.
      destruct (List.filter _ (i :: l)) as [|j js] eqn:Ef.
      + simpl. reflexivity.
      + destruct (omap _ (j :: js)) as [|a l'] eqn:Eo; [discriminate Hsel|].
        reflexivity. }
  repeat split; try assumption.
  intros response Hcall Hparse. rewrite Hmain.
  subst usable. unfold usable_indices.
  destruct (LLMClient.is_available config); [|reflexivity].
  rewrite Hcall, Hparse. reflexivity.
Qed.

End RankArticles.

(* ===================================================================== *)
(** * A run of the scorer on a dated article                               *)
(* ===================================================================== *)

Module RankRun.

Definition date_parse (s : string) : option DateTime :=
  if String.eqb s "2024-01-01T10:00:00+00:00"
  then Some (mkDateTime FeedRun.new_year_10h (Some 0%Z))
  else if String.eqb s "2024-01-01T10:00:00"
  then Some (naive FeedRun.new_year_10h)
  else None.

(** The article as [search_feeds] dates it, with the UTC offset. *)
Definition aware_item : Article :=
  with_published (Value "2024-01-01T10:00:00+00:00") (stub "Alpha" "https://site.example/1").

(** The same article with a date that carries no offset. *)
Definition naive_item : Article :=
  with_published (Value "2024-01-01T10:00:00") (stub "Alpha" "https://site.example/1").

End RankRun.

(** Fourteen hours after publication the article is zero days old: with a
    naive date it scores 10 + 2, with an aware date 2. *)
Example naive_item_score :
  heuristic_score RankRun.date_parse FeedRun.config FeedRun.now "markets"
                  RankRun.naive_item == 12.
Proof. vm_compute. reflexivity. Qed.

Example aware_item_score :
  heuristic_score RankRun.date_parse FeedRun.config FeedRun.now "markets"
                  RankRun.aware_item == 2.
Proof. vm_compute. reflexivity. Qed.

(** [RankRun.aware_item] meets the conditions of
    [aware_date_scores_as_undated]. *)
Lemma aware_date_scores_as_undated_witness :
  recency_score RankRun.date_parse FeedRun.now RankRun.aware_item = 0
  /\ heuristic_score RankRun.date_parse FeedRun.config FeedRun.now "markets"
                     RankRun.aware_item
     = heuristic_score RankRun.date_parse FeedRun.config FeedRun.now "markets"
                       (with_published PyNone RankRun.aware_item).
Proof.
  apply (aware_date_scores_as_undated RankRun.date_parse FeedRun.config
           FeedRun.now "markets" RankRun.aware_item "2"
           "024-01-01T10:00:00+00:00"
           (mkDateTime FeedRun.new_year_10h (Some 0%Z)) 0%Z);
    reflexivity.
Defined.

Local Close Scope Q_scope.

(* ===================================================================== *)
(** * tools.py: summarize_collection                                       *)
(* ===================================================================== *)

(** A line feed. *)
Definition nl : string := String (ascii_of_nat 10) EmptyString.

(** [sep.join(l)]. *)
Fixpoint join (sep : string) (l : list string) : string :=
  match l with
  | [] => ""
  | [x] => x
  | x :: t => x +:+ sep +:+ join sep t
  end.

Lemma append_empty_r (s : string) : s +:+ "" = s.
Proof.
  induction s as [|c t IH]; [reflexivity|].
  change (String c (t +:+ "") = String c t). f_equal. exact IH.
Qed.

(** [str(n)] for a length. *)
Definition str_of_nat (n : nat) : string :=
  NilZero.string_of_uint (Nat.to_uint n).

(** What [summarize_collection] returns. *)
Inductive SummaryResult : Type :=
| NoArticles (error : string)
| LLMSummary (summary : string) (article_count : nat) (timestamp : string)
| HeuristicSummary (summary : string) (bullet_points key_numbers : list string)
                   (sources : list string) (date_range : list string)
                   (article_count : nat) (timestamp : string).

Section SummarizeCollection.

Variable date_parse : string -> option DateTime.
Variable isoformat : DateTime -> string.
(** [d.strftime("%B %d, %Y")]. *)
Variable strftime_date : DateTime -> string.
(** [list(s)] for the [set] built from the elements of a list, in the
    order of insertion: the iteration order of the set. *)
Variable set_order : list string -> list string.
(** [re.findall(r'\b\d+(?:,\d{3})*(?:\.\d+)?\b', text)]. *)
Variable findall_figures : string -> list string.
(** The prefix of a bullet point; its characters are outside the code
    points that the embedding writes down. *)
Variable bullet : string.
(** The summarizer behind [LLMClient.summarize_articles]. *)
Variable call_llm_summary : list Article -> option string.

(** The [dates] list after the loop over [collection[:10]]: the formatted
    date of every article whose ['published'] is a non-empty string that
    parses. *)
Definition collect_dates (collection : list Article) : list string :=
  omap
    (fun article =>
       match published article with
       | Value (String c s) =>
           option_map strftime_date (date_parse (String c s))
       | _ => None
       end)
    (firstn 10 collection).

(** The text that the [if dates:] block appends to [summary_text]. *)
Definition coverage_line (dates : list string) : string :=
  match dates with
  | [] => ""
  | _ =>
      let unique_dates := set_order dates in
      match unique_dates with
      | [] => ""
      | first :: _ =>
          nl +:+ nl +:+ "Coverage from: " +:+ first
          +:+ (if (1 <? List.length unique_dates)%nat
               then " to " +:+ List.last unique_dates ""
               else "")
      end
  end.

Definition collect_bullets (collection : list Article) : list string :=
  omap
    (fun article =>
       if Str.is_empty (title article) then None
       else Some (bullet +:+ title article))
    (firstn 10 collection).

(** The members of [sources], in the order of their insertion. *)
Definition collect_sources (collection : list Article) : list string :=
  omap
    (fun article =>
       let source :=
         match source article with
         | Some s => s
         | None => default "" (domain article)
         end in
       if Str.is_empty source then None else Some source)
    (firstn 10 collection).

Definition collect_figures (collection : list Article) : list string :=
  flat_map
    (fun article =>
       List.filter (fun num => (2 <? String.length num)%nat)
         (firstn 3 (findall_figures (title article +:+ " " +:+ summary article))))
    (firstn 10 collection).

(** [summary_text] of the heuristic fallback. *)
Definition heuristic_summary_text (collection : list Article) : string :=
  let bullet_points := collect_bullets collection in
  let key_numbers := collect_figures collection in
  let dates := collect_dates collection in
  let sources := collect_sources collection in
  "Daily News Summary - " +:+ str_of_nat (List.length collection) +:+ " articles"
  +:+ (match sources with
       | [] => ""
       | _ => nl +:+ nl +:+ "Sources: " +:+ join ", " (firstn 5 (set_order sources))
       end)
  +:+ coverage_line dates
  +:+ nl +:+ nl +:+ "Top Stories:"
  +:+ nl +:+ join nl (firstn 10 bullet_points)
  +:+ (match key_numbers with
       | [] => ""
       | _ => nl +:+ nl +:+ "Key figures mentioned: " +:+ join ", " (firstn 5 key_numbers)
       end).

(** tools.py, [summarize_collection]. *)
Definition summarize_collection (config : Config) (now : Z)
    (collection : list Article) : SummaryResult :=
  match collection with
  | [] => NoArticles "No articles provided for summarization"
  | _ =>
      let llm :=
        if LLMClient.is_available config
        then LLMClient.summarize_articles call_llm_summary config collection
        else None in
      match llm with
      | Some (String c r) =>
          LLMSummary (String c r) (List.length collection) (isoformat (naive now))
      | _ =>
          HeuristicSummary
            (heuristic_summary_text collection)
            (firstn 10 (collect_bullets collection))
            (firstn 5 (collect_figures collection))
            (match collect_sources collection with
             | [] => []
             | l => set_order l
             end)
            (collect_dates collection)
            (List.length collection)
            (isoformat (naive now))
      end
  end.

(** C9 (as amended). When the iteration order of a set lists each member
    once, the date-range line shows the first member of [list(set(dates))]
    and, when there are two or more, the last one: two different members
    of the collected date strings, in the order of the set, which is not
    an order of time.  A single unique date is shown alone. *)
Theorem coverage_line_first_and_last (collection : list Article) :
  (forall l, NoDup (set_order l)) ->
  (forall l x, x ∈ set_order l <-> x ∈ l) ->
  let dates := collect_dates collection in
  match set_order dates with
  | [] => dates = [] /\ coverage_line dates = ""
  | [d] =>
      d ∈ dates
      /\ coverage_line dates = nl +:+ nl +:+ "Coverage from: " +:+ d
  | d :: rest =>
      d ∈ dates /\ List.last rest "" ∈ dates /\ d <> List.last rest ""
      /\ coverage_line dates
         = nl +:+ nl +:+ "Coverage from: " +:+ d +:+ " to " +:+ List.last rest ""
  end.
Proof.
  intros Hnodup Hmem dates. unfold coverage_line.
  destruct (set_order dates) as [|d rest] eqn:Eorder.
  - assert (Hd : dates = []).
    { destruct dates as [|x l]; [reflexivity|].
      assert (Hx : x ∈ set_order (x :: l)) by (apply Hmem; left).
      rewrite Eorder in Hx. inversion Hx. }
    split; [exact Hd|]. rewrite Hd. reflexivity.
  - assert (Hin : forall x, x ∈ d :: rest -> x ∈ dates)
      by (intros x Hx; apply Hmem; rewrite Eorder; exact Hx).
    assert (Hne : dates <> []).
    { intros E. specialize (Hin d ltac:(left)). rewrite E in Hin. inversion Hin. }
    destruct dates as [|x l]; [congruence|].
    destruct rest as [|e rest'].
    + split; [apply Hin; left|]. simpl.
      rewrite append_empty_r. reflexivity.
    + assert (Hlast : List.last (e :: rest') "" ∈ e :: rest').
      { apply list_elem_of_In.
        destruct (exists_last (l := e :: rest') ltac:(discriminate)) as (l' & z & ->).
        rewrite last_last. apply in_or_app. right. left. reflexivity. }
      split; [apply Hin; left|].
      split; [apply Hin; right; exact Hlast|].
      split.
      * intros E. specialize (Hnodup (x :: l)). rewrite Eorder in Hnodup.
        apply NoDup_cons in Hnodup as [Hnot _]. apply Hnot. rewrite E. exact Hlast.
      * reflexivity.
Qed.

End SummarizeCollection.

(* ===================================================================== *)
(** * A run of the summarizer on two dated articles                        *)
(* ===================================================================== *)

Module SummaryRun.

(** 1 and 2 January 2024, 09:00:00, as microseconds since 1 January 1970. *)
Definition jan_1 : Z := 1704099600000000.
Definition jan_2 : Z := 1704186000000000.

Definition date_parse (s : string) : option DateTime :=
  if String.eqb s "2024-01-01T09:00:00" then Some (naive jan_1)
  else if String.eqb s "2024-01-02T09:00:00" then Some (naive jan_2)
  else None.

Definition strftime_date (d : DateTime) : string :=
  if (wall d <? jan_2)%Z then "January 01, 2024" else "January 02, 2024".

(** An iteration order: each member once, at its last insertion. *)
Definition set_order (l : list string) : list string := remove_dups l.

Definition later : Article :=
  with_published (Value "2024-01-02T09:00:00") (stub "Rates cut" "https://a.example/1").

Definition earlier : Article :=
  with_published (Value "2024-01-01T09:00:00") (stub "Rates held" "https://a.example/2").

Definition collection : list Article := [later; earlier].

End SummaryRun.

(** C9 (as stated) fails. With the article of 2 January ahead of the one
    of 1 January, and a set that is iterated in the order of insertion,
    the line reads from the later date to the earlier one, by the clock
    and by the order of the strings alike. *)
Lemma coverage_line_later_date_first :
  collect_dates SummaryRun.date_parse SummaryRun.strftime_date
                SummaryRun.collection
  = ["January 02, 2024"; "January 01, 2024"]
  /\ coverage_line SummaryRun.set_order
       (collect_dates SummaryRun.date_parse SummaryRun.strftime_date
                      SummaryRun.collection)
     = nl +:+ nl +:+ "Coverage from: January 02, 2024 to January 01, 2024"
  /\ (SummaryRun.jan_1 < SummaryRun.jan_2)%Z
  /\ String.ltb "January 01, 2024" "January 02, 2024" = true.
Proof. repeat split; vm_compute; reflexivity. Qed.

(** The run above meets the conditions of [coverage_line_first_and_last]. *)
Lemma coverage_line_first_and_last_witness :
  let dates :=
    collect_dates SummaryRun.date_parse SummaryRun.strftime_date
                  SummaryRun.collection in
  match SummaryRun.set_order dates with
  | [] => dates = [] /\ coverage_line SummaryRun.set_order dates = ""
  | [d] =>
      d ∈ dates
      /\ coverage_line SummaryRun.set_order dates
         = nl +:+ nl +:+ "Coverage from: " +:+ d
  | d :: rest =>
      d ∈ dates /\ List.last rest "" ∈ dates /\ d <> List.last rest ""
      /\ coverage_line SummaryRun.set_order dates
         = nl +:+ nl +:+ "Coverage from: " +:+ d +:+ " to " +:+ List.last rest ""
  end.
Proof.
  apply (coverage_line_first_and_last SummaryRun.date_parse
           SummaryRun.strftime_date SummaryRun.set_order SummaryRun.collection).
  - intros l. apply NoDup_remove_dups.
  - intros l x. apply elem_of_remove_dups.
Defined.

(* ===================================================================== *)
(** * Further runs                                                         *)
(* ===================================================================== *)

(** [long_title_never_similar] at the titles of the specification's
    example: with [breaking_other] kept, the similarity test does not
    fire for [breaking_extra]. *)
Lemma long_title_never_similar_witness :
  existsb
    (similar_to (normalized_title_of (fun s => s) breaking_extra))
    (recorded_hashes (fun s => s) [breaking_other])
  = false.
Proof.
  apply (long_title_never_similar (fun s => s) [breaking_other]).
  vm_compute. lia.
Defined.

Definition undated_a : Article :=
  with_published Missing (stub "Undated a" "https://site.example/a").

Definition undated_b : Article :=
  with_published Missing (stub "Undated b" "https://site.example/b").

Definition dated_c : Article :=
  with_published (Value "2024-01-01T10:00:00") (stub "Dated c" "https://site.example/c").

(** [fetch_article_raises_on_non_dict_cache] at a cache file that holds a
    JSON list. *)
Lemma fetch_article_raises_on_non_dict_cache_witness :
  PageRun.fetch (fun s => s) FeedRun.now
    {[article_cache_path PageRun.story_url := DocNotDict]} PageRun.story_url
  = ({[article_cache_path PageRun.story_url := DocNotDict]}, Raise TypeError).
Proof.
  apply (fetch_article_raises_on_non_dict_cache (fun s => s) PageRun.netloc_of
           FeedRun.isoformat FeedRun.fromisoformat FeedRun.exn_str
           PageRun.http_get PageRun.trafilatura_extract PageRun.json_loads
           PageRun.readability FeedRun.config FeedRun.now).
  apply lookup_singleton_eq.
Defined.

(** [undated_sort_last] at three articles: the dated one moves to the
    front and the two without the key follow in their original order. *)
Lemma undated_sort_last_witness :
  Forall (fun y => date_key y = "") [undated_b].
Proof.
  apply (undated_sort_last [undated_a; dated_c; undated_b] [dated_c] [undated_b]
           undated_a); reflexivity.
Defined.

(** [feed_step_then_hit] at the feed of [FeedRun]: one second after the
    fetch the feed is read from the cache. *)
Lemma feed_step_then_hit_witness :
  cache_read FeedRun.fromisoformat
    (fun articles : option (list Article) =>
       option_map
         (fun l => slice_to l (max_articles_per_feed (preferences FeedRun.config)))
         articles)
    (FeedRun.now + 1000000) (cache_ttl FeedRun.config)
    (fl_cache
       (feed_step (fun s => s) FeedRun.netloc_of FeedRun.date_parse
          FeedRun.isoformat FeedRun.fromisoformat FeedRun.exn_str
          FeedRun.http_get FeedRun.feedparser_parse FeedRun.config FeedRun.now
          (mkFeedLoop ∅ [] []) FeedRun.feed_url)
     !! feed_cache_path FeedRun.feed_url)
  = CacheHit
      (slice_to
         (feed_articles_of (fun s => s) FeedRun.netloc_of FeedRun.date_parse
            FeedRun.isoformat FeedRun.config FeedRun.now FeedRun.feed_url
            (FeedRun.feedparser_parse "<rss/>"))
         (max_articles_per_feed (preferences FeedRun.config))).
Proof.
  apply (feed_step_then_hit (fun s => s) FeedRun.netloc_of FeedRun.date_parse
           FeedRun.isoformat FeedRun.fromisoformat FeedRun.exn_str
           FeedRun.http_get FeedRun.feedparser_parse FeedRun.config
           FeedRun.now (FeedRun.now + 1000000) (mkFeedLoop ∅ [] [])
           FeedRun.feed_url "<rss/>");
    reflexivity.
Defined.

(* ===================================================================== *)
(** * More about normalize_url and deduplicate_articles                    *)
(* ===================================================================== *)

(** [s[-1]], when there is one. *)
Fixpoint last_char (s : string) : option ascii :=
  match s with
  | EmptyString => None
  | String a EmptyString => Some a
  | String _ t => last_char t
  end.

Lemma last_char_cons a t :
  last_char (String a t) = match t with EmptyString => Some a | _ => last_char t end.
Proof. destruct t; reflexivity. Qed.

Lemma last_char_rstrip c s : last_char (Str.rstrip c s) <> Some c.
Proof.
  induction s as [|a t IH]; simpl; [discriminate|].
  destruct (Ascii.eqb a c) eqn:Eac; simpl.
  - destruct (Str.rstrip c t) as [|b r] eqn:Et; simpl; [discriminate|].
    exact IH.
  - destruct (Str.rstrip c t) as [|b r] eqn:Et; simpl.
    + intros [= ->]. rewrite Ascii.eqb_refl in Eac. discriminate.
    + exact IH.
Qed.

(** A normalized URL never ends with a slash, and it is empty only for the
    empty input. *)
Theorem normalize_url_no_trailing_slash (u : string) :
  last_char (normalize_url u) <> Some "/"%char
  /\ (normalize_url u = "" <-> u = "").
Proof.
  split.
  - destruct u as [|a t]; [discriminate|].
    rewrite normalize_url_nonempty by discriminate. apply last_char_rstrip.
  - split; [|intros ->; reflexivity].
    intros H. destruct u as [|a t]; [reflexivity|].
    destruct (normalize_url_h (String a t)) as [w Hw]; [discriminate|]. congruence.
Qed.

Section DeduplicateMore.

Variable charref_sub : string -> string.

(** What the loop appends to [kept] while it reads [l]. *)
Fixpoint accepted (kept l : list Article) : list Article :=
  match l with
  | [] => []
  | a :: t =>
      if url_seen kept a || title_suppressed charref_sub kept a
      then accepted kept t
      else a :: accepted (kept ++ [a]) t
  end.

Lemma dedup_from_accepted kept l :
  dedup_from charref_sub kept l = kept ++ accepted kept l.
Proof.
  revert kept. induction l as [|a t IH]; intros kept; simpl.
  - rewrite app_nil_r. reflexivity.
  - rewrite IH. unfold after.
    destruct (url_seen kept a || title_suppressed charref_sub kept a);
      [reflexivity|].
    rewrite <- app_assoc. reflexivity.
Qed.

Lemma accepted_accepted kept l :
  accepted kept (accepted kept l) = accepted kept l.
Proof.
  revert kept. induction l as [|a t IH]; intros kept; simpl; [reflexivity|].
  destruct (url_seen kept a || title_suppressed charref_sub kept a) eqn:E.
  - apply IH.
  - simpl. rewrite E, IH. reflexivity.
Qed.

(** Deduplicating a deduplicated list changes nothing. *)
Theorem deduplicate_articles_idempotent (l : list Article) :
  deduplicate_articles charref_sub (deduplicate_articles charref_sub l)
  = deduplicate_articles charref_sub l.
Proof.
  rewrite !deduplicate_articles_dedup_from, !dedup_from_accepted. simpl.
  apply accepted_accepted.
Qed.

(** Of two articles with the same non-empty normalized URL only the first
    survives. *)
Theorem deduplicate_same_url (a b : Article) :
  normalized_url_of a = normalized_url_of b ->
  normalized_url_of a <> "" ->
  deduplicate_articles charref_sub [a; b] = [a].
Proof.
  intros Heq Hne. rewrite deduplicate_articles_dedup_from. simpl.
  assert (Ha : after charref_sub [] a = [a]).
  { unfold after, url_seen, title_suppressed. simpl.
    rewrite andb_false_r. reflexivity. }
  rewrite Ha. unfold after.
  replace (url_seen [a] b) with true; [reflexivity|].
  symmetry. unfold url_seen, nonempty_urls. simpl.
  rewrite <- Heq. apply Str.is_empty_false in Hne. rewrite Hne. simpl.
  apply bool_decide_eq_true. left.
Qed.

End DeduplicateMore.

(** [deduplicate_same_url] at two articles that differ in title and in the
    trailing slash of the URL. *)
Lemma deduplicate_same_url_witness :
  deduplicate_articles (fun s => s)
    [stub "Rates cut" "example.com/rates/"; stub "Central bank acts" "https://example.com/rates"]
  = [stub "Rates cut" "example.com/rates/"].
Proof.
  apply (deduplicate_same_url (fun s => s)); [reflexivity|discriminate].
Defined.

(* ===================================================================== *)
(** * More about clean_text                                                *)
(* ===================================================================== *)

Module Chars.

(** Every character of [s] satisfies [p]. *)
Fixpoint all (p : ascii -> bool) (s : string) : bool :=
  match s with
  | EmptyString => true
  | String c t => p c && all p t
  end.

Lemma all_impl (p q : ascii -> bool) s :
  (forall c, p c = true -> q c = true) -> all p s = true -> all q s = true.
Proof.
  intros Hpq. induction s as [|c t IH]; simpl; [reflexivity|].
  rewrite !andb_true_iff. intros [Hc Ht]. split; [apply Hpq, Hc|apply IH, Ht].
Qed.

Lemma all_and (p q : ascii -> bool) s :
  all p s = true -> all q s = true -> all (fun c => p c && q c) s = true.
Proof.
  induction s as [|c t IH]; simpl; [reflexivity|].
  rewrite !andb_true_iff. intros [Hp Hpt] [Hq Hqt]. repeat split; auto.
Qed.

Lemma all_app (p : ascii -> bool) s1 s2 :
  all p (s1 +:+ s2) = all p s1 && all p s2.
Proof.
  induction s1 as [|c t IH]; [reflexivity|].
  change (String c t +:+ s2) with (String c (t +:+ s2)). simpl.
  rewrite IH, andb_assoc. reflexivity.
Qed.

Lemma all_filter (p keep : ascii -> bool) s :
  all p s = true -> all p (Text.filter keep s) = true.
Proof.
  induction s as [|c t IH]; simpl; [reflexivity|].
  rewrite andb_true_iff. intros [Hc Ht].
  destruct (keep c); simpl; [rewrite Hc|]; apply IH, Ht.
Qed.

Lemma all_filter_keep (keep : ascii -> bool) s :
  all keep (Text.filter keep s) = true.
Proof.
  induction s as [|c t IH]; simpl; [reflexivity|].
  destruct (keep c) eqn:E; simpl; [rewrite E|]; exact IH.
Qed.

Lemma filter_all_id (keep : ascii -> bool) s :
  all keep s = true -> Text.filter keep s = s.
Proof.
  induction s as [|c t IH]; simpl; [reflexivity|].
  rewrite andb_true_iff. intros [Hc Ht]. rewrite Hc, IH by exact Ht. reflexivity.
Qed.

Lemma all_take (p : ascii -> bool) n s :
  all p s = true -> all p (Str.take n s) = true.
Proof.
  revert n. induction s as [|c t IH]; intros [|n]; simpl; try reflexivity.
  rewrite !andb_true_iff. intros [Hc Ht]. split; [exact Hc|apply IH, Ht].
Qed.

Lemma all_drop (p : ascii -> bool) n s :
  all p s = true -> all p (Str.drop n s) = true.
Proof.
  revert n. induction s as [|c t IH]; intros [|n]; simpl; try reflexivity.
  - intros H. exact H.
  - rewrite andb_true_iff. intros [_ Ht]. apply IH, Ht.
Qed.

(** [Str.mem c s] says that not every character differs from [c]. *)
Lemma mem_false_all (c : ascii) s :
  Str.mem c s = false <-> all (fun a => negb (Ascii.eqb a c)) s = true.
Proof.
  induction s as [|a t IH]; simpl; [tauto|].
  rewrite orb_false_iff, andb_true_iff, negb_true_iff, IH. tauto.
Qed.

End Chars.

(** A character that [clean_text] may leave: not of category C, and no
    white space but the space itself. *)
Definition clean_char (c : ascii) : bool :=
  negb (Chr.is_category_C c) && (negb (Chr.is_space c) || Ascii.eqb c " ").

(** The test of the generator in [clean_text]. *)
Definition kept_char (c : ascii) : bool :=
  negb (Chr.is_category_C c) || Chr.is_nl_cr_tab c.

(** No white space but the space itself. *)
Definition plain_space (c : ascii) : bool :=
  negb (Chr.is_space c) || Ascii.eqb c " ".

Lemma kept_plain_clean (c : ascii) :
  kept_char c && plain_space c = true -> clean_char c = true.
Proof.
  destruct c as [[] [] [] [] [] [] [] []]; vm_compute; intros H;
    first [reflexivity | discriminate H].
Qed.

Lemma space_is_space : Chr.is_space " " = true.
Proof. reflexivity. Qed.

Lemma all_plain_collapse (b : bool) s :
  Chars.all plain_space (Text.collapse_ws b s) = true.
Proof.
  revert b. induction s as [|c t IH]; intros b; simpl; [reflexivity|].
  destruct (Chr.is_space c) eqn:E.
  - destruct b; simpl; apply IH.
  - simpl. unfold plain_space at 1. rewrite E. simpl. apply IH.
Qed.

Lemma all_lstrip (p : ascii -> bool) s :
  Chars.all p s = true -> Chars.all p (Text.lstrip s) = true.
Proof.
  induction s as [|c t IH]; simpl; [reflexivity|].
  intros H. destruct (Chr.is_space c); [|exact H].
  apply andb_true_iff in H as [_ H]. apply IH, H.
Qed.

Lemma all_rstrip (p : ascii -> bool) s :
  Chars.all p s = true -> Chars.all p (Text.rstrip s) = true.
Proof.
  induction s as [|c t IH]; simpl; [reflexivity|].
  rewrite andb_true_iff. intros [Hc Ht].
  destruct (Chr.is_space c && Str.is_empty (Text.rstrip t)); simpl; [reflexivity|].
  rewrite Hc. apply IH, Ht.
Qed.

(** Collapsing keeps a property of characters that the space has. *)
Lemma all_collapse (p : ascii -> bool) (b : bool) s :
  p " "%char = true ->
  Chars.all p s = true -> Chars.all p (Text.collapse_ws b s) = true.
Proof.
  intros Hsp. revert b. induction s as [|c t IH]; intros b; simpl; [reflexivity|].
  rewrite andb_true_iff. intros [Hc Ht].
  destruct (Chr.is_space c).
  - destruct b; simpl; [|rewrite Hsp]; apply IH, Ht.
  - simpl. rewrite Hc. apply IH, Ht.
Qed.

Section CleanTextFacts.

Variable charref_sub : string -> string.

(** The text before [html.unescape]. *)
Definition scrubbed (text : string) : string :=
  Text.filter kept_char (Text.collapse_ws false (Text.strip text)).

Lemma clean_text_scrubbed text :
  Str.mem "&" text = false ->
  clean_text charref_sub text = scrubbed text.
Proof.
  intros Hamp. unfold clean_text, scrubbed.
  destruct text as [|c t]; [reflexivity|]. simpl Str.is_empty. cbv iota.
  fold kept_char. unfold html_unescape.
  replace (Str.mem "&" _) with false; [reflexivity|].
  symmetry. apply Chars.mem_false_all. apply Chars.all_filter.
  apply all_collapse; [reflexivity|].
  apply all_rstrip, all_lstrip. apply Chars.mem_false_all, Hamp.
Qed.

Lemma scrubbed_clean text : Chars.all clean_char (scrubbed text) = true.
Proof.
  unfold scrubbed.
  apply (Chars.all_impl (fun c => kept_char c && plain_space c));
    [exact kept_plain_clean|].
  apply Chars.all_and.
  - apply Chars.all_filter_keep.
  - apply Chars.all_filter, all_plain_collapse.
Qed.

(** In a text without [&], what [clean_text] returns holds no control or
    format character and no white space other than the space. *)
Theorem clean_text_characters (text : string) :
  Str.mem "&" text = false ->
  Chars.all clean_char (clean_text charref_sub text) = true.
Proof.
  intros Hamp. rewrite (clean_text_scrubbed _ Hamp). apply scrubbed_clean.
Qed.

End CleanTextFacts.

(** [clean_text_characters] at a title with tabs, line feeds and a
    control character. *)
Lemma clean_text_characters_witness :
  Chars.all clean_char
    (clean_text (fun s => s)
       (String (ascii_of_nat 9) ("Rates" +:+ String (ascii_of_nat 10)
          (String (ascii_of_nat 0) " cut  today "))))
  = true.
Proof. apply (clean_text_characters (fun s => s)). reflexivity. Defined.

(** ** When cleaning twice is cleaning once *)

(** [s] continues a text after a character that was a space ([after_space])
    or was not: no white space but single spaces, none of them last. *)
Fixpoint tidy (after_space : bool) (s : string) : bool :=
  match s with
  | EmptyString => negb after_space
  | String c t =>
      if Ascii.eqb c " " then negb after_space && tidy true t
      else negb (Chr.is_space c) && tidy false t
  end.

(** [s] does not end in white space; for the empty [s], the character
    before it was none ([b] is false). *)
Definition ends_well (b : bool) (s : string) : Prop :=
  match last_char s with
  | None => b = false
  | Some c => Chr.is_space c = false
  end.

Lemma eqb_space_is_space c : Ascii.eqb c " " = true -> Chr.is_space c = true.
Proof. intros H. apply Ascii.eqb_eq in H. subst. reflexivity. Qed.

Lemma last_char_some d r : exists c, last_char (String d r) = Some c.
Proof.
  revert d. induction r as [|e r IH]; intros d; [exists d; reflexivity|].
  destruct (IH e) as [c Hc]. exists c. rewrite last_char_cons. exact Hc.
Qed.

Lemma ends_well_tail b c t :
  ends_well b (String c t) -> ends_well (Chr.is_space c) t.
Proof.
  unfold ends_well. rewrite last_char_cons.
  destruct t as [|d r]; [simpl; tauto|].
  destruct (last_char_some d r) as [e ->]. tauto.
Qed.

Lemma tidy_collapse (b : bool) (s : string) :
  ends_well b s -> tidy b (Text.collapse_ws b s) = true.
Proof.
  revert b. induction s as [|c t IH]; intros b H.
  - unfold ends_well in H. simpl in *. subst b. reflexivity.
  - pose proof (ends_well_tail _ _ _ H) as Ht. simpl.
    destruct (Chr.is_space c) eqn:E.
    + destruct b; [apply IH, Ht|]. simpl. apply IH, Ht.
    + simpl. destruct (Ascii.eqb c " ") eqn:Esp.
      * apply eqb_space_is_space in Esp. congruence.
      * rewrite E. simpl. apply IH, Ht.
Qed.

Lemma last_char_rstrip_ws s c :
  last_char (Text.rstrip s) = Some c -> Chr.is_space c = false.
Proof.
  induction s as [|a t IH]; simpl; [discriminate|].
  destruct (Text.rstrip t) as [|b r] eqn:Et.
  - simpl. destruct (Chr.is_space a) eqn:E; simpl; [discriminate|].
    intros [= <-]. exact E.
  - rewrite andb_false_r. rewrite last_char_cons. exact IH.
Qed.

Lemma ends_well_strip s : ends_well false (Text.strip s).
Proof.
  unfold ends_well, Text.strip.
  destruct (last_char _) eqn:E; [|reflexivity].
  eapply last_char_rstrip_ws, E.
Qed.

Lemma lstrip_head s :
  match Text.lstrip s with
  | EmptyString => True
  | String c _ => Chr.is_space c = false
  end.
Proof.
  induction s as [|a t IH]; simpl; [exact I|].
  destruct (Chr.is_space a) eqn:E; [exact IH|exact E].
Qed.

Lemma rstrip_head s :
  match s with
  | EmptyString => True
  | String c _ => Chr.is_space c = false
  end ->
  match Text.rstrip s with
  | EmptyString => True
  | String c _ => Chr.is_space c = false
  end.
Proof.
  destruct s as [|a t]; simpl; [tauto|]. intros E. rewrite E. simpl. exact E.
Qed.

Lemma strip_head s :
  match Text.strip s with
  | EmptyString => True
  | String c _ => Chr.is_space c = false
  end.
Proof. apply rstrip_head, lstrip_head. Qed.

(** A tidy text is what stripping and collapsing leave alone. *)
Lemma tidy_lstrip c t :
  tidy true (String c t) = true -> Text.lstrip (String c t) = String c t.
Proof.
  simpl. destruct (Ascii.eqb c " "); [discriminate|].
  rewrite andb_true_iff, negb_true_iff. intros [-> _]. reflexivity.
Qed.

Lemma tidy_rstrip b s :
  tidy b s = true -> Text.rstrip s = s /\ (s = "" -> b = false).
Proof.
  revert b. induction s as [|c t IH]; intros b; simpl.
  - rewrite negb_true_iff. intros ->. split; [reflexivity|reflexivity].
  - intros H. split; [|discriminate].
    destruct (Ascii.eqb c " ") eqn:Esp.
    + apply andb_true_iff in H as [_ H]. destruct (IH _ H) as [-> Hne].
      destruct t; [specialize (Hne eq_refl); discriminate|].
      rewrite andb_false_r. reflexivity.
    + apply andb_true_iff in H as [Hc H]. apply negb_true_iff in Hc.
      destruct (IH _ H) as [-> _]. rewrite Hc. reflexivity.
Qed.

Lemma tidy_collapse_id b s :
  tidy b s = true -> Text.collapse_ws b s = s.
Proof.
  revert b. induction s as [|c t IH]; intros b; simpl; [reflexivity|].
  destruct (Ascii.eqb c " ") eqn:Esp.
  - rewrite (eqb_space_is_space _ Esp). apply Ascii.eqb_eq in Esp. subst c.
    rewrite andb_true_iff, negb_true_iff. intros [-> H].
    rewrite (IH _ H). reflexivity.
  - rewrite andb_true_iff, negb_true_iff. intros [-> H].
    rewrite (IH _ H). reflexivity.
Qed.

Lemma tidy_true_false c t :
  Chr.is_space c = false -> tidy false (String c t) = tidy true (String c t).
Proof.
  intros E. simpl. destruct (Ascii.eqb c " ") eqn:Esp; [|reflexivity].
  apply eqb_space_is_space in Esp. congruence.
Qed.

Section CleanTextIdempotent.

Variable charref_sub : string -> string.

(** Every character of category C in [text] is white space. *)
Definition controls_are_space (text : string) : bool :=
  Chars.all (fun c => negb (Chr.is_category_C c) || Chr.is_space c) text.

Lemma kept_of_plain c :
  (negb (Chr.is_category_C c) || Chr.is_space c) && plain_space c = true ->
  kept_char c = true.
Proof.
  destruct c as [[] [] [] [] [] [] [] []]; vm_compute; intros H;
    first [reflexivity | discriminate H].
Qed.

Lemma scrubbed_no_controls text :
  controls_are_space text = true ->
  scrubbed text = Text.collapse_ws false (Text.strip text).
Proof.
  intros Hc. unfold scrubbed. apply Chars.filter_all_id.
  apply (Chars.all_impl
           (fun c => (negb (Chr.is_category_C c) || Chr.is_space c) && plain_space c));
    [exact kept_of_plain|].
  apply Chars.all_and; [|apply all_plain_collapse].
  apply all_collapse; [reflexivity|]. apply all_rstrip, all_lstrip, Hc.
Qed.

Lemma collapsed_tidy text :
  match Text.collapse_ws false (Text.strip text) with
  | EmptyString => True
  | String c t => tidy true (String c t) = true
  end.
Proof.
  pose proof (tidy_collapse false _ (ends_well_strip text)) as Htidy.
  pose proof (strip_head text) as Hhead.
  destruct (Text.strip text) as [|a r]; [exact I|].
  cbn [Text.collapse_ws] in *. rewrite Hhead in *.
  rewrite <- tidy_true_false by exact Hhead. exact Htidy.
Qed.

Lemma clean_tidy c t :
  tidy true (String c t) = true ->
  Text.collapse_ws false (Text.strip (String c t)) = String c t.
Proof.
  intros H. unfold Text.strip. rewrite (tidy_lstrip _ _ H).
  destruct (tidy_rstrip _ _ H) as [-> _].
  apply tidy_collapse_id. rewrite tidy_true_false; [exact H|].
  simpl in H. destruct (Ascii.eqb c " "); [discriminate|].
  apply andb_true_iff in H as [H _]. apply negb_true_iff, H.
Qed.

(** For a text without [&] whose control characters are all white space,
    cleaning the cleaned text returns it unchanged. *)
Theorem clean_text_idempotent (text : string) :
  Str.mem "&" text = false ->
  controls_are_space text = true ->
  clean_text charref_sub (clean_text charref_sub text)
  = clean_text charref_sub text.
Proof.
  intros Hamp Hc.
  assert (Hamp' : Str.mem "&" (clean_text charref_sub text) = false).
  { rewrite (clean_text_scrubbed _ _ Hamp). unfold scrubbed.
    apply Chars.mem_false_all. apply Chars.all_filter.
    apply all_collapse; [reflexivity|].
    apply all_rstrip, all_lstrip. apply Chars.mem_false_all, Hamp. }
  assert (Hc' : controls_are_space (clean_text charref_sub text) = true).
  { unfold controls_are_space.
    apply (Chars.all_impl clean_char);
      [|rewrite (clean_text_scrubbed _ _ Hamp); apply scrubbed_clean].
    intros c H. unfold clean_char in H. apply andb_true_iff in H as [-> _].
    reflexivity. }
  rewrite (clean_text_scrubbed _ _ Hamp'), (scrubbed_no_controls _ Hc').
  rewrite (clean_text_scrubbed _ _ Hamp), (scrubbed_no_controls _ Hc).
  pose proof (collapsed_tidy text) as Htidy.
  destruct (Text.collapse_ws false (Text.strip text)) as [|c t]; [reflexivity|].
  apply clean_tidy, Htidy.
Qed.

End CleanTextIdempotent.

(** [clean_text_idempotent] at a title with runs of mixed white space. *)
Lemma clean_text_idempotent_witness :
  clean_text (fun s => s)
    (clean_text (fun s => s)
       (String (ascii_of_nat 9) ("Rates" +:+ String (ascii_of_nat 10) "  cut  today ")))
  = clean_text (fun s => s)
      (String (ascii_of_nat 9) ("Rates" +:+ String (ascii_of_nat 10) "  cut  today ")).
Proof. apply (clean_text_idempotent (fun s => s)); reflexivity. Defined.

(** A control character between two spaces is removed after the runs of
    white space were collapsed, so two spaces stay and a second cleaning
    changes the text. *)
Example clean_text_not_idempotent (f : string -> string) :
  clean_text f ("a " +:+ String (ascii_of_nat 0) " b") = "a  b"
  /\ clean_text f "a  b" = "a b".
Proof. split; reflexivity. Qed.

(* ===================================================================== *)
(** * More string operations                                               *)
(* ===================================================================== *)

Module Py.

(** [s[:n]] for an [int] [n]: a negative [n] counts from the end. *)
Definition slice_to (s : string) (n : Z) : string :=
  if (0 <=? n)%Z then Str.take (Z.to_nat n) s
  else Str.take (Z.to_nat (Z.of_nat (String.length s) + n)) s.

(** [s.lstrip(c)] for a one-character argument. *)
Fixpoint lstrip (c : ascii) (s : string) : string :=
  match s with
  | EmptyString => EmptyString
  | String a t => if Ascii.eqb a c then lstrip c t else s
  end.

(** [s.strip(c)] for a one-character argument. *)
Definition strip (c : ascii) (s : string) : string :=
  Str.rstrip c (lstrip c s).

(** The parts of [s] around its last [c]; [None] when [c] is not in [s]. *)
Fixpoint rpartition (c : ascii) (s : string) : option (string * string) :=
  match s with
  | EmptyString => None
  | String a t =>
      match rpartition c t with
      | Some (before, after) => Some (String a before, after)
      | None => if Ascii.eqb a c then Some (EmptyString, t) else None
      end
  end.

(** [s.rsplit(c, 1)[0]]. *)
Definition rsplit_head (c : ascii) (s : string) : string :=
  match rpartition c s with
  | Some (before, _) => before
  | None => s
  end.

(** [s.rfind(c)]: the index of the last [c], or -1. *)
Definition rfind (c : ascii) (s : string) : Z :=
  match rpartition c s with
  | Some (before, _) => Z.of_nat (String.length before)
  | None => (-1)%Z
  end.

(** The first character of [s]. *)
Definition first_char (s : string) : option ascii :=
  match s with
  | EmptyString => None
  | String a _ => Some a
  end.

(** No two neighbours of [s] are both [c]. *)
Fixpoint no_double (c : ascii) (s : string) : bool :=
  match s with
  | EmptyString => true
  | String a t =>
      negb (Ascii.eqb a c && match t with
                             | String b _ => Ascii.eqb b c
                             | EmptyString => false
                             end)
      && no_double c t
  end.

Lemma length_take_le n s : (String.length (Str.take n s) <= n)%nat.
Proof. rewrite length_take. lia. Qed.

Lemma length_take_le_s n s : (String.length (Str.take n s) <= String.length s)%nat.
Proof. rewrite length_take. lia. Qed.

Lemma length_slice_to_le s n : (String.length (slice_to s n) <= String.length s)%nat.
Proof. unfold slice_to. destruct (0 <=? n)%Z; apply length_take_le_s. Qed.

Lemma length_slice_to s n :
  (0 <= n)%Z -> (Z.of_nat (String.length (slice_to s n)) <= n)%Z.
Proof.
  intros H. unfold slice_to. apply Z.leb_le in H as Hb. rewrite Hb.
  pose proof (length_take_le (Z.to_nat n) s). lia.
Qed.

Lemma all_slice_to p s n : Chars.all p s = true -> Chars.all p (slice_to s n) = true.
Proof. unfold slice_to. destruct (0 <=? n)%Z; apply Chars.all_take. Qed.

Lemma prefix_take n s : String.prefix (Str.take n s) s = true.
Proof.
  revert n. induction s as [|a t IH]; intros [|n]; simpl; try reflexivity.
  destruct (ascii_dec a a); [apply IH|congruence].
Qed.

Lemma prefix_slice_to s n : String.prefix (slice_to s n) s = true.
Proof. unfold slice_to. destruct (0 <=? n)%Z; apply prefix_take. Qed.

Lemma prefix_trans a b c :
  String.prefix a b = true -> String.prefix b c = true -> String.prefix a c = true.
Proof.
  revert b c. induction a as [|x a IH]; intros [|y b] [|z c]; simpl;
    try reflexivity; try discriminate.
  destruct (ascii_dec x y) as [->|]; [|discriminate].
  destruct (ascii_dec y z) as [->|]; [|discriminate].
  destruct (ascii_dec z z); [|congruence]. apply IH.
Qed.

Lemma rpartition_spec c s before after :
  rpartition c s = Some (before, after) ->
  s = before +:+ String c after /\ Str.mem c after = false.
Proof.
  revert before after. induction s as [|a t IH]; intros before after; simpl;
    [discriminate|].
  destruct (rpartition c t) as [[b' a']|] eqn:E.
  - intros [= <- <-]. destruct (IH _ _ eq_refl) as [-> Hm].
    split; [reflexivity|exact Hm].
  - destruct (Ascii.eqb a c) eqn:Eac; [|discriminate].
    intros [= <- <-]. apply Ascii.eqb_eq in Eac. subst a.
    split; [reflexivity|].
    clear IH. induction t as [|x t IHt]; [reflexivity|]. simpl in *.
    destruct (rpartition c t) as [[? ?]|]; [discriminate|].
    destruct (Ascii.eqb x c); [discriminate|]. simpl. apply IHt. reflexivity.
Qed.

Lemma rpartition_none c s : rpartition c s = None -> Str.mem c s = false.
Proof.
  induction s as [|a t IH]; simpl; [reflexivity|].
  destruct (rpartition c t) as [[? ?]|]; [discriminate|].
  destruct (Ascii.eqb a c); [discriminate|]. intros _. apply IH. reflexivity.
Qed.

Lemma prefix_app a b : String.prefix a (a +:+ b) = true.
Proof.
  induction a as [|x a IH]; [destruct b; reflexivity|].
  change (String x a +:+ b) with (String x (a +:+ b)). simpl.
  destruct (ascii_dec x x); [exact IH|congruence].
Qed.

Lemma prefix_rsplit_head c s : String.prefix (rsplit_head c s) s = true.
Proof.
  unfold rsplit_head. destruct (rpartition c s) as [[before after]|] eqn:E.
  - apply rpartition_spec in E as [-> _]. apply prefix_app.
  - replace s with (s +:+ "") at 2 by apply append_empty_r. apply prefix_app.
Qed.

Lemma prefix_all p a s :
  String.prefix a s = true -> Chars.all p s = true -> Chars.all p a = true.
Proof.
  revert s. induction a as [|x a IH]; intros [|y s]; simpl; try reflexivity;
    try discriminate.
  destruct (ascii_dec x y) as [->|]; [|discriminate].
  rewrite !andb_true_iff. intros Hp [Hy Hs]. split; [exact Hy|eapply IH; eassumption].
Qed.

Lemma prefix_no_double c a s :
  String.prefix a s = true -> no_double c s = true -> no_double c a = true.
Proof.
  revert s. induction a as [|x a IH]; intros [|y s]; simpl; try reflexivity;
    try discriminate.
  destruct (ascii_dec x y) as [->|]; [|discriminate].
  rewrite !andb_true_iff. intros Hp [Hy Hs]. split; [|eapply IH; eassumption].
  destruct a as [|x' a]; [rewrite andb_false_r; reflexivity|].
  destruct s as [|y' s]; [discriminate Hp|]. simpl in Hp.
  destruct (ascii_dec x' y') as [->|]; [exact Hy|discriminate].
Qed.

Lemma all_lstrip_char p c s : Chars.all p s = true -> Chars.all p (lstrip c s) = true.
Proof.
  induction s as [|a t IH]; simpl; [reflexivity|]. intros H.
  destruct (Ascii.eqb a c); [|exact H].
  apply andb_true_iff in H as [_ H]. apply IH, H.
Qed.

Lemma all_rstrip_char p c s : Chars.all p s = true -> Chars.all p (Str.rstrip c s) = true.
Proof.
  induction s as [|a t IH]; simpl; [reflexivity|].
  rewrite andb_true_iff. intros [Ha Ht].
  destruct (Ascii.eqb a c && Str.is_empty (Str.rstrip c t)); simpl; [reflexivity|].
  rewrite Ha. apply IH, Ht.
Qed.

Lemma no_double_tail c a t : no_double c (String a t) = true -> no_double c t = true.
Proof. simpl. rewrite andb_true_iff. tauto. Qed.

Lemma no_double_lstrip c s : no_double c s = true -> no_double c (lstrip c s) = true.
Proof.
  induction s as [|a t IH]; [reflexivity|]. intros H.
  simpl lstrip. destruct (Ascii.eqb a c); [|exact H].
  apply IH, (no_double_tail _ _ _ H).
Qed.

Lemma prefix_rstrip c s : String.prefix (Str.rstrip c s) s = true.
Proof.
  induction s as [|a t IH]; simpl; [reflexivity|].
  destruct (Ascii.eqb a c && Str.is_empty (Str.rstrip c t)); simpl; [reflexivity|].
  destruct (ascii_dec a a); [exact IH|congruence].
Qed.

Lemma length_lstrip c s : (String.length (lstrip c s) <= String.length s)%nat.
Proof.
  induction s as [|a t IH]; simpl; [lia|].
  destruct (Ascii.eqb a c); simpl; lia.
Qed.

Lemma length_strip c s : (String.length (strip c s) <= String.length s)%nat.
Proof.
  unfold strip.
  pose proof (Str.prefix_length _ _ (prefix_rstrip c (lstrip c s))).
  pose proof (length_lstrip c s). lia.
Qed.

Lemma first_char_lstrip c s : first_char (lstrip c s) <> Some c.
Proof.
  induction s as [|a t IH]; simpl; [discriminate|].
  destruct (Ascii.eqb a c) eqn:E; [exact IH|].
  simpl. intros [= ->]. rewrite Ascii.eqb_refl in E. discriminate.
Qed.

Lemma first_char_rstrip c s :
  first_char s <> Some c -> first_char (Str.rstrip c s) <> Some c.
Proof.
  destruct s as [|a t]; simpl; [discriminate|]. intros H.
  destruct (Ascii.eqb a c && Str.is_empty (Str.rstrip c t)); simpl; [discriminate|].
  exact H.
Qed.

(** A stripped text neither starts nor ends with the stripped character. *)
Lemma strip_ends c s :
  first_char (strip c s) <> Some c /\ last_char (strip c s) <> Some c.
Proof.
  split.
  - apply first_char_rstrip, first_char_lstrip.
  - apply last_char_rstrip.
Qed.

End Py.

(* ===================================================================== *)
(** * utils.py: generate_filename                                          *)
(* ===================================================================== *)

(** The class of the first [re.sub]: the angle brackets, the colon, the
    double quote, both slashes, the bar, the question mark and the star. *)
Definition is_unsafe (c : ascii) : bool :=
  Ascii.eqb c "<" || Ascii.eqb c ">" || Ascii.eqb c ":"
  || Ascii.eqb c (ascii_of_nat 34) || Ascii.eqb c "/" || Ascii.eqb c "\"
  || Ascii.eqb c "|" || Ascii.eqb c "?" || Ascii.eqb c "*".

(** The class [[\w\s-]], whose complement the second [re.sub] deletes. *)
Definition word_space_hyphen (c : ascii) : bool :=
  LLMClient.is_word c || Chr.is_space c || Ascii.eqb c "-".

(** The class [[-\s]]. *)
Definition hyphen_or_space (c : ascii) : bool :=
  Ascii.eqb c "-" || Chr.is_space c.

(** [re.sub(r'[-\s]+', '-', s)]; [in_run] says that the previous
    character was of the class, already replaced. *)
Fixpoint collapse_hyphens (in_run : bool) (s : string) : string :=
  match s with
  | EmptyString => EmptyString
  | String a t =>
      if hyphen_or_space a
      then if in_run then collapse_hyphens true t
           else String "-" (collapse_hyphens true t)
      else String a (collapse_hyphens false t)
  end.

Section GenerateFilename.

Variable charref_sub : string -> string.

(** [datetime.now().strftime('%Y%m%d-%H%M%S')]. *)
Variable now_stamp : string.

(** utils.py, [generate_filename]. *)
Definition generate_filename (title : string) (max_length : Z) : string :=
  let filename := clean_text charref_sub title in
  let filename := Text.filter (fun c => negb (is_unsafe c)) filename in
  let filename := Text.filter word_space_hyphen filename in
  let filename := collapse_hyphens false filename in
  let filename :=
    if (max_length <? Z.of_nat (String.length filename))%Z
    then Py.rsplit_head "-" (Py.slice_to filename max_length)
    else filename in
  let filename := Py.strip "-" filename in
  if Str.is_empty filename then "news-" +:+ now_stamp else filename.

End GenerateFilename.

Example generate_filename_example (f : string -> string) (stamp : string) :
  generate_filename f stamp "Breaking: Markets Crash!!" 50 = "Breaking-Markets-Crash"
  /\ generate_filename f stamp "aaa bbb ccc" 7 = "aaa"
  /\ generate_filename f stamp ("a_b - c  d" +:+ String (ascii_of_nat 9) "e") 50 = "a_b-c-d-e"
  /\ generate_filename f stamp "ab cd" (-1) = "ab"
  /\ generate_filename f stamp "?!" 50 = "news-" +:+ stamp.
Proof. repeat split; reflexivity. Qed.

(** A character of a generated name: of [\w], or the hyphen. *)
Definition filename_char (c : ascii) : bool :=
  LLMClient.is_word c || Ascii.eqb c "-".

Lemma first_char_collapse_hyphens s :
  Py.first_char (collapse_hyphens true s) <> Some "-"%char.
Proof.
  induction s as [|a t IH]; simpl; [discriminate|].
  destruct (hyphen_or_space a) eqn:E; [exact IH|].
  simpl. intros [= ->]. discriminate E.
Qed.

Lemma no_double_collapse_hyphens b s :
  Py.no_double "-" (collapse_hyphens b s) = true.
Proof.
  revert b. induction s as [|a t IH]; intros b; [reflexivity|].
  simpl collapse_hyphens. destruct (hyphen_or_space a) eqn:E.
  - destruct b; [apply IH|].
    simpl. rewrite IH, andb_true_r.
    pose proof (first_char_collapse_hyphens t) as Hf.
    destruct (collapse_hyphens true t) as [|x r]; [reflexivity|].
    simpl in Hf. destruct (Ascii.eqb x "-") eqn:Ex; [|reflexivity].
    apply Ascii.eqb_eq in Ex. subst x. congruence.
  - simpl. rewrite IH, andb_true_r.
    unfold hyphen_or_space in E. apply orb_false_iff in E as [E _].
    rewrite E. reflexivity.
Qed.

Lemma all_collapse_hyphens b s :
  Chars.all word_space_hyphen s = true ->
  Chars.all filename_char (collapse_hyphens b s) = true.
Proof.
  revert b. induction s as [|a t IH]; intros b; simpl; [reflexivity|].
  rewrite andb_true_iff. intros [Ha Ht].
  destruct (hyphen_or_space a) eqn:E.
  - destruct b; [apply IH, Ht|].
    change (filename_char "-" && Chars.all filename_char (collapse_hyphens true t) = true).
    rewrite IH by exact Ht. reflexivity.
  - simpl. rewrite IH by exact Ht. rewrite andb_true_r.
    unfold hyphen_or_space in E. apply orb_false_iff in E as [E1 E2].
    unfold word_space_hyphen in Ha. rewrite E1, E2, !orb_false_r in Ha.
    unfold filename_char. rewrite Ha. reflexivity.
Qed.

Lemma strip_prefix_lstrip c s : String.prefix (Py.strip c s) (Py.lstrip c s) = true.
Proof. apply Py.prefix_rstrip. Qed.

Lemma nonempty_of_is_empty s : Str.is_empty s = false -> s <> "".
Proof. destruct s; [discriminate|]. intros _. discriminate. Qed.

Section GenerateFilenameFacts.

Variable charref_sub : string -> string.
Variable now_stamp : string.

(** The name before the truncation. *)
Definition hyphenated (title : string) : string :=
  collapse_hyphens false
    (Text.filter word_space_hyphen
       (Text.filter (fun c => negb (is_unsafe c)) (clean_text charref_sub title))).

(** The name after the truncation. *)
Definition cut_name (title : string) (max_length : Z) : string :=
  if (max_length <? Z.of_nat (String.length (hyphenated title)))%Z
  then Py.rsplit_head "-" (Py.slice_to (hyphenated title) max_length)
  else hyphenated title.

Lemma generate_filename_cut title max_length :
  generate_filename charref_sub now_stamp title max_length =
  if Str.is_empty (Py.strip "-" (cut_name title max_length))
  then "news-" +:+ now_stamp
  else Py.strip "-" (cut_name title max_length).
Proof. reflexivity. Qed.

Lemma cut_name_is_prefix title max_length :
  String.prefix (cut_name title max_length) (hyphenated title) = true.
Proof.
  unfold cut_name. destruct (_ <? _)%Z.
  - eapply Py.prefix_trans; [apply Py.prefix_rsplit_head|apply Py.prefix_slice_to].
  - replace (hyphenated title) with (hyphenated title +:+ "") at 2
      by apply append_empty_r.
    apply Py.prefix_app.
Qed.

Lemma cut_name_length title max_length :
  (0 <= max_length)%Z ->
  (Z.of_nat (String.length (cut_name title max_length)) <= max_length)%Z.
Proof.
  intros H0. unfold cut_name. destruct (_ <? _)%Z eqn:E.
  - pose proof (Str.prefix_length _ _
      (Py.prefix_rsplit_head "-" (Py.slice_to (hyphenated title) max_length))).
    pose proof (Py.length_slice_to (hyphenated title) max_length H0). lia.
  - apply Z.ltb_ge in E. exact E.
Qed.

(** Whatever the title and the length asked for, the generated name is
    not empty, and unless it is the dated fall-back [news-<stamp>] it is
    made of [\w] characters and single hyphens, neither starts nor ends
    with a hyphen, and has at most [max_length] characters when
    [max_length] is not negative. *)
Theorem generate_filename_shape (title : string) (max_length : Z) :
  let name := generate_filename charref_sub now_stamp title max_length in
  name <> ""
  /\ (name = "news-" +:+ now_stamp
      \/ (Chars.all filename_char name = true
          /\ Py.no_double "-" name = true
          /\ Py.first_char name <> Some "-"%char
          /\ last_char name <> Some "-"%char
          /\ ((0 <= max_length)%Z ->
              (Z.of_nat (String.length name) <= max_length)%Z))).
Proof.
  cbv zeta. rewrite generate_filename_cut.
  destruct (Str.is_empty (Py.strip "-" (cut_name title max_length))) eqn:E.
  - split; [discriminate|]. left. reflexivity.
  - split; [apply nonempty_of_is_empty, E|]. right.
    assert (Hall : Chars.all filename_char (hyphenated title) = true).
    { apply all_collapse_hyphens, Chars.all_filter_keep. }
    assert (Hnd : Py.no_double "-" (hyphenated title) = true)
      by apply no_double_collapse_hyphens.
    pose proof (cut_name_is_prefix title max_length) as Hp.
    repeat split.
    + apply Py.all_rstrip_char, Py.all_lstrip_char.
      eapply Py.prefix_all; eassumption.
    + eapply Py.prefix_no_double; [apply strip_prefix_lstrip|].
      apply Py.no_double_lstrip. eapply Py.prefix_no_double; eassumption.
    + apply Py.strip_ends.
    + apply Py.strip_ends.
    + intros H0.
      pose proof (Py.length_strip "-" (cut_name title max_length)).
      pose proof (cut_name_length title max_length H0). lia.
Qed.

End GenerateFilenameFacts.

Lemma generate_filename_shape_witness :
  (Z.of_nat (String.length
     (generate_filename (fun s => s) "20240101-120000"
        "Rates cut: markets rally again" 12)) <= 12)%Z.
Proof.
  destruct (generate_filename_shape (fun s => s) "20240101-120000"
              "Rates cut: markets rally again" 12) as [_ [H|(_ & _ & _ & _ & H)]].
  - discriminate H.
  - apply H. lia.
Defined.

(** With a negative length the slice counts from the end, and the name can
    be longer than asked for; the fall-back is longer than a short limit. *)
Example generate_filename_longer (f : string -> string) (stamp : string) :
  generate_filename f stamp "abcdef" (-1) = "abcde"
  /\ generate_filename f stamp "!" 3 = "news-" +:+ stamp.
Proof. split; reflexivity. Qed.

(* ===================================================================== *)
(** * utils.py: truncate_text                                              *)
(* ===================================================================== *)

Section TruncateText.

(** [last_space > max_length * 0.7], a comparison of an [int] with a
    [float] product. *)
Variable above_seven_tenths : Z -> Z -> bool.

(** utils.py, [truncate_text]. *)
Definition truncate_text (text : string) (max_length : Z) (suffix : string)
  : string :=
  if Str.is_empty text || (Z.of_nat (String.length text) <=? max_length)%Z
  then text
  else
    let truncated :=
      Py.slice_to text (max_length - Z.of_nat (String.length suffix)) in
    let last_space := Py.rfind " " truncated in
    let truncated :=
      if above_seven_tenths last_space max_length
      then Py.slice_to truncated last_space
      else truncated in
    truncated +:+ suffix.

(** When the suffix is no longer than the length asked for, the result
    has at most that many characters, and it is either the text itself or
    a prefix of the text followed by the suffix. *)
Theorem truncate_text_bounded (text : string) (max_length : Z) (suffix : string) :
  (Z.of_nat (String.length suffix) <= max_length)%Z ->
  let r := truncate_text text max_length suffix in
  (Z.of_nat (String.length r) <= max_length)%Z
  /\ (r = text
      \/ exists p, String.prefix p text = true /\ r = p +:+ suffix).
Proof.
  intros Hs. cbv zeta. unfold truncate_text.
  destruct (Str.is_empty text) eqn:Ee; simpl.
  { destruct text; [|discriminate]. split; [simpl; lia|left; reflexivity]. }
  destruct (_ <=? _)%Z eqn:El.
  { apply Z.leb_le in El. split; [exact El|left; reflexivity]. }
  set (n := (max_length - Z.of_nat (String.length suffix))%Z).
  assert (Hn : (0 <= n)%Z) by (unfold n; lia).
  pose proof (Py.length_slice_to text n Hn) as Hlen.
  split.
  - rewrite Str.length_app.
    destruct (above_seven_tenths _ _).
    + pose proof (Py.length_slice_to_le (Py.slice_to text n)
                    (Py.rfind " " (Py.slice_to text n))). unfold n in *. lia.
    + unfold n in *. lia.
  - right. destruct (above_seven_tenths _ _).
    + eexists. split; [|reflexivity].
      eapply Py.prefix_trans; apply Py.prefix_slice_to.
    + eexists. split; [|reflexivity]. apply Py.prefix_slice_to.
Qed.

End TruncateText.

Lemma truncate_text_bounded_witness :
  let r := truncate_text (fun s m => (7 * m <? 10 * s)%Z)
             "Central bank cuts the rate again" 20 "..." in
  (Z.of_nat (String.length r) <= 20)%Z
  /\ (r = "Central bank cuts the rate again"
      \/ exists p, String.prefix p "Central bank cuts the rate again" = true
                   /\ r = p +:+ "...").
Proof.
  apply (truncate_text_bounded (fun s m => (7 * m <? 10 * s)%Z)
           "Central bank cuts the rate again" 20 "...").
  simpl. lia.
Defined.

Example truncate_text_example :
  truncate_text (fun s m => (7 * m <? 10 * s)%Z)
    "Central bank cuts the rate again" 20 "..." = "Central bank cuts..."
  /\ truncate_text (fun s m => (7 * m <? 10 * s)%Z) "short" 20 "..." = "short".
Proof. split; reflexivity. Qed.

(** A suffix longer than the length asked for makes the slice count from
    the end: the result is longer than the length asked for. *)
Example truncate_text_long_suffix (f : Z -> Z -> bool) :
  (2 < Z.of_nat (String.length (truncate_text f "abcdef" 2 "...")))%Z.
Proof.
  unfold truncate_text. simpl. destruct (f _ _); simpl; lia.
Qed.

(* ===================================================================== *)
(** * utils.py: sanitize_filename                                          *)
(* ===================================================================== *)

(** [s.replace(old, new)] for one-character arguments. *)
Fixpoint replace_char (old new : ascii) (s : string) : string :=
  match s with
  | EmptyString => EmptyString
  | String a t =>
      String (if Ascii.eqb a old then new else a) (replace_char old new t)
  end.

(** The class of the [re.sub] of [sanitize_filename]: the angle brackets,
    the colon, the double quote, the bar, the question mark and the star. *)
Definition is_reserved (c : ascii) : bool :=
  Ascii.eqb c "<" || Ascii.eqb c ">" || Ascii.eqb c ":"
  || Ascii.eqb c (ascii_of_nat 34) || Ascii.eqb c "|" || Ascii.eqb c "?"
  || Ascii.eqb c "*".

(** [ord(char) >= 32]. *)
Definition is_printable (c : ascii) : bool := (32 <=? Chr.code c)%N.

(** [filename.rsplit('.', 1) if '.' in filename else (filename, '')]. *)
Definition name_and_ext (filename : string) : string * string :=
  match Py.rpartition "." filename with
  | Some p => p
  | None => (filename, "")
  end.

(** The file name before its length is limited. *)
Definition scrub_filename (filename : string) : string :=
  let filename := replace_char "\" "_" (replace_char "/" "_" filename) in
  let filename := Text.filter (fun c => negb (is_reserved c)) filename in
  Text.filter is_printable filename.

(** utils.py, [sanitize_filename]. *)
Definition sanitize_filename (filename : string) : string :=
  let filename := scrub_filename filename in
  let filename :=
    if (255 <? String.length filename)%nat
    then
      let '(name, ext) := name_and_ext filename in
      Py.slice_to name (250 - Z.of_nat (String.length ext))
      +:+ (if Str.is_empty ext then "" else "." +:+ ext)
    else filename in
  Text.strip filename.

Example sanitize_filename_example :
  sanitize_filename (" a/b\c<d>:e|f?g*.txt" +:+ String (ascii_of_nat 7) " ")
  = "a_b_cdefg.txt".
Proof. reflexivity. Qed.

(** A character of a sanitized name: no path separator, no reserved
    character, no control character. *)
Definition portable_char (c : ascii) : bool :=
  negb (Ascii.eqb c "/") && negb (Ascii.eqb c "\") && negb (is_reserved c)
  && is_printable c.

Lemma all_replace_slash s :
  Chars.all (fun c => negb (Ascii.eqb c "/") && negb (Ascii.eqb c "\"))
    (replace_char "\" "_" (replace_char "/" "_" s)) = true.
Proof.
  induction s as [|a t IH]; simpl; [reflexivity|].
  rewrite IH, andb_true_r.
  destruct (Ascii.eqb a "/") eqn:E1; [reflexivity|].
  destruct (Ascii.eqb a "\") eqn:E2; [reflexivity|].
  rewrite E1, E2. reflexivity.
Qed.

Lemma all_scrub_filename s : Chars.all portable_char (scrub_filename s) = true.
Proof.
  unfold scrub_filename.
  eapply Chars.all_impl with
    (p := fun c => (negb (Ascii.eqb c "/") && negb (Ascii.eqb c "\")
                    && negb (is_reserved c)) && is_printable c).
  { intros c H. exact H. }
  apply Chars.all_and; [|apply Chars.all_filter_keep].
  apply Chars.all_filter.
  apply (Chars.all_and
           (fun c => negb (Ascii.eqb c "/") && negb (Ascii.eqb c "\"))
           (fun c => negb (is_reserved c))).
  - apply Chars.all_filter, all_replace_slash.
  - apply (Chars.all_filter_keep (fun c => negb (is_reserved c))).
Qed.

Lemma all_strip_ws (p : ascii -> bool) s :
  Chars.all p s = true -> Chars.all p (Text.strip s) = true.
Proof. intros H. apply all_rstrip, all_lstrip, H. Qed.

Lemma all_rpartition p c s before after :
  Py.rpartition c s = Some (before, after) ->
  Chars.all p s = true ->
  Chars.all p before = true /\ Chars.all p after = true.
Proof.
  intros E H. apply Py.rpartition_spec in E as [-> _].
  rewrite Chars.all_app in H. simpl in H.
  rewrite !andb_true_iff in H. tauto.
Qed.

Lemma length_strip_ws s : (String.length (Text.strip s) <= String.length s)%nat.
Proof.
  unfold Text.strip.
  assert (Hr : forall x, (String.length (Text.rstrip x) <= String.length x)%nat).
  { induction x as [|a t IH]; simpl; [lia|].
    destruct (Chr.is_space a && Str.is_empty (Text.rstrip t)); simpl; lia. }
  assert (Hl : (String.length (Text.lstrip s) <= String.length s)%nat).
  { induction s as [|a t IH]; simpl; [lia|].
    destruct (Chr.is_space a); simpl; lia. }
  pose proof (Hr (Text.lstrip s)). lia.
Qed.

(** The text after the last full stop, empty without a full stop. *)
Definition extension_of (filename : string) : string :=
  snd (name_and_ext filename).

Lemma length_replace_char a b s :
  String.length (replace_char a b s) = String.length s.
Proof. induction s as [|c t IH]; simpl; [reflexivity|]. rewrite IH. reflexivity. Qed.

Lemma length_filter_le keep s :
  (String.length (Text.filter keep s) <= String.length s)%nat.
Proof. induction s as [|c t IH]; simpl; [lia|]. destruct (keep c); simpl; lia. Qed.

Lemma length_scrub_filename s :
  (String.length (scrub_filename s) <= String.length s)%nat.
Proof.
  unfold scrub_filename.
  pose proof (length_filter_le is_printable
    (Text.filter (fun c => negb (is_reserved c))
       (replace_char "\" "_" (replace_char "/" "_" s)))).
  pose proof (length_filter_le (fun c => negb (is_reserved c))
       (replace_char "\" "_" (replace_char "/" "_" s))).
  rewrite !length_replace_char in *. lia.
Qed.

(** One character through the three steps of [scrub_filename]. *)
Definition scrub_char (a : ascii) : option ascii :=
  let b := if Ascii.eqb a "/" then "_"%char else a in
  let b := if Ascii.eqb b "\" then "_"%char else b in
  if negb (is_reserved b) && is_printable b then Some b else None.

Lemma scrub_filename_cons a t :
  scrub_filename (String a t) =
  match scrub_char a with
  | Some b => String b (scrub_filename t)
  | None => scrub_filename t
  end.
Proof.
  unfold scrub_filename, scrub_char. simpl.
  destruct (negb (is_reserved _)); simpl; [|reflexivity].
  destruct (is_printable _); reflexivity.
Qed.

Lemma scrub_char_stop a :
  scrub_char a = Some "."%char <-> a = "."%char.
Proof.
  split; [|intros ->; reflexivity].
  destruct a as [[] [] [] [] [] [] [] []]; vm_compute; intros H;
    first [reflexivity | discriminate H].
Qed.

Lemma rpartition_scrub s :
  Py.rpartition "." (scrub_filename s) =
  match Py.rpartition "." s with
  | Some (before, after) => Some (scrub_filename before, scrub_filename after)
  | None => None
  end.
Proof.
  induction s as [|a t IH]; [reflexivity|].
  rewrite scrub_filename_cons. simpl Py.rpartition at 2.
  destruct (scrub_char a) as [b|] eqn:Eb.
  - simpl Py.rpartition at 1. rewrite IH.
    destruct (Py.rpartition "." t) as [[before after]|].
    + rewrite scrub_filename_cons, Eb. reflexivity.
    + destruct (Ascii.eqb a ".") eqn:Ea.
      * apply Ascii.eqb_eq in Ea. subst a. injection Eb as <-. reflexivity.
      * destruct (Ascii.eqb b ".") eqn:Ebd; [|reflexivity].
        apply Ascii.eqb_eq in Ebd. subst b. apply scrub_char_stop in Eb.
        subst a. discriminate Ea.
  - rewrite IH. destruct (Py.rpartition "." t) as [[before after]|].
    + rewrite scrub_filename_cons, Eb. reflexivity.
    + destruct (Ascii.eqb a ".") eqn:Ea; [|reflexivity].
      apply Ascii.eqb_eq in Ea. subst a. discriminate Eb.
Qed.

Lemma extension_of_scrub s :
  extension_of (scrub_filename s) = scrub_filename (extension_of s).
Proof.
  unfold extension_of, name_and_ext. rewrite rpartition_scrub.
  destruct (Py.rpartition "." s) as [[before after]|]; reflexivity.
Qed.

Lemma sanitize_filename_length (filename : string) :
  (String.length (extension_of filename) <= 250)%nat ->
  (String.length (sanitize_filename filename) <= 255)%nat.
Proof.
  intros Hext. unfold sanitize_filename.
  etransitivity; [apply length_strip_ws|].
  destruct (255 <? _)%nat eqn:E; [|apply Nat.ltb_ge in E; exact E].
  pose proof (extension_of_scrub filename) as He.
  pose proof (length_scrub_filename (extension_of filename)) as Hle.
  unfold extension_of in He, Hle, Hext.
  destruct (name_and_ext (scrub_filename filename)) as [name ext].
  simpl in He. subst ext.
  set (ext := scrub_filename (snd (name_and_ext filename))) in *.
  assert (H0 : (0 <= 250 - Z.of_nat (String.length ext))%Z)
    by lia.
  pose proof (Py.length_slice_to name _ H0) as Hs.
  rewrite Str.length_app.
  destruct (Str.is_empty ext).
  - simpl. lia.
  - change (String.length ("." +:+ ext)) with (S (String.length ext)). lia.
Qed.

(** A sanitized name holds no path separator, none of the reserved
    characters and no control character, and neither starts nor ends with
    white space; a name whose extension has at most 250 characters comes
    out with at most 255 characters. *)
Theorem sanitize_filename_portable (filename : string) :
  let r := sanitize_filename filename in
  Chars.all portable_char r = true
  /\ (forall c, Py.first_char r = Some c -> Chr.is_space c = false)
  /\ (forall c, last_char r = Some c -> Chr.is_space c = false)
  /\ ((String.length (extension_of filename) <= 250)%nat ->
      (String.length r <= 255)%nat).
Proof.
  cbv zeta. split; [|split; [|split]]; [| | |apply sanitize_filename_length];
    unfold sanitize_filename.
  - apply all_strip_ws.
    pose proof (all_scrub_filename filename) as H.
    destruct (255 <? _)%nat; [|exact H].
    unfold name_and_ext.
    destruct (Py.rpartition "." (scrub_filename filename)) as [[name ext]|] eqn:E.
    + destruct (all_rpartition _ _ _ _ _ E H) as [Hn He].
      rewrite Chars.all_app, (Py.all_slice_to _ _ _ Hn). simpl.
      destruct (Str.is_empty ext); [reflexivity|].
      change ("." +:+ ext) with (String "." ext). simpl. exact He.
    + rewrite Chars.all_app, (Py.all_slice_to _ _ _ H). reflexivity.
  - intros c Hc. pose proof (strip_head
      (if (255 <? String.length (scrub_filename filename))%nat
       then let '(name, ext) := name_and_ext (scrub_filename filename) in
            Py.slice_to name (250 - Z.of_nat (String.length ext))
            +:+ (if Str.is_empty ext then "" else "." +:+ ext)
       else scrub_filename filename)) as Hh.
    destruct (Text.strip _) as [|x r]; [discriminate|].
    simpl in Hc. injection Hc as <-. exact Hh.
  - intros c Hc. unfold Text.strip in Hc.
    exact (last_char_rstrip_ws _ _ Hc).
Qed.

Lemma sanitize_filename_portable_witness :
  (String.length (sanitize_filename "reports/2024: summary?.txt") <= 255)%nat.
Proof.
  apply (proj2 (proj2 (proj2 (sanitize_filename_portable
                                "reports/2024: summary?.txt")))).
  vm_compute. lia.
Defined.

(** [n] copies of [c]. *)
Fixpoint copies (n : nat) (c : ascii) : string :=
  match n with
  | O => EmptyString
  | S n => String c (copies n c)
  end.

(** An extension of 300 characters is kept whole: the name comes out with
    301 characters. *)
Example sanitize_filename_long_extension :
  String.length (sanitize_filename ("a." +:+ copies 300 "b")) = 301%nat.
Proof. vm_compute. reflexivity. Qed.

(* ===================================================================== *)
(** * utils.py: extract_keywords                                           *)
(* ===================================================================== *)

(** The class [[a-zA-Z]]. *)
Definition is_ascii_letter (c : ascii) : bool :=
  let n := Chr.code c in
  ((65 <=? n) && (n <=? 90) || (97 <=? n) && (n <=? 122))%N.

(** [re.findall(r'\b[a-zA-Z]{3,}\b', s)]: a match starts and ends at a
    word boundary, so the matches are the word runs of at least three
    characters that are all ASCII letters. *)
Definition findall_words (s : string) : list string :=
  List.filter
    (fun w => LLMClient.all_chars is_ascii_letter w
              && (3 <=? String.length w)%nat)
    (LLMClient.word_runs [] s).

Definition stop_words : list string :=
  [ "the"; "and"; "or"; "but"; "in"; "on"; "at"; "to"; "for"; "of"; "with";
    "by"; "from"; "up"; "about"; "into"; "through"; "during"; "before";
    "after"; "above"; "below"; "between"; "among"; "upon"; "against";
    "within"; "throughout"; "despite"; "towards"; "concerning";
    "this"; "that"; "these"; "those"; "they"; "them"; "their"; "there";
    "where"; "when"; "what"; "who"; "which"; "why"; "how"; "said"; "says";
    "can"; "could"; "will"; "would"; "should"; "may"; "might"; "must";
    "have"; "has"; "had"; "having"; "been"; "being"; "was"; "were"; "are";
    "more"; "most"; "much"; "many"; "some"; "all"; "any"; "each"; "every";
    "new"; "old"; "first"; "last"; "long"; "great"; "little"; "own"; "other";
    "right"; "big"; "high"; "different"; "small"; "large"; "next"; "early";
    "young"; "important"; "few"; "public"; "bad"; "same"; "able" ].

(** [word_freq[word] = word_freq.get(word, 0) + 1] on a [dict], whose
    items stay in the order in which their keys came in. *)
Fixpoint count_word (word : string) (word_freq : list (string * nat))
  : list (string * nat) :=
  match word_freq with
  | [] => [(word, 1%nat)]
  | (k, n) :: t =>
      if String.eqb k word then (k, S n) :: t
      else (k, n) :: count_word word t
  end.

(** The test of the counting loop. *)
Definition counted (word : string) : bool :=
  negb (in_list word stop_words) && (3 <? String.length word)%nat.

(** The counting loop. *)
Definition count_words (words : list string) : list (string * nat) :=
  fold_left
    (fun word_freq word =>
       if counted word then count_word word word_freq else word_freq)
    words [].

(** utils.py, [extract_keywords]. *)
Definition extract_keywords (text : string) (max_keywords : Z) : list string :=
  if Str.is_empty text then []
  else
    let words := findall_words (Text.lower text) in
    let word_freq := count_words words in
    let keywords := sort_desc Nat.ltb snd word_freq in
    map fst (slice_to keywords max_keywords).

Example extract_keywords_example :
  extract_keywords
    "Rates: the BANK cut rates; markets and rates rally. Bank_note x2 markets!" 2
  = ["rates"; "markets"]
  /\ extract_keywords "Bank rates, bank Rates and banks" 10
     = ["bank"; "rates"; "banks"].
Proof. split; reflexivity. Qed.

(** A lower-case ASCII letter. *)
Definition is_lower_letter (c : ascii) : bool :=
  let n := Chr.code c in ((97 <=? n) && (n <=? 122))%N.

(** [word_freq.get(word, 0)]. *)
Fixpoint freq_get (word : string) (word_freq : list (string * nat)) : nat :=
  match word_freq with
  | [] => 0
  | (k, n) :: t => if String.eqb k word then n else freq_get word t
  end.

(** The number of times [word] stands in [words]. *)
Definition occurrences (word : string) (words : list string) : nat :=
  List.length (List.filter (String.eqb word) words).

Section KeywordFacts.

Lemma all_chars_of_list p l :
  LLMClient.all_chars p (string_of_list_ascii l) = forallb p l.
Proof. induction l as [|c t IH]; simpl; [reflexivity|]. rewrite IH. reflexivity. Qed.

Lemma forallb_rev {A} (p : A -> bool) l : forallb p (rev l) = forallb p l.
Proof.
  induction l as [|c t IH]; simpl; [reflexivity|].
  rewrite forallb_app, IH. simpl. rewrite andb_true_r. apply andb_comm.
Qed.

Lemma word_runs_all p cur s :
  forallb p cur = true ->
  LLMClient.all_chars p s = true ->
  Forall (fun w => LLMClient.all_chars p w = true) (LLMClient.word_runs cur s).
Proof.
  revert cur. induction s as [|c t IH]; intros cur Hcur Hs; simpl in *.
  - destruct cur as [|x cur]; [constructor|].
    constructor; [|constructor].
    rewrite all_chars_of_list, forallb_rev. exact Hcur.
  - apply andb_true_iff in Hs as [Hc Ht].
    destruct (LLMClient.is_word c).
    + apply IH; [|exact Ht]. simpl. rewrite Hc, Hcur. reflexivity.
    + destruct cur as [|x cur]; [apply IH; [reflexivity|exact Ht]|].
      constructor; [|apply IH; [reflexivity|exact Ht]].
      rewrite all_chars_of_list, forallb_rev. exact Hcur.
Qed.

Definition not_upper (c : ascii) : bool :=
  let n := Chr.code c in negb ((65 <=? n) && (n <=? 90))%N.

Lemma lower_not_upper c : not_upper (Chr.lower c) = true.
Proof. destruct c as [[] [] [] [] [] [] [] []]; vm_compute; reflexivity. Qed.

Lemma all_lower_not_upper s : LLMClient.all_chars not_upper (Text.lower s) = true.
Proof.
  induction s as [|c t IH]; simpl; [reflexivity|].
  rewrite lower_not_upper, IH. reflexivity.
Qed.

Lemma lower_letter_of c :
  is_ascii_letter c = true -> not_upper c = true -> is_lower_letter c = true.
Proof.
  unfold is_ascii_letter, not_upper, is_lower_letter. cbv zeta.
  destruct ((65 <=? Chr.code c) && (Chr.code c <=? 90))%N; simpl;
    [discriminate 2|]. intros H _. exact H.
Qed.

Lemma all_chars_both p q r s :
  (forall c, p c = true -> q c = true -> r c = true) ->
  LLMClient.all_chars p s = true -> LLMClient.all_chars q s = true ->
  LLMClient.all_chars r s = true.
Proof.
  intros H. induction s as [|c t IH]; simpl; [reflexivity|].
  rewrite !andb_true_iff. intros [Hp Hpt] [Hq Hqt]. split; auto.
Qed.

(** Every word found in a lower-cased text is made of lower-case letters. *)
Lemma findall_words_lower text w :
  In w (findall_words (Text.lower text)) ->
  LLMClient.all_chars is_lower_letter w = true.
Proof.
  unfold findall_words. rewrite filter_In. intros [Hin Hw].
  apply andb_true_iff in Hw as [Hl _].
  pose proof (word_runs_all not_upper [] (Text.lower text) eq_refl
                (all_lower_not_upper text)) as Hall.
  rewrite List.Forall_forall in Hall.
  eapply all_chars_both; [apply lower_letter_of|exact Hl|apply Hall, Hin].
Qed.

(** ** The counting loop *)

Lemma count_word_keys word freq :
  map fst (count_word word freq) =
  if in_list word (map fst freq) then map fst freq else map fst freq ++ [word].
Proof.
  unfold in_list. induction freq as [|[k n] t IH]; simpl; [reflexivity|].
  rewrite (String.eqb_sym word k).
  destruct (String.eqb k word) eqn:E; simpl; [reflexivity|].
  rewrite IH. destruct (existsb _ _); reflexivity.
Qed.

Lemma in_list_In x l : in_list x l = true <-> In x l.
Proof.
  unfold in_list. rewrite existsb_exists. split.
  - intros [y [Hy E]]. apply String.eqb_eq in E. subst. exact Hy.
  - intros H. exists x. split; [exact H|apply String.eqb_refl].
Qed.

Lemma in_list_false x l : in_list x l = false <-> ~ In x l.
Proof.
  rewrite <- in_list_In. destruct (in_list x l); split; congruence.
Qed.

Lemma count_word_NoDup word freq :
  NoDup (map fst freq) -> NoDup (map fst (count_word word freq)).
Proof.
  intros H. rewrite count_word_keys.
  destruct (in_list word (map fst freq)) eqn:E; [exact H|].
  apply in_list_false in E.
  apply NoDup_snoc; [exact H|].
  rewrite list_elem_of_In. exact E.
Qed.

Lemma count_word_counted word freq :
  Forall (fun k => counted k = true) (map fst freq) ->
  counted word = true ->
  Forall (fun k => counted k = true) (map fst (count_word word freq)).
Proof.
  intros H Hw. rewrite count_word_keys.
  destruct (in_list _ _); [exact H|].
  apply Forall_app. split; [exact H|]. constructor; [exact Hw|constructor].
Qed.

Lemma freq_get_count_word word w freq :
  freq_get w (count_word word freq) =
  if String.eqb word w then S (freq_get w freq) else freq_get w freq.
Proof.
  induction freq as [|[k n] t IH]; simpl.
  - destruct (String.eqb word w); reflexivity.
  - destruct (String.eqb k word) eqn:E; simpl.
    + apply String.eqb_eq in E. subst k.
      destruct (String.eqb word w); reflexivity.
    + destruct (String.eqb k w) eqn:Ekw; [|exact IH].
      apply String.eqb_eq in Ekw. subst k.
      rewrite String.eqb_sym, E. reflexivity.
Qed.

(** The loop from any dictionary. *)
Definition count_from (freq : list (string * nat)) (words : list string) :=
  fold_left
    (fun word_freq word =>
       if counted word then count_word word word_freq else word_freq)
    words freq.

Lemma count_from_invariant words freq :
  NoDup (map fst freq) ->
  Forall (fun k => counted k = true) (map fst freq) ->
  NoDup (map fst (count_from freq words))
  /\ Forall (fun k => counted k = true) (map fst (count_from freq words))
  /\ (forall k, In k (map fst (count_from freq words)) ->
                In k (map fst freq) \/ In k words)
  /\ (forall w, counted w = true ->
        freq_get w (count_from freq words) =
        (freq_get w freq + occurrences w words)%nat).
Proof.
  revert freq. induction words as [|word words IH]; intros freq Hnd Hc.
  - simpl. repeat split; auto; intros; unfold occurrences; simpl; lia.
  - simpl. destruct (counted word) eqn:Ew.
    + destruct (IH (count_word word freq) (count_word_NoDup _ _ Hnd)
                  (count_word_counted _ _ Hc Ew)) as (H1 & H2 & H3 & H4).
      repeat split; [exact H1|exact H2| |].
      * intros k Hk. apply H3 in Hk as [Hk|Hk]; [|right; right; exact Hk].
        rewrite count_word_keys in Hk.
        destruct (in_list _ _); [left; exact Hk|].
        apply in_app_iff in Hk as [Hk|[<-|[]]]; [left; exact Hk|right; left; reflexivity].
      * intros w Hw. rewrite (H4 w Hw), freq_get_count_word.
        unfold occurrences. simpl. rewrite (String.eqb_sym w word).
        destruct (String.eqb word w); simpl; lia.
    + destruct (IH freq Hnd Hc) as (H1 & H2 & H3 & H4).
      repeat split; [exact H1|exact H2| |].
      * intros k Hk. apply H3 in Hk as [Hk|Hk]; [left|right; right]; exact Hk.
      * intros w Hw. rewrite (H4 w Hw).
        unfold occurrences. simpl.
        destruct (String.eqb w word) eqn:E; [|reflexivity].
        apply String.eqb_eq in E. subst. congruence.
Qed.

Lemma freq_get_item k n freq :
  NoDup (map fst freq) -> In (k, n) freq -> freq_get k freq = n.
Proof.
  induction freq as [|[k' n'] t IH]; simpl; [tauto|].
  intros Hnd [[= -> ->]|Hin].
  - rewrite String.eqb_refl. reflexivity.
  - apply NoDup_cons in Hnd as [Hnin Hnd].
    destruct (String.eqb k' k) eqn:E; [|apply IH; assumption].
    apply String.eqb_eq in E. subst k'.
    exfalso. apply Hnin, list_elem_of_In. apply (in_map fst) in Hin. exact Hin.
Qed.

Lemma firstn_elem {A} n (l : list A) x : In x (firstn n l) -> In x l.
Proof.
  revert n. induction l as [|y t IH]; intros [|n]; simpl; try tauto.
  intros [H|H]; [left; exact H|right; eapply IH, H].
Qed.

Lemma firstn_sorted {A} (R : A -> A -> Prop) n l :
  StronglySorted R l -> StronglySorted R (firstn n l).
Proof.
  revert n. induction l as [|x t IH]; intros [|n] H; simpl; try constructor.
  - apply IH. inversion H; assumption.
  - inversion H as [|? ? _ Hall]; subst.
    rewrite List.Forall_forall in *. intros y Hy. apply Hall.
    eapply firstn_elem, Hy.
Qed.

Lemma slice_to_sorted {A} (R : A -> A -> Prop) n (l : list A) :
  StronglySorted R l -> StronglySorted R (slice_to l n).
Proof. unfold slice_to. destruct (0 <=? n)%Z; apply firstn_sorted. Qed.

Lemma slice_to_In {A} n (l : list A) x : In x (slice_to l n) -> In x l.
Proof.
  unfold slice_to. destruct (0 <=? n)%Z; intros H; eapply firstn_elem, H.
Qed.

Lemma map_sorted {A B} (f : A -> B) (R : B -> B -> Prop) l :
  StronglySorted (fun x y => R (f x) (f y)) l -> StronglySorted R (map f l).
Proof.
  induction 1 as [|x t _ IH Hall]; simpl; constructor; [exact IH|].
  rewrite List.Forall_forall in *. intros y Hy.
  apply in_map_iff in Hy as [z [<- Hz]]. apply Hall, Hz.
Qed.

Lemma sorted_impl {A} (R S : A -> A -> Prop) l :
  (forall x y, In x l -> In y l -> R x y -> S x y) ->
  StronglySorted R l -> StronglySorted S l.
Proof.
  intros H Hs. induction Hs as [|x t _ IH Hall]; constructor.
  - apply IH. intros a b Ha Hb. apply H; right; assumption.
  - rewrite List.Forall_forall in *. intros y Hy.
    apply H; [left; reflexivity|right; exact Hy|apply Hall, Hy].
Qed.

Lemma firstn_map {A B} (f : A -> B) n l : firstn n (map f l) = map f (firstn n l).
Proof.
  revert n. induction l as [|x t IH]; intros [|n]; simpl; try reflexivity.
  rewrite IH. reflexivity.
Qed.

Lemma slice_to_map {A B} (f : A -> B) n l :
  slice_to (map f l) n = map f (slice_to l n).
Proof.
  unfold slice_to. rewrite length_map. destruct (0 <=? n)%Z; apply firstn_map.
Qed.

Lemma nat_ltb_asym a b : Nat.ltb a b = true -> Nat.ltb b a = false.
Proof. rewrite Nat.ltb_lt, Nat.ltb_ge. lia. Qed.

Lemma nat_not_ltb_trans a b c :
  Nat.ltb a b = false -> Nat.ltb b c = false -> Nat.ltb a c = false.
Proof. rewrite !Nat.ltb_ge. lia. Qed.

(** The items of the dictionary, most frequent first. *)
Definition ranked_items (text : string) : list (string * nat) :=
  sort_desc Nat.ltb snd (count_words (findall_words (Text.lower text))).

Lemma extract_keywords_ranked text max_keywords :
  extract_keywords text max_keywords =
  if Str.is_empty text then []
  else slice_to (map fst (ranked_items text)) max_keywords.
Proof.
  unfold extract_keywords, ranked_items. destruct (Str.is_empty text);
    [reflexivity|]. cbv zeta. symmetry. apply slice_to_map.
Qed.

Lemma count_words_facts words :
  NoDup (map fst (count_words words))
  /\ Forall (fun k => counted k = true) (map fst (count_words words))
  /\ (forall k, In k (map fst (count_words words)) -> In k words)
  /\ (forall w, counted w = true ->
        freq_get w (count_words words) = occurrences w words).
Proof.
  destruct (count_from_invariant words [] (NoDup_nil_2) (Forall_nil_2 _))
    as (H1 & H2 & H3 & H4).
  repeat split; [exact H1|exact H2| |exact H4].
  intros k Hk. destruct (H3 k Hk) as [[]|H]; exact H.
Qed.

Lemma ranked_items_perm text :
  Permutation (ranked_items text)
    (count_words (findall_words (Text.lower text))).
Proof. apply sort_desc_perm. Qed.

(** The keywords are pairwise different; each one is a word of the
    lower-cased text, made of more than three lower-case ASCII letters,
    and none is a stop word; for a number that is not negative, at most
    that many keywords come back. *)
Theorem extract_keywords_wellformed (text : string) (max_keywords : Z) :
  NoDup (extract_keywords text max_keywords)
  /\ (forall w, In w (extract_keywords text max_keywords) ->
       In w (findall_words (Text.lower text))
       /\ (3 < String.length w)%nat
       /\ LLMClient.all_chars is_lower_letter w = true
       /\ in_list w stop_words = false)
  /\ ((0 <= max_keywords)%Z ->
      (Z.of_nat (List.length (extract_keywords text max_keywords))
       <= max_keywords)%Z).
Proof.
  assert (Hlen : (0 <= max_keywords)%Z ->
      (Z.of_nat (List.length (extract_keywords text max_keywords))
       <= max_keywords)%Z).
  { intros H. rewrite extract_keywords_ranked.
    destruct (Str.is_empty text); [simpl; lia|].
    unfold slice_to. apply Z.leb_le in H as Hb. rewrite Hb.
    rewrite length_firstn. lia. }
  cut (NoDup (extract_keywords text max_keywords)
       /\ (forall w, In w (extract_keywords text max_keywords) ->
            In w (findall_words (Text.lower text))
            /\ (3 < String.length w)%nat
            /\ LLMClient.all_chars is_lower_letter w = true
            /\ in_list w stop_words = false)); [tauto|]. clear Hlen.
  rewrite extract_keywords_ranked.
  destruct (Str.is_empty text); [split; [constructor|intros w []]|].
  destruct (count_words_facts (findall_words (Text.lower text)))
    as (Hnd & Hc & Hin & _).
  pose proof (ranked_items_perm text) as Hp.
  assert (Hpk : Permutation (map fst (ranked_items text))
                  (map fst (count_words (findall_words (Text.lower text)))))
    by (apply Permutation_map, Hp).
  split.
  - rewrite <- Hpk in Hnd.
    unfold slice_to. destruct (0 <=? max_keywords)%Z;
      (eapply sublist_NoDup; [exact Hnd|apply sublist_take]).
  - intros w Hw. apply slice_to_In in Hw.
    apply (Permutation_in _ Hpk) in Hw.
    pose proof (Hin w Hw) as Hfound.
    rewrite List.Forall_forall in Hc. pose proof (Hc w Hw) as Hcw.
    unfold counted in Hcw. apply andb_true_iff in Hcw as [Hs Hl].
    repeat split.
    + exact Hfound.
    + apply Nat.ltb_lt in Hl. exact Hl.
    + eapply findall_words_lower, Hfound.
    + apply negb_true_iff in Hs. exact Hs.
Qed.

(** The keywords come in the order of their number of occurrences among
    the words of the lower-cased text, the most frequent first. *)
Theorem extract_keywords_by_frequency (text : string) (max_keywords : Z) :
  StronglySorted
    (fun a b =>
       (occurrences b (findall_words (Text.lower text))
        <= occurrences a (findall_words (Text.lower text)))%nat)
    (extract_keywords text max_keywords).
Proof.
  rewrite extract_keywords_ranked.
  destruct (Str.is_empty text); [constructor|].
  apply slice_to_sorted, map_sorted.
  destruct (count_words_facts (findall_words (Text.lower text)))
    as (Hnd & Hc & _ & Hget).
  pose proof (ranked_items_perm text) as Hp.
  assert (Hitem : forall x, In x (ranked_items text) ->
            snd x = occurrences (fst x) (findall_words (Text.lower text))).
  { intros [k n] Hx. apply (Permutation_in _ Hp) in Hx. simpl.
    rewrite <- Hget.
    - symmetry. apply freq_get_item; assumption.
    - rewrite List.Forall_forall in Hc. apply Hc.
      apply (in_map fst) in Hx. exact Hx. }
  eapply sorted_impl;
    [|apply (sort_desc_sorted Nat.ltb snd nat_ltb_asym nat_not_ltb_trans)].
  intros x y Hx Hy Hxy. unfold not_below in Hxy. apply Nat.ltb_ge in Hxy.
  rewrite <- (Hitem x Hx), <- (Hitem y Hy). exact Hxy.
Qed.

End KeywordFacts.

Lemma extract_keywords_wellformed_witness :
  (Z.of_nat (List.length
     (extract_keywords "Bank rates, bank Rates and banks" 2)) <= 2)%Z.
Proof.
  apply (proj2 (proj2 (extract_keywords_wellformed
                         "Bank rates, bank Rates and banks" 2))).
  lia.
Defined.

(** A negative number counts from the end of the ranking. *)
Example extract_keywords_negative :
  extract_keywords "Bank rates, bank Rates and banks" (-1) = ["bank"; "rates"].
Proof. reflexivity. Qed.

(* ===================================================================== *)
(** * More about extract_domain                                            *)
(* ===================================================================== *)

Lemma lower_lower_char c : Chr.lower (Chr.lower c) = Chr.lower c.
Proof. destruct c as [[] [] [] [] [] [] [] []]; vm_compute; reflexivity. Qed.

Lemma lower_lower s : Text.lower (Text.lower s) = Text.lower s.
Proof.
  induction s as [|c t IH]; simpl; [reflexivity|].
  rewrite lower_lower_char, IH. reflexivity.
Qed.

Lemma lower_drop n s : Text.lower (Str.drop n s) = Str.drop n (Text.lower s).
Proof.
  revert n. induction s as [|c t IH]; intros [|n]; simpl; try reflexivity.
  apply IH.
Qed.

Section ExtractDomainFacts.

Variable netloc_of : string -> option string.

(** The domain is in lower case, and a non-empty URL written without
    its scheme has the domain of the same URL behind [https://]. *)
Theorem extract_domain_lower_scheme_optional (url : string) :
  Text.lower (extract_domain netloc_of url) = extract_domain netloc_of url
  /\ (url <> "" -> has_scheme url = false ->
      extract_domain netloc_of ("https://" +:+ url) = extract_domain netloc_of url).
Proof.
  split.
  - unfold extract_domain. destruct (Str.is_empty url); [reflexivity|].
    destruct (netloc_of (normalize_url url)) as [netloc|]; [|reflexivity].
    cbv zeta. destruct (Str.startswith "www." (Text.lower netloc)).
    + rewrite lower_drop, lower_lower. reflexivity.
    + apply lower_lower.
  - intros Hne Hs. destruct url as [|a t]; [congruence|].
    + unfold extract_domain.
      change (Str.is_empty ("https://" +:+ String a t)) with false.
      change (Str.is_empty (String a t)) with false. cbv iota.
      replace (normalize_url ("https://" +:+ String a t))
        with (normalize_url (String a t)); [reflexivity|].
      unfold normalize_url.
      change (Str.is_empty ("https://" +:+ String a t)) with false.
      change (Str.is_empty (String a t)) with false. cbv iota.
      rewrite Hs.
      replace (has_scheme ("https://" +:+ String a t)) with true; [reflexivity|].
      unfold has_scheme, Str.startswith. symmetry. apply orb_true_iff. right.
      apply Py.prefix_app.
Qed.

End ExtractDomainFacts.

Lemma extract_domain_lower_scheme_optional_witness :
  extract_domain FeedRun.netloc_of "https://site.example/a"
  = extract_domain FeedRun.netloc_of "site.example/a".
Proof.
  apply (proj2 (extract_domain_lower_scheme_optional FeedRun.netloc_of
                  "site.example/a")); [discriminate|reflexivity].
Defined.

Example extract_domain_example :
  extract_domain (fun _ => Some "WWW.Example.COM") "example.com/a" = "example.com"
  /\ extract_domain (fun _ => Some "www.www.example.com") "x" = "www.example.com"
  /\ extract_domain (fun _ => None) "x" = "".
Proof. repeat split; reflexivity. Qed.

(* ===================================================================== *)
(** * utils.py: is_recent                                                  *)
(* ===================================================================== *)

(** [datetime.min] and [datetime.max], in microseconds. *)
Definition datetime_min : Z := -62135596800000000.
Definition datetime_max : Z := 253402300799999999.

(** [timedelta(days=days)] in microseconds; [None] for the
    [OverflowError] of more than 999999999 days. *)
Definition timedelta_days (days : Z) : option Z :=
  if (Z.abs days <=? 999999999)%Z then Some (days * micros_per_day)%Z
  else None.

(** [d - delta] on a [datetime]; [None] for the [OverflowError] of a
    result outside of the years 1 to 9999. *)
Definition datetime_sub (d delta : Z) : option Z :=
  let r := (d - delta)%Z in
  if (datetime_min <=? r)%Z && (r <=? datetime_max)%Z then Some r else None.

Section IsRecent.

Variable date_parse : string -> option DateTime.

(** utils.py, [is_recent]; everything raised inside the [try] gives
    [False]. *)
Definition is_recent (now : Z) (date_str : string) (days : Z) : bool :=
  if Str.is_empty date_str then false
  else
    match date_parse date_str with
    | None => false
    | Some article_date =>
        match timedelta_days days with
        | None => false
        | Some delta =>
            match datetime_sub now delta with
            | None => false
            | Some cutoff_date =>
                match utcoffset article_date with
                | Some _ => false
                | None => (cutoff_date <? wall article_date)%Z
                end
            end
        end
    end.

(** A date counts as recent only if it was parsed to a naive
    [datetime] later than the cut-off (a timezone-aware date never does),
    and it stays recent for every longer period whose cut-off can still
    be computed. *)
Theorem is_recent_only_naive (now : Z) (date_str : string) (days : Z) :
  is_recent now date_str days = true ->
  (exists d, date_parse date_str = Some d /\ utcoffset d = None
             /\ (now - days * micros_per_day < wall d)%Z)
  /\ (forall days', (days <= days')%Z -> (days' <= 999999999)%Z ->
         (datetime_min <= now - days' * micros_per_day)%Z ->
         is_recent now date_str days' = true).
Proof.
  unfold is_recent. destruct (Str.is_empty date_str); [discriminate|].
  destruct (date_parse date_str) as [d|]; [|discriminate].
  unfold timedelta_days, datetime_sub. cbv zeta.
  destruct (Z.abs days <=? 999999999)%Z eqn:Ea; [|discriminate].
  destruct ((datetime_min <=? now - days * micros_per_day)%Z
            && (now - days * micros_per_day <=? datetime_max)%Z) eqn:Er;
    [|discriminate].
  destruct (utcoffset d) as [o|] eqn:Eo; [discriminate|].
  intros Hlt. apply Z.ltb_lt in Hlt.
  apply Z.leb_le in Ea. apply andb_true_iff in Er as [Er1 Er2].
  apply Z.leb_le in Er1. apply Z.leb_le in Er2.
  split; [exists d; auto|].
  intros days' Hle Hmax Hmin.
  assert (Hm : (0 < micros_per_day)%Z) by reflexivity.
  assert (Ha' : (Z.abs days' <=? 999999999)%Z = true) by (apply Z.leb_le; lia).
  rewrite Ha'.
  assert (Hr' : ((datetime_min <=? now - days' * micros_per_day)%Z
                 && (now - days' * micros_per_day <=? datetime_max)%Z) = true).
  { apply andb_true_iff. split; apply Z.leb_le; [exact Hmin|nia]. }
  rewrite Hr'. apply Z.ltb_lt. nia.
Qed.

End IsRecent.

Lemma is_recent_only_naive_witness :
  (exists d, (fun _ : string => Some (naive 1704103200000000)) "2024-01-01T10:00:00"
             = Some d /\ utcoffset d = None
             /\ (1704200000000000 - 7 * micros_per_day < wall d)%Z)
  /\ (forall days', (7 <= days')%Z -> (days' <= 999999999)%Z ->
         (datetime_min <= 1704200000000000 - days' * micros_per_day)%Z ->
         is_recent (fun _ => Some (naive 1704103200000000))
           1704200000000000 "2024-01-01T10:00:00" days' = true).
Proof.
  apply (is_recent_only_naive (fun _ => Some (naive 1704103200000000))
           1704200000000000 "2024-01-01T10:00:00" 7).
  reflexivity.
Defined.

(** The same instant with a UTC offset is not recent, whatever the
    period. *)
Example is_recent_aware (days : Z) :
  is_recent (fun _ => Some (mkDateTime 1704103200000000 (Some 0%Z)))
    1704200000000000 "2024-01-01T10:00:00+00:00" days = false.
Proof.
  unfold is_recent. simpl.
  destruct (timedelta_days days); [|reflexivity].
  destruct (datetime_sub _ _); reflexivity.
Qed.

(* ===================================================================== *)
(** * config.py: add_source, remove_source                                 *)
(* ===================================================================== *)

(** [d[k] = v] on a dictionary kept as an association list: a key that is
    there keeps its place, a new key goes to the end. *)
Fixpoint dict_set {V} (d : list (string * V)) (k : string) (v : V)
  : list (string * V) :=
  match d with
  | [] => [(k, v)]
  | (k', v') :: t =>
      if String.eqb k' k then (k', v) :: t else (k', v') :: dict_set t k v
  end.

(** [l.remove(x)]: the first [x] goes. *)
Fixpoint list_remove (x : string) (l : list string) : list string :=
  match l with
  | [] => []
  | y :: t => if String.eqb y x then t else y :: list_remove x t
  end.

(** The configuration with another [sources] dictionary. *)
Definition with_sources (config : Config) (d : list (string * list string))
  : Config :=
  mkConfig (preferences config) d (cache_ttl config) (llm_config config).

(** config.py, [Config.add_source]: what it does to the configuration in
    memory. *)
Definition add_source (config : Config) (category url : string) : Config :=
  let sources :=
    match dict_get (sources config) category with
    | None => dict_set (sources config) category []
    | Some _ => sources config
    end in
  match dict_get sources category with
  | Some urls =>
      if in_list url urls then with_sources config sources
      else with_sources config (dict_set sources category (urls ++ [url]))
  | None => with_sources config sources
  end.

(** config.py, [Config.remove_source]: what it does to the configuration
    in memory. *)
Definition remove_source (config : Config) (category url : string) : Config :=
  match dict_get (sources config) category with
  | Some urls =>
      if in_list url urls
      then with_sources config
             (dict_set (sources config) category (list_remove url urls))
      else config
  | None => config
  end.

Section ConfigFacts.

Lemma dict_get_set {V} (d : list (string * V)) k v k' :
  dict_get (dict_set d k v) k' =
  if String.eqb k k' then Some v else dict_get d k'.
Proof.
  induction d as [|[k0 v0] t IH]; simpl.
  - reflexivity.
  - destruct (String.eqb k0 k) eqn:E; simpl.
    + apply String.eqb_eq in E. subst k0.
      destruct (String.eqb k k'); reflexivity.
    + destruct (String.eqb k0 k') eqn:E'; [|exact IH].
      apply String.eqb_eq in E'. subst k0.
      rewrite String.eqb_sym, E. reflexivity.
Qed.

Lemma dict_set_same {V} (d : list (string * V)) k v :
  dict_get d k = Some v -> dict_set d k v = d.
Proof.
  induction d as [|[k0 v0] t IH]; simpl; [discriminate|].
  destruct (String.eqb k0 k); [intros [= ->]; reflexivity|].
  intros H. rewrite IH by exact H. reflexivity.
Qed.

Lemma dict_set_set {V} (d : list (string * V)) k v w :
  dict_set (dict_set d k v) k w = dict_set d k w.
Proof.
  induction d as [|[k0 v0] t IH]; simpl.
  - rewrite String.eqb_refl. reflexivity.
  - destruct (String.eqb k0 k) eqn:E; simpl; rewrite E; [reflexivity|].
    rewrite IH. reflexivity.
Qed.

Lemma list_remove_snoc x l : ~ In x l -> list_remove x (l ++ [x]) = l.
Proof.
  induction l as [|y t IH]; simpl; intros H.
  - rewrite String.eqb_refl. reflexivity.
  - destruct (String.eqb y x) eqn:E.
    + apply String.eqb_eq in E. subst. tauto.
    + rewrite IH by tauto. reflexivity.
Qed.

Lemma in_list_snoc x l : in_list x (l ++ [x]) = true.
Proof. apply in_list_In, in_app_iff. right. left. reflexivity. Qed.

Lemma with_sources_same config : with_sources config (sources config) = config.
Proof. destruct config. reflexivity. Qed.

Lemma sources_with_sources config d : sources (with_sources config d) = d.
Proof. reflexivity. Qed.

Lemma with_sources_twice config d d' :
  with_sources (with_sources config d) d' = with_sources config d'.
Proof. reflexivity. Qed.

(** What [add_source] leaves under its category. *)
Lemma add_source_get config category url :
  exists urls,
    dict_get (sources (add_source config category url)) category = Some urls
    /\ In url urls
    /\ (forall u, In u urls ->
          u = url \/ exists old, dict_get (sources config) category = Some old
                                 /\ In u old).
Proof.
  unfold add_source.
  destruct (dict_get (sources config) category) as [old|] eqn:E.
  - rewrite E. destruct (in_list url old) eqn:Ein.
    + exists old. rewrite sources_with_sources.
      split; [exact E|]. split; [apply in_list_In, Ein|].
      intros u Hu. right. exists old. auto.
    + exists (old ++ [url]). rewrite sources_with_sources, dict_get_set.
      rewrite String.eqb_refl. split; [reflexivity|].
      split; [apply in_app_iff; right; left; reflexivity|].
      intros u Hu. apply in_app_iff in Hu as [Hu|[<-|[]]]; [|left; reflexivity].
      right. exists old. auto.
  - rewrite dict_get_set, String.eqb_refl. simpl.
    exists [url]. rewrite ?sources_with_sources, dict_get_set, String.eqb_refl.
    split; [reflexivity|]. split; [left; reflexivity|].
    intros u [<-|[]]. left. reflexivity.
Qed.

(** After [add_source] the URL is listed under its category, the other
    categories are as before, and adding the same source again changes
    nothing; a source added under a lower-case category is among the
    sources of the topic of that name. *)
Theorem add_source_listed_once (config : Config) (category url : string) :
  (exists urls,
     dict_get (sources (add_source config category url)) category = Some urls
     /\ In url urls)
  /\ (forall other, other <> category ->
        dict_get (sources (add_source config category url)) other
        = dict_get (sources config) other)
  /\ add_source (add_source config category url) category url
     = add_source config category url
  /\ (Text.lower category = category ->
      In url (get_sources_for_topic (add_source config category url) category)).
Proof.
  split; [|split; [|split]].
  - destruct (add_source_get config category url) as (urls & H1 & H2 & _).
    exists urls. auto.
  - intros other Hne. apply String.eqb_neq in Hne.
    rewrite String.eqb_sym in Hne. unfold add_source.
    destruct (dict_get (sources config) category) as [old|] eqn:E.
    + rewrite E. destruct (in_list url old); rewrite sources_with_sources;
        [reflexivity|]. rewrite dict_get_set, Hne. reflexivity.
    + rewrite dict_get_set, String.eqb_refl. simpl.
      rewrite ?sources_with_sources, !dict_get_set, Hne. reflexivity.
  - destruct (add_source_get config category url) as (urls & H1 & H2 & _).
    unfold add_source at 1. cbv zeta. rewrite H1. cbv iota. rewrite H1.
    apply in_list_In in H2. rewrite H2.
    apply with_sources_same.
  - intros Hl.
    destruct (add_source_get config category url) as (urls & H1 & H2 & _).
    unfold get_sources_for_topic. rewrite Hl, H1. exact H2.
Qed.

(** Removing a source that was just added to an existing category
    which did not list it gives the configuration back. *)
Theorem remove_source_after_add (config : Config) (category url : string)
    (urls : list string) :
  dict_get (sources config) category = Some urls ->
  ~ In url urls ->
  remove_source (add_source config category url) category url = config.
Proof.
  intros Hget Hnin. unfold add_source. rewrite Hget, Hget.
  apply in_list_false in Hnin as Hf. rewrite Hf.
  unfold remove_source. rewrite sources_with_sources, dict_get_set.
  rewrite String.eqb_refl, in_list_snoc.
  rewrite with_sources_twice, dict_set_set, list_remove_snoc by exact Hnin.
  rewrite dict_set_same by exact Hget. apply with_sources_same.
Qed.

(** Every URL that [get_sources_for_topic] returns is configured under
    some category. *)
Theorem get_sources_for_topic_configured (config : Config) (topic url : string) :
  In url (get_sources_for_topic config topic) ->
  exists category urls,
    In (category, urls) (sources config) /\ In url urls.
Proof.
  assert (Hget : forall d k (v : list string),
            dict_get d k = Some v -> exists k', In (k', v) d).
  { induction d as [|[k0 v0] t IH]; simpl; [discriminate|]. intros k v.
    destruct (String.eqb k0 k).
    - intros [= ->]. exists k0. left. reflexivity.
    - intros H. destruct (IH _ _ H) as [k' Hk']. exists k'. right. exact Hk'. }
  unfold get_sources_for_topic.
  destruct (dict_get (sources config) (Text.lower topic)) as [urls|] eqn:E.
  - intros H. destruct (Hget _ _ _ E) as [k' Hk']. eauto.
  - cbv zeta.
    set (matches := flat_map _ (sources config)).
    assert (Hm : In url matches ->
                 exists category urls,
                   In (category, urls) (sources config) /\ In url urls).
    { unfold matches. rewrite in_flat_map. intros [[category urls] [Hin Hu]].
      destruct (_ || _); [eauto|destruct Hu]. }
    destruct matches as [|m ms] eqn:Em.
    + destruct (dict_get (sources config) "general") as [urls|] eqn:Eg;
        simpl; [|tauto].
      intros H. destruct (Hget _ _ _ Eg) as [k' Hk']. eauto.
    + exact Hm.
Qed.

End ConfigFacts.

Definition two_categories : Config :=
  mkConfig (mkPreferences [] 10 [] [] [])
           [("tech", ["https://a.example/feed"]); ("world", [])]
           3600 (mkLLMConfig "openai" None).

Lemma remove_source_after_add_witness :
  remove_source (add_source two_categories "tech" "https://b.example/feed")
    "tech" "https://b.example/feed" = two_categories.
Proof.
  apply (remove_source_after_add two_categories "tech" "https://b.example/feed"
           ["https://a.example/feed"]).
  - reflexivity.
  - simpl. intros [H|[]]. discriminate H.
Defined.

Lemma get_sources_for_topic_configured_witness :
  exists category urls,
    In (category, urls) (sources two_categories)
    /\ In "https://a.example/feed" urls.
Proof.
  apply (get_sources_for_topic_configured two_categories "Technology"
           "https://a.example/feed").
  simpl. left. reflexivity.
Defined.

Lemma add_source_listed_once_witness :
  In "https://b.example/feed"
     (get_sources_for_topic
        (add_source two_categories "science" "https://b.example/feed") "science").
Proof.
  apply (proj2 (proj2 (proj2 (add_source_listed_once two_categories "science"
                                "https://b.example/feed")))).
  reflexivity.
Defined.

(** A category with a capital letter is shadowed by the lower-case one:
    the source added under [Tech] is not among the sources of the topic
    [Tech].  And removing a source from a category created for it leaves
    the empty category behind. *)
Example add_source_capital_category :
  get_sources_for_topic
    (add_source two_categories "Tech" "https://b.example/feed") "Tech"
  = ["https://a.example/feed"]
  /\ sources (remove_source
                (add_source two_categories "science" "https://b.example/feed")
                "science" "https://b.example/feed")
     = [("tech", ["https://a.example/feed"]); ("world", []); ("science", [])].
Proof. split; reflexivity. Qed.

(* ===================================================================== *)
(** * More about the ranking                                               *)
(* ===================================================================== *)

Section LLMClientFacts.

Variable call_llm : list Article -> string -> option string.

Lemma parse_ranking_length (response : string) (indices : list N) :
  LLMClient._parse_ranking_response response = Some indices ->
  (List.length indices <= 5)%nat.
Proof.
  unfold LLMClient._parse_ranking_response.
  destruct (LLMClient.search_array response) as [inner|].
  - destruct (LLMClient.json_loads_array inner) as [l|]; [|discriminate].
    intros [= <-]. rewrite length_firstn. lia.
  - destruct (LLMClient.findall_numbers response) as [|n numbers];
      [discriminate|].
    intros H. apply length_mapM in H. rewrite <- H, length_firstn. lia.
Qed.

Lemma select_members (articles : list Article) (indices : list N) (a : Article) :
  In a (LLMClient.select articles indices) -> In a articles.
Proof.
  unfold LLMClient.select. rewrite <- !list_elem_of_In, list_elem_of_omap.
  intros (i & _ & Hi). eapply list_elem_of_lookup_2, Hi.
Qed.

Lemma select_length_le (articles : list Article) (indices : list N) :
  (List.length (LLMClient.select articles indices) <= List.length indices)%nat.
Proof.
  rewrite select_length. induction indices as [|i l IH]; simpl; [lia|].
  destruct (_ <? _)%N; simpl; lia.
Qed.

Lemma llm_rank_articles_members
    (config : Config) (articles : list Article) (topic : string)
    (ranked : list Article) :
  LLMClient.rank_articles call_llm config articles topic = Some ranked ->
  forall a, In a ranked -> In a articles.
Proof.
  unfold LLMClient.rank_articles.
  destruct (negb (LLMClient.is_available config)); [discriminate|].
  destruct (call_llm articles topic) as [[|c r]|]; try discriminate.
  destruct (LLMClient._parse_ranking_response (String c r)) as [[|i l]|];
    try discriminate.
  intros [= <-] a. apply select_members.
Qed.

(** What [LLMClient.rank_articles] returns was selected from its
    articles by the indices parsed from the response: at most five
    articles, each of them one of the articles handed in; and it returns
    nothing unless the client is configured. *)
Theorem llm_rank_articles_selected
    (config : Config) (articles : list Article) (topic : string)
    (ranked : list Article) :
  LLMClient.rank_articles call_llm config articles topic = Some ranked ->
  LLMClient.is_available config = true
  /\ (List.length ranked <= 5)%nat
  /\ (forall a, In a ranked -> In a articles)
  /\ exists response indices,
       call_llm articles topic = Some response
       /\ LLMClient._parse_ranking_response response = Some indices
       /\ ranked = LLMClient.select articles indices.
Proof.
  unfold LLMClient.rank_articles.
  destruct (LLMClient.is_available config); [|discriminate]. simpl.
  destruct (call_llm articles topic) as [[|c r]|]; try discriminate.
  destruct (LLMClient._parse_ranking_response (String c r)) as [[|i l]|] eqn:E;
    try discriminate.
  intros [= <-]. split; [reflexivity|]. split; [|split].
  - pose proof (select_length_le articles (i :: l)).
    pose proof (parse_ranking_length _ _ E). lia.
  - intros a. apply select_members.
  - exists (String c r), (i :: l). auto.
Qed.

End LLMClientFacts.

Definition ranker_config : Config :=
  mkConfig (mkPreferences ["news"] 10 [] ["rates"] ["sponsored"])
           [] 3600 (mkLLMConfig "openai" (Some "key")).

Definition ranker_articles : list Article :=
  [stub "Alpha" "https://site.example/1"; stub "Beta" "https://site.example/2";
   stub "Gamma" "https://site.example/3"].

Lemma llm_rank_articles_selected_witness :
  LLMClient.is_available ranker_config = true
  /\ (List.length [stub "Gamma" "https://site.example/3";
                   stub "Alpha" "https://site.example/1"] <= 5)%nat
  /\ (forall a, In a [stub "Gamma" "https://site.example/3";
                      stub "Alpha" "https://site.example/1"] ->
                In a ranker_articles)
  /\ exists response indices,
       (fun (_ : list Article) (_ : string) => Some "[2, 7, 0]")
         ranker_articles "news" = Some response
       /\ LLMClient._parse_ranking_response response = Some indices
       /\ [stub "Gamma" "https://site.example/3";
           stub "Alpha" "https://site.example/1"]
          = LLMClient.select ranker_articles indices.
Proof.
  apply (llm_rank_articles_selected (fun _ _ => Some "[2, 7, 0]")
           ranker_config ranker_articles "news").
  reflexivity.
Defined.

Lemma Qltb_asym (a b : Q) : Qltb a b = true -> Qltb b a = false.
Proof.
  unfold Qltb. rewrite negb_true_iff, negb_false_iff.
  intros H. apply Qle_bool_iff.
  destruct (Qlt_le_dec a b) as [Hlt|Hle]; [apply Qlt_le_weak, Hlt|].
  apply Qle_bool_iff in Hle. congruence.
Qed.

Lemma Qnot_ltb_trans (a b c : Q) :
  Qltb a b = false -> Qltb b c = false -> Qltb a c = false.
Proof.
  unfold Qltb. rewrite !negb_false_iff, !Qle_bool_iff.
  intros H1 H2. eapply Qle_trans; eassumption.
Qed.

Lemma sorted_app_below {A} (R : A -> A -> Prop) (l1 l2 : list A) :
  StronglySorted R (l1 ++ l2) ->
  forall x y, In x l1 -> In y l2 -> R x y.
Proof.
  induction l1 as [|a t IH]; simpl; intros Hs x y Hx Hy; [destruct Hx|].
  inversion Hs as [|? ? Ht Hall]; subst.
  destruct Hx as [<-|Hx]; [|eapply IH; eassumption].
  rewrite List.Forall_forall in Hall. apply Hall, in_app_iff. right. exact Hy.
Qed.

Section RankArticlesFacts.

Variable date_parse : string -> option DateTime.
Variable call_llm : list Article -> string -> option string.

Abbreviation score_of config now topic :=
  (heuristic_score date_parse config now topic).

(** The scored items, best first. *)
Definition ranked_scores (config : Config) (now : Z) (topic : string)
    (items : list Article) : list (Article * Q) :=
  sort_desc Qltb snd
    (map (fun item => (item, score_of config now topic item)) items).

Lemma ranked_scores_perm config now topic items :
  Permutation (ranked_scores config now topic items)
    (map (fun item => (item, score_of config now topic item)) items).
Proof. apply sort_desc_perm. Qed.

Lemma ranked_scores_item config now topic items x :
  In x (ranked_scores config now topic items) ->
  In (fst x) items /\ snd x = score_of config now topic (fst x).
Proof.
  intros H. apply (Permutation_in _ (ranked_scores_perm _ _ _ _)) in H.
  apply in_map_iff in H as (item & <- & Hin). auto.
Qed.

Lemma ranked_scores_sorted config now topic items :
  StronglySorted
    (fun x y => (score_of config now topic (fst y)
                 <= score_of config now topic (fst x))%Q)
    (ranked_scores config now topic items).
Proof.
  eapply sorted_impl;
    [|apply (sort_desc_sorted Qltb snd Qltb_asym Qnot_ltb_trans)].
  intros x y Hx Hy Hxy. unfold not_below, Qltb in Hxy.
  apply negb_false_iff, Qle_bool_iff in Hxy.
  destruct (ranked_scores_item _ _ _ _ _ Hx) as [_ <-].
  destruct (ranked_scores_item _ _ _ _ _ Hy) as [_ <-]. exact Hxy.
Qed.

Lemma top_candidates_ranked config now topic items :
  top_candidates date_parse config now topic items
  = map fst (firstn 15 (ranked_scores config now topic items)).
Proof. reflexivity. Qed.

Lemma top_candidates_members config now topic items a :
  In a (top_candidates date_parse config now topic items) -> In a items.
Proof.
  rewrite top_candidates_ranked, in_map_iff. intros (x & <- & Hx).
  apply firstn_elem in Hx. apply (ranked_scores_item _ _ _ _ _ Hx).
Qed.

Lemma top_candidates_length config now topic items :
  List.length (top_candidates date_parse config now topic items)
  = Nat.min 15 (List.length items).
Proof.
  rewrite top_candidates_ranked, length_map, length_firstn.
  rewrite (Permutation_length (ranked_scores_perm _ _ _ _)), length_map.
  reflexivity.
Qed.

(** The ranking holds at most five articles, each of them one of the
    items, and it is empty only for no items at all. *)
Theorem rank_articles_selection
    (config : Config) (now : Z) (items : list Article) (topic : string) :
  let ranking := rank_articles date_parse call_llm config now items topic in
  (List.length ranking <= 5)%nat
  /\ (forall a, In a ranking -> In a items)
  /\ (ranking = [] <-> items = []).
Proof.
  cbv zeta. destruct items as [|item items];
    [simpl; split; [lia|split; tauto]|].
  unfold rank_articles.
  set (candidates := top_candidates date_parse config now topic (item :: items)).
  assert (Hne : candidates <> []).
  { intros H. apply (f_equal (@List.length _)) in H. unfold candidates in H.
    rewrite top_candidates_length in H. simpl in H. lia. }
  destruct (if LLMClient.is_available config
            then LLMClient.rank_articles call_llm config candidates topic
            else None) as [[|a l]|] eqn:E.
  - split; [rewrite length_firstn; lia|]. split.
    + intros a Ha. apply firstn_elem in Ha.
      eapply top_candidates_members, Ha.
    + split; [|discriminate]. destruct candidates; [congruence|discriminate].
  - split; [rewrite length_firstn; lia|]. split; [|split; discriminate].
    intros b Hb. apply firstn_elem in Hb.
    destruct (LLMClient.is_available config); [|discriminate].
    pose proof (llm_rank_articles_members _ _ _ _ _ E) as Hm.
    eapply top_candidates_members, Hm, Hb.
  - split; [rewrite length_firstn; lia|]. split.
    + intros a Ha. apply firstn_elem in Ha.
      eapply top_candidates_members, Ha.
    + split; [|discriminate]. destruct candidates; [congruence|discriminate].
Qed.

End RankArticlesFacts.

Definition keyword_config : Config :=
  mkConfig (mkPreferences ["news"] 10 [] ["rates"] ["sponsored"])
           [] 3600 (mkLLMConfig "openai" None).

Definition keyword_items : list Article :=
  [stub "Sponsored: rates" "https://site.example/1";
   stub "Weather" "https://site.example/2";
   stub "Rates cut" "https://site.example/3"].

Example rank_articles_keywords :
  rank_articles RankRun.date_parse (fun _ _ => None) keyword_config
    FeedRun.now keyword_items "markets"
  = [stub "Rates cut" "https://site.example/3";
     stub "Weather" "https://site.example/2";
     stub "Sponsored: rates" "https://site.example/1"].
Proof. vm_compute. reflexivity. Qed.

(* ===================================================================== *)
(** * The ranking by the scores of the loop                                *)
(* ===================================================================== *)

(** The descending sort of elements on whose keys [<] is asymmetric and
    has a transitive negation. *)
Section SortOn.

Context {A K : Type}.
Variable ltb : K -> K -> bool.
Variable key : A -> K.
Variable ok : A -> Prop.

Hypothesis ltb_asym_on :
  forall x y, ok x -> ok y ->
    ltb (key x) (key y) = true -> ltb (key y) (key x) = false.
Hypothesis not_ltb_trans_on :
  forall x y z, ok x -> ok y -> ok z ->
    ltb (key x) (key y) = false -> ltb (key y) (key z) = false ->
    ltb (key x) (key z) = false.

Lemma insert_desc_sorted_on (x : A) (l : list A) :
  ok x -> Forall ok l ->
  StronglySorted (not_below ltb key) l ->
  StronglySorted (not_below ltb key) (insert_desc ltb key x l).
Proof.
  intros Hx Hok Hs. induction Hs as [|y t Hsorted IH Hall]; simpl.
  - repeat constructor.
  - apply Forall_cons in Hok as [Hy Hok].
    destruct (ltb (key x) (key y)) eqn:E.
    + constructor; [apply IH, Hok|].
      apply Forall_forall. intros z Hz.
      apply list_elem_of_In in Hz.
      apply (Permutation_in _ (insert_desc_perm _ _ x t)) in Hz as [<-|Hz].
      * apply ltb_asym_on; assumption.
      * rewrite Forall_forall in Hall. apply Hall, list_elem_of_In, Hz.
    + constructor; [constructor; assumption|].
      constructor; [exact E|].
      apply Forall_forall. intros z Hz.
      rewrite Forall_forall in Hall, Hok.
      apply (not_ltb_trans_on x y z); auto. apply Hall, Hz.
Qed.

Lemma sort_desc_sorted_on (l : list A) :
  Forall ok l -> StronglySorted (not_below ltb key) (sort_desc ltb key l).
Proof.
  induction l as [|x t IH]; simpl; [constructor|].
  intros Hok. apply Forall_cons in Hok as [Hx Hok].
  apply insert_desc_sorted_on; [exact Hx| |apply IH, Hok].
  rewrite (sort_desc_perm ltb key t). exact Hok.
Qed.

End SortOn.

(** The scores of [rank_articles] are floats, and the sort compares them
    with [<].  Here the score that the loop leaves for an item and the
    comparison are taken as they are given. *)

Section RankArticlesBy.

Context {K : Type}.
(** The score that the body of [for item in items] computes for an item. *)
Variable score_item : Article -> K.
(** [<] on these scores. *)
Variable score_ltb : K -> K -> bool.
Variable call_llm : list Article -> string -> option string.

(** [scored_items] after [scored_items.sort(key=lambda x: x[1],
    reverse=True)]. *)
Definition sorted_scores (items : list Article) : list (Article * K) :=
  sort_desc score_ltb snd (map (fun item => (item, score_item item)) items).

(** [[item for item, score in scored_items[:15]]]. *)
Definition top_candidates_by (items : list Article) : list Article :=
  map fst (firstn 15 (sorted_scores items)).

(** tools.py, [rank_articles], after the scoring loop. *)
Definition rank_articles_by (config : Config) (items : list Article)
    (topic : string) : list Article :=
  match items with
  | [] => []
  | _ =>
      let top_candidates := top_candidates_by items in
      let reranked :=
        if LLMClient.is_available config
        then LLMClient.rank_articles call_llm config top_candidates topic
        else None in
      match reranked with
      | Some (a :: l) => firstn 5 (a :: l)
      | _ => firstn 5 top_candidates
      end
  end.

(** The scores that can come out of the loop: a float that is not NaN.
    On them [<] is asymmetric and its negation is transitive. *)
Variable is_score : K -> Prop.
Hypothesis score_item_is_score : forall item, is_score (score_item item).
Hypothesis score_ltb_asym :
  forall a b, is_score a -> is_score b ->
    score_ltb a b = true -> score_ltb b a = false.
Hypothesis score_not_ltb_trans :
  forall a b c, is_score a -> is_score b -> is_score c ->
    score_ltb a b = false -> score_ltb b c = false -> score_ltb a c = false.

Lemma sorted_scores_perm items :
  Permutation (sorted_scores items)
    (map (fun item => (item, score_item item)) items).
Proof. apply sort_desc_perm. Qed.

Lemma sorted_scores_item items x :
  In x (sorted_scores items) -> In (fst x) items /\ snd x = score_item (fst x).
Proof.
  intros H. apply (Permutation_in _ (sorted_scores_perm _)) in H.
  apply in_map_iff in H as (item & <- & Hin). auto.
Qed.

Lemma sorted_scores_sorted items :
  StronglySorted
    (fun x y => score_ltb (score_item (fst x)) (score_item (fst y)) = false)
    (sorted_scores items).
Proof.
  eapply sorted_impl;
    [|apply (sort_desc_sorted_on score_ltb snd (fun x => is_score (snd x)))].
  - intros x y Hx Hy Hxy. unfold not_below in Hxy.
    destruct (sorted_scores_item _ _ Hx) as [_ <-].
    destruct (sorted_scores_item _ _ Hy) as [_ <-]. exact Hxy.
  - intros x y. apply score_ltb_asym.
  - intros x y z. apply score_not_ltb_trans.
  - apply Forall_forall. intros x Hx.
    apply list_elem_of_In, in_map_iff in Hx as (item & <- & _).
    apply score_item_is_score.
Qed.

Lemma rank_articles_by_fallback config items topic :
  LLMClient.rank_articles call_llm config (top_candidates_by items) topic = None ->
  rank_articles_by config items topic
  = map fst (firstn 5 (sorted_scores items)).
Proof.
  intros Hnone. unfold rank_articles_by. rewrite Hnone.
  assert (H : firstn 5 (top_candidates_by items)
              = map fst (firstn 5 (sorted_scores items))).
  { unfold top_candidates_by. rewrite <- firstn_map, <- firstn_map.
    rewrite firstn_firstn. reflexivity. }
  destruct items as [|item items]; [reflexivity|].
  destruct (LLMClient.is_available config); exact H.
Qed.

(** When the language model gives no ranking, the result is in the order
    of the scores that the loop computed, best first, and no item left
    out has a higher score than an item returned. *)
Theorem rank_articles_heuristic_order
    (config : Config) (items : list Article) (topic : string) :
  LLMClient.rank_articles call_llm config (top_candidates_by items) topic = None ->
  let ranking := rank_articles_by config items topic in
  StronglySorted
    (fun a b => score_ltb (score_item a) (score_item b) = false) ranking
  /\ (forall a b, In a ranking -> In b items -> ~ In b ranking ->
        score_ltb (score_item a) (score_item b) = false).
Proof.
  intros Hnone. cbv zeta. rewrite (rank_articles_by_fallback _ _ _ Hnone).
  pose proof (sorted_scores_sorted items) as Hs.
  split.
  - apply map_sorted, firstn_sorted, Hs.
  - intros a b Ha Hb Hnb.
    apply in_map_iff in Ha as (x & <- & Hx).
    assert (Hy : In (b, score_item b) (sorted_scores items)).
    { apply (Permutation_in _ (Permutation_sym (sorted_scores_perm _))).
      apply in_map_iff. exists b. auto. }
    rewrite <- (firstn_skipn 5 (sorted_scores items)) in Hy, Hs.
    apply in_app_iff in Hy as [Hy|Hy].
    + exfalso. apply Hnb. apply in_map_iff.
      exists (b, score_item b). auto.
    + exact (sorted_app_below _ _ _ Hs _ _ Hx Hy).
Qed.

End RankArticlesBy.

(** The embedding of [rank_articles] with the scores written out is the
    one above at these scores. *)
Lemma rank_articles_by_scores date_parse call_llm config now items topic :
  rank_articles date_parse call_llm config now items topic
  = rank_articles_by (heuristic_score date_parse config now topic) Qltb
                     call_llm config items topic.
Proof. reflexivity. Qed.

Lemma rank_articles_heuristic_order_witness :
  let ranking :=
    rank_articles_by
      (heuristic_score RankRun.date_parse keyword_config FeedRun.now "markets")
      Qltb (fun _ _ => None) keyword_config keyword_items "markets" in
  StronglySorted
    (fun a b =>
       Qltb (heuristic_score RankRun.date_parse keyword_config FeedRun.now
               "markets" a)
            (heuristic_score RankRun.date_parse keyword_config FeedRun.now
               "markets" b) = false)
    ranking
  /\ (forall a b, In a ranking -> In b keyword_items -> ~ In b ranking ->
        Qltb (heuristic_score RankRun.date_parse keyword_config FeedRun.now
                "markets" a)
             (heuristic_score RankRun.date_parse keyword_config FeedRun.now
                "markets" b) = false).
Proof.
  apply (rank_articles_heuristic_order
           (heuristic_score RankRun.date_parse keyword_config FeedRun.now "markets")
           Qltb (fun _ _ => None) (fun _ => True) (fun _ => I)
           (fun a b _ _ => Qltb_asym a b)
           (fun a b c _ _ _ => Qnot_ltb_trans a b c)
           keyword_config keyword_items "markets").
  reflexivity.
Defined.

(* ===================================================================== *)
(** * More about search_feeds                                              *)
(* ===================================================================== *)

Lemma slice_to_sublist {A} (l : list A) (n : Z) : slice_to l n `sublist_of` l.
Proof. unfold slice_to. destruct (0 <=? n)%Z; apply sublist_take. Qed.

Lemma slice_to_length {A} (l : list A) (n : Z) :
  (0 <= n)%Z -> (Z.of_nat (List.length (slice_to l n)) <= n)%Z.
Proof.
  intros H. unfold slice_to. apply Z.leb_le in H as Hb. rewrite Hb.
  rewrite length_firstn. lia.
Qed.

Lemma sublist_Forall {A} (P : A -> Prop) (l k : list A) :
  l `sublist_of` k -> Forall P k -> Forall P l.
Proof.
  intros Hsub. rewrite !Forall_forall. intros H x Hx.
  apply H. eapply elem_of_sublist; eassumption.
Qed.

Section DeduplicateSublist.

Variable charref_sub : string -> string.

Lemma deduplicate_articles_sublist l :
  deduplicate_articles charref_sub l `sublist_of` l.
Proof.
  rewrite deduplicate_articles_dedup_from.
  destruct (dedup_from_extends charref_sub [] l) as (rest & -> & Hsub).
  exact Hsub.
Qed.

Lemma deduplicate_articles_NoDup l :
  NoDup (nonempty_urls (deduplicate_articles charref_sub l)).
Proof.
  rewrite deduplicate_articles_dedup_from. apply dedup_from_NoDup. constructor.
Qed.

End DeduplicateSublist.

Lemma nonempty_urls_perm l k :
  Permutation l k -> Permutation (nonempty_urls l) (nonempty_urls k).
Proof.
  intros H. unfold nonempty_urls.
  induction H as [|x l k _ IH|x y l|l k m _ IH1 _ IH2]; simpl.
  - reflexivity.
  - destruct (negb _); [constructor|]; exact IH.
  - destruct (negb (Str.is_empty (normalized_url_of y))),
             (negb (Str.is_empty (normalized_url_of x)));
      try reflexivity. apply perm_swap.
  - etransitivity; eassumption.
Qed.

Lemma nonempty_urls_sublist l k :
  l `sublist_of` k -> nonempty_urls l `sublist_of` nonempty_urls k.
Proof.
  intros H. unfold nonempty_urls.
  induction H as [|x l k _ IH|x l k _ IH]; simpl.
  - constructor.
  - destruct (negb _); [apply sublist_skip|]; exact IH.
  - destruct (negb _); [apply sublist_cons|]; exact IH.
Qed.

(** An article that the domain filter lets through. *)
Definition allowed (config : Config) (article : Article) : bool :=
  negb (in_list (default "" (domain article))
                (exclude_domains (preferences config))).

(** Every article list in the cache holds allowed articles only. *)
Definition cache_allowed (config : Config) (cache : gmap string FeedDoc) : Prop :=
  forall path ts l,
    cache !! path = Some (DocDict ts (Some l)) -> Forall (fun a => allowed config a = true) l.

Section SearchFeedsFacts.

Variable charref_sub : string -> string.
Variable netloc_of : string -> option string.
Variable date_parse : string -> option DateTime.
Variable isoformat : DateTime -> string.
Variable fromisoformat : string -> option DateTime.
Variable exn_str : exn -> string.
Variable http_get : string -> HttpResult.
Variable feedparser_parse : string -> Feed.

Abbreviation step :=
  (feed_step charref_sub netloc_of date_parse isoformat fromisoformat exn_str
             http_get feedparser_parse).
Abbreviation search :=
  (search_feeds charref_sub netloc_of date_parse isoformat fromisoformat
                exn_str http_get feedparser_parse).

(** The loop over the feeds. *)
Definition feed_loop (config : Config) (now : Z) (cache : gmap string FeedDoc)
    (feed_urls : list string) : FeedLoop :=
  fold_left (step config now) (firstn 5 feed_urls) (mkFeedLoop cache [] []).

Lemma search_feeds_loop config now cache topic sources_arg limit :
  search config now cache topic sources_arg limit =
  let feed_urls := resolve_feed_urls config topic sources_arg in
  match feed_urls with
  | [] =>
      (cache, Return (NoSources "No sources found for the given topic or criteria"))
  | _ =>
      let st := feed_loop config now cache feed_urls in
      match sort_by_published (deduplicate_articles charref_sub (fl_articles st)) with
      | Raise e => (fl_cache st, Raise e)
      | Return articles =>
          (fl_cache st,
           Return (Found (slice_to articles limit)
                     (List.length (slice_to articles limit)) feed_urls
                     (fl_errors st) topic (isoformat (naive now))))
      end
  end.
Proof. reflexivity. Qed.

(** One iteration touches the cache file of its feed only. *)
Lemma feed_step_frame config now st feed_url path :
  path <> feed_cache_path feed_url ->
  fl_cache (step config now st feed_url) !! path = fl_cache st !! path.
Proof.
  intros Hne. unfold feed_step.
  destruct (cache_read _ _ _ _ _); try reflexivity.
  destruct (http_get feed_url); [|reflexivity].
  destruct (_ && _); [reflexivity|]. simpl.
  apply lookup_insert_ne. congruence.
Qed.

Lemma feed_fold_frame config now feed_urls st path :
  ~ In path (map feed_cache_path feed_urls) ->
  fl_cache (fold_left (step config now) feed_urls st) !! path
  = fl_cache st !! path.
Proof.
  revert st. induction feed_urls as [|u us IH]; intros st Hnin; [reflexivity|].
  simpl in *. rewrite IH by tauto. apply feed_step_frame. intros ->. tauto.
Qed.

(** A hit of the cache check is the payload, cut. *)
Lemma cache_read_hit {P R} (payload_of : P -> option R) now ttl file r :
  cache_read fromisoformat payload_of now ttl file = CacheHit r ->
  exists ts payload, file = Some (DocDict ts payload) /\ payload_of payload = Some r.
Proof.
  unfold cache_read. destruct file as [[| |ts payload]|]; try discriminate.
  destruct (timestamp_fresh _ _ _ _); try discriminate.
  destruct (payload_of payload) eqn:E; [|discriminate].
  intros [= <-]. eauto.
Qed.

Lemma feed_articles_of_allowed config now feed_url feed :
  Forall (fun a => allowed config a = true)
    (feed_articles_of charref_sub netloc_of date_parse isoformat config now
       feed_url feed).
Proof.
  unfold feed_articles_of. apply List.Forall_forall. intros a Ha.
  apply filter_In in Ha as [_ Ha]. exact Ha.
Qed.

Lemma feed_step_allowed config now st feed_url :
  cache_allowed config (fl_cache st) ->
  Forall (fun a => allowed config a = true) (fl_articles st) ->
  cache_allowed config (fl_cache (step config now st feed_url))
  /\ Forall (fun a => allowed config a = true)
       (fl_articles (step config now st feed_url)).
Proof.
  intros Hc Ha. unfold feed_step.
  destruct (cache_read _ _ _ _ _) as [cached| |e] eqn:E; simpl.
  - split; [exact Hc|]. apply Forall_app. split; [exact Ha|].
    apply cache_read_hit in E as (ts & payload & Hfile & Hp).
    destruct payload as [l|]; [|discriminate]. injection Hp as <-.
    eapply sublist_Forall; [apply slice_to_sublist|]. eapply Hc, Hfile.
  - destruct (http_get feed_url); [|split; assumption].
    destruct (_ && _); [split; assumption|]. simpl. split.
    + intros path ts l. destruct (decide (feed_cache_path feed_url = path)) as [<-|Hne].
      * rewrite lookup_insert_eq. intros [= <- <-]. apply feed_articles_of_allowed.
      * rewrite lookup_insert_ne by exact Hne. apply Hc.
    + apply Forall_app. split; [exact Ha|apply feed_articles_of_allowed].
  - split; assumption.
Qed.

Lemma feed_fold_allowed config now feed_urls st :
  cache_allowed config (fl_cache st) ->
  Forall (fun a => allowed config a = true) (fl_articles st) ->
  cache_allowed config (fl_cache (fold_left (step config now) feed_urls st))
  /\ Forall (fun a => allowed config a = true)
       (fl_articles (fold_left (step config now) feed_urls st)).
Proof.
  revert st. induction feed_urls as [|u us IH]; intros st Hc Ha; [auto|].
  simpl. destruct (feed_step_allowed config now st u Hc Ha) as [Hc' Ha'].
  apply IH; assumption.
Qed.

(** What [search_feeds] returns is taken from the gathered articles. *)
Lemma search_feeds_articles config now cache topic sources_arg limit r :
  (search config now cache topic sources_arg limit).2 = Return r ->
  exists sorted,
    Permutation sorted
      (deduplicate_articles charref_sub
         (fl_articles (feed_loop config now cache
                         (resolve_feed_urls config topic sources_arg))))
    /\ sr_articles r = slice_to sorted limit
    /\ (resolve_feed_urls config topic sources_arg = [] -> sorted = []).
Proof.
  rewrite search_feeds_loop. cbv zeta.
  destruct (resolve_feed_urls config topic sources_arg) as [|u us] eqn:Eu.
  - simpl. intros [= <-]. exists []. simpl.
    split; [|split; [unfold slice_to; destruct (0 <=? limit)%Z;
                     symmetry; apply firstn_nil|reflexivity]].
    unfold feed_loop. simpl. reflexivity.
  - destruct (sort_by_published _) as [sorted|e] eqn:Es; simpl; [|discriminate].
    intros [= <-]. exists sorted. simpl.
    apply sort_by_published_sorted in Es as [Hp _].
    split; [exact Hp|]. split; [reflexivity|discriminate].
Qed.



(** A call changes no cache file but those of the first five feed
    URLs; the dictionary it returns counts its articles, holds at most
    [limit] of them for a [limit] that is not negative, and no two of
    them share a non-empty normalized URL. *)
Theorem search_feeds_frame_and_shape
    (config : Config) (now : Z) (cache : gmap string FeedDoc)
    (topic : option string) (sources_arg : option (list string)) (limit : Z) :
  let run := search config now cache topic sources_arg limit in
  (forall path,
     ~ In path (map feed_cache_path
                  (firstn 5 (resolve_feed_urls config topic sources_arg))) ->
     run.1 !! path = cache !! path)
  /\ (forall articles total used errors topic' stamp,
        run.2 = Return (Found articles total used errors topic' stamp) ->
        total = List.length articles
        /\ used = resolve_feed_urls config topic sources_arg
        /\ used <> []
        /\ ((0 <= limit)%Z -> (Z.of_nat (List.length articles) <= limit)%Z)
        /\ NoDup (nonempty_urls articles)).
Proof.
  cbv zeta. split.
  - intros path Hnin. rewrite search_feeds_loop. cbv zeta.
    destruct (resolve_feed_urls config topic sources_arg) as [|u us] eqn:Eu;
      [reflexivity|].
    assert (Hf : fl_cache (feed_loop config now cache (u :: us)) !! path
                 = cache !! path)
      by (apply (feed_fold_frame config now _ (mkFeedLoop cache [] [])), Hnin).
    destruct (sort_by_published _); exact Hf.
  - intros articles total used errors topic' stamp Hrun.
    pose proof (search_feeds_articles _ _ _ _ _ _ _ Hrun)
      as (sorted & Hperm & Hart & _).
    simpl in Hart. subst articles.
    rewrite search_feeds_loop in Hrun. cbv zeta in Hrun.
    destruct (resolve_feed_urls config topic sources_arg) as [|u us] eqn:Eu;
      [discriminate Hrun|].
    destruct (sort_by_published _) as [sorted'|e]; [|discriminate Hrun].
    simpl in Hrun. injection Hrun as Hs <- <- _ _ _.
    split; [rewrite <- Hs; reflexivity|]. split; [reflexivity|].
    split; [discriminate|]. split; [apply slice_to_length|].
    eapply sublist_NoDup; [|apply nonempty_urls_sublist, slice_to_sublist].
    rewrite (nonempty_urls_perm _ _ Hperm). apply deduplicate_articles_NoDup.
Qed.

(** When every article list in the cache holds allowed articles only,
    no article returned has an excluded domain, and the cache is left in
    the same condition. *)
Theorem search_feeds_excludes_domains
    (config : Config) (now : Z) (cache : gmap string FeedDoc)
    (topic : option string) (sources_arg : option (list string)) (limit : Z) :
  cache_allowed config cache ->
  cache_allowed config (search config now cache topic sources_arg limit).1
  /\ (forall r,
        (search config now cache topic sources_arg limit).2 = Return r ->
        Forall (fun a => allowed config a = true) (sr_articles r)).
Proof.
  intros Hc.
  destruct (feed_fold_allowed config now
              (firstn 5 (resolve_feed_urls config topic sources_arg))
              (mkFeedLoop cache [] []) Hc (Forall_nil_2 _)) as [Hc' Ha'].
  fold (feed_loop config now cache (resolve_feed_urls config topic sources_arg))
    in Hc', Ha'.
  split.
  - rewrite search_feeds_loop. cbv zeta.
    destruct (resolve_feed_urls config topic sources_arg) as [|u us];
      [exact Hc|].
    destruct (sort_by_published _); exact Hc'.
  - intros r Hr.
    destruct (search_feeds_articles _ _ _ _ _ _ _ Hr) as (sorted & Hperm & -> & _).
    eapply sublist_Forall; [apply slice_to_sublist|].
    rewrite Hperm.
    eapply sublist_Forall; [apply deduplicate_articles_sublist|exact Ha'].
Qed.

End SearchFeedsFacts.

(* ===================================================================== *)
(** * A run of search_feeds with an excluded domain and a cached feed      *)
(* ===================================================================== *)

Module AllowRun.

Definition feed_url : string := "https://feed.example/rss".
Definition cached_feed_url : string := "https://other.example/rss".

Definition morning : string := "Mon, 01 Jan 2024 10:00:00 GMT".
Definition noon : string := "Mon, 01 Jan 2024 12:00:00 GMT".

Definition morning_entry : Entry :=
  mkEntry (Some "Alpha") (Some "https://site.example/1") (Some "first")
          (Some morning) None None [].

Definition blocked_entry : Entry :=
  mkEntry (Some "Beta") (Some "https://blocked.example/2") (Some "second")
          (Some noon) None None [].

Definition noon_entry : Entry :=
  mkEntry (Some "Gamma") (Some "https://site.example/3") (Some "third")
          (Some noon) None None [].

Definition feed : Feed :=
  mkFeed false (Some "Example") [morning_entry; blocked_entry; noon_entry].

(** 1 January 2024, 12:00:00 UTC. *)
Definition new_year_12h : Z := (FeedRun.new_year_10h + 7200 * micros_per_second)%Z.

Definition date_parse (s : string) : option DateTime :=
  if String.eqb s morning then Some (mkDateTime FeedRun.new_year_10h (Some 0%Z))
  else if String.eqb s noon then Some (mkDateTime new_year_12h (Some 0%Z))
  else None.

Definition isoformat (d : DateTime) : string :=
  if (wall d =? FeedRun.new_year_10h)%Z then "2024-01-01T10:00:00+00:00"
  else if (wall d =? new_year_12h)%Z then "2024-01-01T12:00:00+00:00"
  else "2024-01-02T00:00:00".

Definition http_get (u : string) : HttpResult :=
  if String.eqb u feed_url then HttpOk "<rss/>"
  else HttpError (RequestError "unreachable").

Definition feedparser_parse (content : string) : Feed := feed.

Definition netloc_of (u : string) : option string :=
  if Str.startswith "https://blocked.example" u then Some "blocked.example"
  else if Str.startswith "https://site.example" u then Some "site.example"
  else Some "feed.example".

(** The configuration excludes one domain and lists two feeds. *)
Definition config : Config :=
  mkConfig (mkPreferences ["news"] 10 ["blocked.example"] [] [])
           [("news", [feed_url; cached_feed_url])] 3600
           (mkLLMConfig "openai" None).

(** An article of a cache file, written without the key ['published']. *)
Definition cached_article : Article :=
  mkArticle "Delta" "https://site.example/4" "fourth" Missing "" (Some "Other")
            cached_feed_url (Some "site.example") [] "2024-01-02T00:00:00" None.

(** The cache holds the second feed, just written. *)
Definition cache : gmap string FeedDoc :=
  {[ feed_cache_path cached_feed_url :=
       DocDict (TsStr "2024-01-02T00:00:00") (Some [cached_article]) ]}.

Definition article (entry : Entry) : Article :=
  article_of_entry (fun s => s) netloc_of date_parse isoformat FeedRun.now
                   feed_url feed entry.

Definition run (limit : Z) :=
  search_feeds (fun s => s) netloc_of date_parse isoformat
               FeedRun.fromisoformat FeedRun.exn_str http_get feedparser_parse
               config FeedRun.now cache (Some "news") None limit.

End AllowRun.

(** The run returns the two fresh articles of the allowed domain, the
    later one first, then the cached article without a date; the entry of
    the excluded domain is not among them. *)
Example allow_run_found :
  (AllowRun.run 10).2
  = Return (Found [AllowRun.article AllowRun.noon_entry;
                   AllowRun.article AllowRun.morning_entry;
                   AllowRun.cached_article]
                  3 [AllowRun.feed_url; AllowRun.cached_feed_url] []
                  (Some "news") "2024-01-02T00:00:00")
  /\ domain (AllowRun.article AllowRun.blocked_entry) = Some "blocked.example"
  /\ map date_key [AllowRun.article AllowRun.noon_entry;
                   AllowRun.article AllowRun.morning_entry;
                   AllowRun.cached_article]
     = ["2024-01-01T12:00:00+00:00"; "2024-01-01T10:00:00+00:00"; ""]
  /\ sr_articles match (AllowRun.run 2).2 with
                  | Return r => r
                  | Raise _ => NoSources ""
                  end
     = [AllowRun.article AllowRun.noon_entry;
        AllowRun.article AllowRun.morning_entry].
Proof. repeat split; vm_compute; reflexivity. Qed.

Lemma search_feeds_excludes_domains_witness :
  cache_allowed AllowRun.config (AllowRun.run 10).1
  /\ (forall r,
        (AllowRun.run 10).2 = Return r ->
        Forall (fun a => allowed AllowRun.config a = true) (sr_articles r)).
Proof.
  unfold AllowRun.run.
  apply (search_feeds_excludes_domains (fun s => s) AllowRun.netloc_of
           AllowRun.date_parse AllowRun.isoformat FeedRun.fromisoformat
           FeedRun.exn_str AllowRun.http_get AllowRun.feedparser_parse
           AllowRun.config FeedRun.now AllowRun.cache (Some "news") None 10).
  intros path ts l H. unfold AllowRun.cache in H.
  apply lookup_singleton_Some in H as [_ [= <- <-]].
  repeat constructor.
Defined.


(* ===================================================================== *)
(** * More about fetch_article                                             *)
(* ===================================================================== *)

Section FetchArticleFacts.

Variable charref_sub : string -> string.
Variable netloc_of : string -> option string.
Variable isoformat : DateTime -> string.
Variable fromisoformat : string -> option DateTime.
Variable exn_str : exn -> string.
Variable http_get : string -> HttpResult.
Variable trafilatura_extract : string -> string -> option string.
Variable json_loads : string -> option TrafJson.
Variable readability : string -> result Readable.

Abbreviation fetch :=
  (fetch_article charref_sub netloc_of isoformat fromisoformat exn_str http_get
                 trafilatura_extract json_loads readability).

Lemma primary_extraction_long url html_content d :
  primary_extraction netloc_of trafilatura_extract json_loads url html_content
  = Some d ->
  ad_extraction_method d = "trafilatura"
  /\ (200 < String.length (ad_text d))%nat
  /\ ad_url d = url
  /\ ad_domain d = extract_domain netloc_of url.
Proof.
  unfold primary_extraction.
  destruct (trafilatura_extract html_content url) as [[|c s]|]; try discriminate.
  destruct (json_loads (String c s)) as [content_json|]; [|discriminate].
  cbv zeta. destruct (200 <? _)%nat eqn:E; [|discriminate].
  intros [= <-]. simpl. apply Nat.ltb_lt in E. auto.
Qed.

Lemma extract_stages_method url html_content d :
  extract_stages charref_sub netloc_of trafilatura_extract json_loads
    readability url html_content = Return (Some d) ->
  ad_url d = url
  /\ ad_domain d = extract_domain netloc_of url
  /\ ((ad_extraction_method d = "trafilatura"
       /\ (200 < String.length (ad_text d))%nat)
      \/ (ad_extraction_method d = "readability"
          /\ ad_language d = ""
          /\ primary_extraction netloc_of trafilatura_extract json_loads
               url html_content = None)).
Proof.
  unfold extract_stages.
  destruct (primary_extraction _ _ _ url html_content) as [p|] eqn:Ep.
  - intros [= <-]. apply primary_extraction_long in Ep as (H1 & H2 & H3 & H4).
    auto.
  - destruct (readability html_content) as [r|e]; [|discriminate].
    intros [= <-]. simpl. auto 6.
Qed.

(** How [fetch_article] ends, for a URL that can be encoded and cache
    files that can be read and written.  An exception that the cache check
    lets through leaves the cache as it was, and so do a cached dictionary
    and a failure; a failure names the normalized URL; an extracted article
    is written to the cache file of the normalized URL, carries that URL,
    and is marked [trafilatura] only with a text of more than 200
    characters, [readability] otherwise. *)
Theorem fetch_article_outcomes
    (config : Config) (now : Z) (cache : gmap string ArticleDoc) (url : string) :
  let run := fetch config now cache url in
  let path := article_cache_path (normalize_url url) in
  match run.2 with
  | Raise e =>
      run.1 = cache
      /\ cache_read fromisoformat (fun d => Some d) now (cache_ttl config)
                    (cache !! path)
         = CacheRaise e
  | Return (Cached cached_data) =>
      run.1 = cache
      /\ exists ts, cache !! path = Some (DocDict ts cached_data)
  | Return (Failed error u fetched_at) =>
      run.1 = cache
      /\ u = normalize_url url
      /\ fetched_at = isoformat (naive now)
      /\ exists e, error = "Error fetching article: " +:+ exn_str e
  | Return (Extracted article) =>
      run.1 = <[path := DocDict TsMissing article]> cache
      /\ ad_url (fa_data article) = normalize_url url
      /\ ad_domain (fa_data article) = extract_domain netloc_of (normalize_url url)
      /\ fa_fetched_at article = isoformat (naive now)
      /\ ((ad_extraction_method (fa_data article) = "trafilatura"
           /\ (200 < String.length (ad_text (fa_data article)))%nat)
          \/ (ad_extraction_method (fa_data article) = "readability"
              /\ ad_language (fa_data article) = ""))
  end.
Proof.
  cbv zeta. unfold fetch_article. cbv zeta.
  destruct (cache_read _ _ _ _ _) as [cached_data| |e] eqn:Ec; simpl.
  - split; [reflexivity|].
    apply (cache_read_hit fromisoformat) in Ec as (ts & payload & Hfile & [= ->]).
    eauto.
  - destruct (http_get _) as [html_content|e]; simpl; [|eauto 6].
    destruct (extract_stages _ _ _ _ _ _ html_content) as [[d|]|e] eqn:E; simpl.
    + apply extract_stages_method in E as (H1 & H2 & [H3|(H3 & H4 & _)]); auto 8.
    + apply extract_stages_some in E. congruence.
    + eauto 6.
  - auto.
Qed.

End FetchArticleFacts.

(* ===================================================================== *)
(** * More about summarize_collection                                      *)
(* ===================================================================== *)

Lemma omap_length_le {A B} (f : A -> option B) (l : list A) :
  (List.length (omap f l) <= List.length l)%nat.
Proof.
  induction l as [|x t IH]; simpl; [lia|].
  destruct (f x); simpl; [apply le_n_S; exact IH|apply le_S; exact IH].
Qed.

Section SummarizeCollectionFacts.

Variable date_parse : string -> option DateTime.
Variable isoformat : DateTime -> string.
Variable strftime_date : DateTime -> string.
Variable set_order : list string -> list string.
Variable findall_figures : string -> list string.
Variable bullet : string.
Variable call_llm_summary : list Article -> option string.

Abbreviation summarize :=
  (summarize_collection date_parse isoformat strftime_date set_order
                        findall_figures bullet call_llm_summary).

Lemma collect_figures_long collection :
  Forall (fun num => (2 < String.length num)%nat)
         (collect_figures findall_figures collection).
Proof.
  unfold collect_figures. apply List.Forall_forall. intros num Hnum.
  apply in_flat_map in Hnum as (article & _ & Hnum).
  apply filter_In in Hnum as [_ Hnum]. apply Nat.ltb_lt in Hnum. exact Hnum.
Qed.

Lemma collect_bullets_titles collection :
  Forall (fun b => exists article,
                     In article (firstn 10 collection)
                     /\ title article <> ""
                     /\ b = bullet +:+ title article)
         (collect_bullets bullet collection).
Proof.
  unfold collect_bullets. apply List.Forall_forall. intros b Hb.
  apply list_elem_of_In, list_elem_of_omap in Hb as (article & Hin & Hb).
  apply list_elem_of_In in Hin. exists article.
  destruct (title article) eqn:Et; simpl in Hb; [discriminate|].
  injection Hb as <-. repeat split; [exact Hin|discriminate].
Qed.

(** The three ways in which [summarize_collection] ends.  It fails for
    the empty collection only; the summary of the language model is used
    only when the client is configured and the summary is not empty; the
    heuristic summary counts the whole collection and holds at most ten
    bullet points, each the title of one of the first ten articles, at
    most ten dates and at most five key figures, each longer than two
    characters. *)
Theorem summarize_collection_shape
    (config : Config) (now : Z) (collection : list Article) :
  match summarize config now collection with
  | NoArticles _ => collection = []
  | LLMSummary summary article_count _ =>
      LLMClient.is_available config = true
      /\ summary <> ""
      /\ article_count = List.length collection
  | HeuristicSummary _ bullet_points key_numbers _ date_range article_count _ =>
      collection <> []
      /\ article_count = List.length collection
      /\ (List.length bullet_points <= 10)%nat
      /\ Forall (fun b => exists article,
                            In article (firstn 10 collection)
                            /\ title article <> ""
                            /\ b = bullet +:+ title article)
                bullet_points
      /\ (List.length date_range <= 10)%nat
      /\ (List.length key_numbers <= 5)%nat
      /\ Forall (fun num => (2 < String.length num)%nat) key_numbers
  end.
Proof.
  unfold summarize_collection.
  destruct collection as [|a l]; [reflexivity|].
  set (collection := a :: l).
  destruct (LLMClient.is_available config) eqn:Ea.
  - destruct (LLMClient.summarize_articles _ _ _) as [[|c r]|]; cbv beta iota.
    2: { repeat split; discriminate. }
    all: (split; [discriminate|]; split; [reflexivity|];
          split; [rewrite length_firstn; lia|];
          split; [eapply sublist_Forall;
                    [apply sublist_take|apply collect_bullets_titles]|];
          split; [unfold collect_dates;
                  etransitivity; [apply omap_length_le|];
                  rewrite length_firstn; lia|];
          split; [rewrite length_firstn; lia|];
          eapply sublist_Forall;
            [apply sublist_take|apply collect_figures_long]).
  - split; [discriminate|]. split; [reflexivity|].
    split; [rewrite length_firstn; lia|].
    split; [eapply sublist_Forall;
              [apply sublist_take|apply collect_bullets_titles]|].
    split; [unfold collect_dates;
            etransitivity; [apply omap_length_le|];
            rewrite length_firstn; lia|].
    split; [rewrite length_firstn; lia|].
    eapply sublist_Forall; [apply sublist_take|apply collect_figures_long].
Qed.

End SummarizeCollectionFacts.

(* ===================================================================== *)
(** * More about _parse_ranking_response                                   *)
(* ===================================================================== *)

(** An index as a JSON array holds it: decimal digits without a leading
    zero, and no more of them than [int] converts. *)
Definition canonical (s : string) : bool :=
  match s with
  | EmptyString => false
  | String c t =>
      LLMClient.all_chars Chr.is_digit s
      && (Str.is_empty t || negb (Ascii.eqb c "0"))
      && (String.length s <=? 4300)%nat
  end.

Section ParseRankingFacts.

Lemma digit_facts c :
  Chr.is_digit c = true ->
  LLMClient.in_class c = true /\ LLMClient.is_json_ws c = false
  /\ Ascii.eqb c "," = false.
Proof.
  destruct c as [[] [] [] [] [] [] [] []]; vm_compute; intros H;
    first [discriminate H | repeat split].
Qed.

Lemma array_here_other c s :
  Ascii.eqb c "[" = false -> LLMClient.array_here (String c s) = None.
Proof.
  destruct c as [[] [] [] [] [] [] [] []]; intros H;
    first [reflexivity | discriminate H].
Qed.

Lemma search_array_cons c t :
  LLMClient.search_array (String c t)
  = match LLMClient.array_here (String c t) with
    | Some inner => Some inner
    | None => LLMClient.search_array t
    end.
Proof. reflexivity. Qed.

Lemma search_array_skip before s :
  Str.mem "[" before = false ->
  LLMClient.search_array (before +:+ s) = LLMClient.search_array s.
Proof.
  induction before as [|c t IH]; [reflexivity|].
  simpl Str.mem. rewrite orb_false_iff. intros [Hc Ht].
  change (String c t +:+ s) with (String c (t +:+ s)).
  rewrite search_array_cons, array_here_other by exact Hc.
  apply IH, Ht.
Qed.

Lemma span_class inner after :
  LLMClient.all_chars LLMClient.in_class inner = true ->
  LLMClient.span LLMClient.in_class (inner +:+ String "]" after)
  = (inner, String "]" after).
Proof.
  induction inner as [|c t IH]; [reflexivity|].
  simpl LLMClient.all_chars. rewrite andb_true_iff. intros [Hc Ht].
  change (String c t +:+ String "]" after)
    with (String c (t +:+ String "]" after)).
  simpl. rewrite Hc, IH by exact Ht. reflexivity.
Qed.

Lemma search_array_here c inner after :
  LLMClient.all_chars LLMClient.in_class (String c inner) = true ->
  LLMClient.search_array ("[" +:+ String c inner +:+ String "]" after)
  = Some (String c inner).
Proof.
  intros H.
  change ("[" +:+ String c inner +:+ String "]" after)
    with (String "[" (String c inner +:+ String "]" after)).
  rewrite search_array_cons. unfold LLMClient.array_here.
  rewrite (span_class _ _ H). reflexivity.
Qed.

Lemma all_chars_app p s1 s2 :
  LLMClient.all_chars p (s1 +:+ s2)
  = LLMClient.all_chars p s1 && LLMClient.all_chars p s2.
Proof.
  induction s1 as [|c t IH]; [reflexivity|].
  change (String c t +:+ s2) with (String c (t +:+ s2)). simpl.
  rewrite IH, andb_assoc. reflexivity.
Qed.

Lemma all_chars_impl (p q : ascii -> bool) s :
  (forall c, p c = true -> q c = true) ->
  LLMClient.all_chars p s = true -> LLMClient.all_chars q s = true.
Proof.
  intros H. induction s as [|c t IH]; simpl; [reflexivity|].
  rewrite !andb_true_iff. intros [Hc Ht]. auto.
Qed.

Lemma canonical_digits s :
  canonical s = true ->
  LLMClient.all_chars Chr.is_digit s = true
  /\ exists c t, s = String c t /\ Chr.is_digit c = true.
Proof.
  destruct s as [|c t]; [discriminate|]. unfold canonical.
  rewrite !andb_true_iff. intros [[H _] _]. split; [exact H|].
  exists c, t. split; [reflexivity|]. simpl in H.
  apply andb_true_iff in H as [H _]. exact H.
Qed.

Lemma join_class pieces :
  Forall (fun p => canonical p = true) pieces ->
  LLMClient.all_chars LLMClient.in_class (join ", " pieces) = true.
Proof.
  induction 1 as [|p rest Hp _ IH]; [reflexivity|].
  apply canonical_digits in Hp as [Hp _].
  assert (Hc : LLMClient.all_chars LLMClient.in_class p = true)
    by (eapply all_chars_impl; [intros c; apply digit_facts|exact Hp]).
  destruct rest as [|q rest]; [exact Hc|].
  change (join ", " (p :: q :: rest)) with (p +:+ ", " +:+ join ", " (q :: rest)).
  rewrite !all_chars_app, Hc, IH. reflexivity.
Qed.

(** Reading a piece without a comma moves it to the piece being read. *)
Lemma split_commas_piece p cur s :
  LLMClient.all_chars Chr.is_digit p = true ->
  LLMClient.split_commas cur (p +:+ s)
  = LLMClient.split_commas (rev (list_ascii_of_string p) ++ cur) s.
Proof.
  revert cur. induction p as [|c t IH]; intros cur; [reflexivity|].
  simpl LLMClient.all_chars. rewrite andb_true_iff. intros [Hc Ht].
  change (String c t +:+ s) with (String c (t +:+ s)).
  simpl. destruct (digit_facts c Hc) as (_ & _ & ->).
  rewrite IH by exact Ht. rewrite <- app_assoc. reflexivity.
Qed.

Lemma string_of_rev_app p cur :
  string_of_list_ascii (rev (rev (list_ascii_of_string p) ++ cur))
  = string_of_list_ascii (rev cur) +:+ p.
Proof.
  rewrite rev_app_distr, rev_involutive.
  induction (rev cur) as [|c t IH]; simpl.
  - apply string_of_list_ascii_of_string.
  - change (String c (string_of_list_ascii t) +:+ p)
      with (String c (string_of_list_ascii t +:+ p)).
    rewrite IH. reflexivity.
Qed.

Lemma split_commas_comma cur s :
  LLMClient.split_commas cur (String "," s)
  = string_of_list_ascii (rev cur) :: LLMClient.split_commas [] s.
Proof. reflexivity. Qed.

Lemma split_commas_space cur s :
  LLMClient.split_commas cur (String " " s)
  = LLMClient.split_commas (" "%char :: cur) s.
Proof. reflexivity. Qed.

Lemma split_commas_join p rest cur :
  Forall (fun p => canonical p = true) (p :: rest) ->
  LLMClient.split_commas cur (join ", " (p :: rest))
  = (string_of_list_ascii (rev cur) +:+ p) :: map (String " ") rest.
Proof.
  revert p cur. induction rest as [|q rest IH]; intros p cur H.
  - apply Forall_cons_1 in H as [Hp _].
    apply canonical_digits in Hp as [Hp _].
    change (join ", " [p]) with p.
    rewrite <- (append_empty_r p) at 1.
    rewrite split_commas_piece by exact Hp. simpl.
    rewrite string_of_rev_app. reflexivity.
  - apply Forall_cons_1 in H as [Hp Hrest].
    apply canonical_digits in Hp as [Hp _].
    change (join ", " (p :: q :: rest))
      with (p +:+ String "," (String " " (join ", " (q :: rest)))).
    rewrite split_commas_piece by exact Hp.
    rewrite split_commas_comma, split_commas_space, string_of_rev_app.
    rewrite (IH q [" "%char] Hrest). reflexivity.
Qed.

Lemma lstrip_json_digit s :
  (exists c t, s = String c t /\ Chr.is_digit c = true) ->
  LLMClient.lstrip_json s = s.
Proof.
  intros (c & t & -> & Hc). simpl.
  destruct (digit_facts c Hc) as (_ & -> & _). reflexivity.
Qed.

Lemma rstrip_json_digits s :
  LLMClient.all_chars Chr.is_digit s = true -> LLMClient.rstrip_json s = s.
Proof.
  induction s as [|c t IH]; [reflexivity|]. simpl.
  rewrite andb_true_iff. intros [Hc Ht].
  destruct (digit_facts c Hc) as (_ & -> & _). simpl.
  rewrite IH by exact Ht. reflexivity.
Qed.

Lemma json_int_canonical s :
  canonical s = true -> LLMClient.json_int s = Some (LLMClient.int_of_digits s).
Proof.
  destruct s as [|c t]; [discriminate|]. unfold canonical, LLMClient.json_int.
  rewrite andb_true_iff. intros [-> Hlen]. unfold LLMClient.int.
  apply Nat.leb_le in Hlen. apply Nat.ltb_ge in Hlen. rewrite Hlen. reflexivity.
Qed.

Lemma read_piece s :
  canonical s = true ->
  LLMClient.json_int (LLMClient.rstrip_json (LLMClient.lstrip_json s))
  = Some (LLMClient.int_of_digits s)
  /\ LLMClient.json_int
       (LLMClient.rstrip_json (LLMClient.lstrip_json (String " " s)))
     = Some (LLMClient.int_of_digits s).
Proof.
  intros H. destruct (canonical_digits s H) as [Hd Hfirst].
  change (LLMClient.lstrip_json (String " " s)) with (LLMClient.lstrip_json s).
  rewrite lstrip_json_digit, rstrip_json_digits by assumption.
  split; apply json_int_canonical, H.
Qed.

Lemma mapM_pieces (f : string -> option N) (g : string -> N) l :
  Forall (fun s => f s = Some (g s)) l -> mapM f l = Some (map g l).
Proof.
  induction 1 as [|s l Hs _ IH]; [reflexivity|].
  simpl. rewrite Hs. simpl. rewrite IH. reflexivity.
Qed.

Lemma json_loads_array_join pieces :
  pieces <> [] ->
  Forall (fun p => canonical p = true) pieces ->
  LLMClient.json_loads_array (join ", " pieces)
  = Some (map LLMClient.int_of_digits pieces).
Proof.
  intros Hne Hall. destruct pieces as [|p rest]; [congruence|].
  unfold LLMClient.json_loads_array.
  assert (Hws : LLMClient.all_chars LLMClient.is_json_ws (join ", " (p :: rest))
                = false).
  { apply Forall_cons_1 in Hall as [Hp _].
    apply canonical_digits in Hp as (_ & c & t & -> & Hc).
    destruct (digit_facts c Hc) as (_ & Hw & _).
    destruct rest as [|q rest].
    - simpl. rewrite Hw. reflexivity.
    - change (join ", " (String c t :: q :: rest))
        with (String c (t +:+ ", " +:+ join ", " (q :: rest))).
      simpl. rewrite Hw. reflexivity. }
  rewrite Hws, (split_commas_join p rest [] Hall).
  change (string_of_list_ascii (rev []) +:+ p) with p.
  apply Forall_cons_1 in Hall as [Hp Hrest].
  simpl mapM. destruct (read_piece p Hp) as [-> _]. simpl.
  rewrite (mapM_pieces _ LLMClient.int_of_digits).
  - rewrite map_map. reflexivity.
  - apply Forall_forall. intros s Hs.
    apply list_elem_of_In, in_map_iff in Hs as (q & <- & Hq).
    rewrite Forall_forall in Hrest.
    apply (read_piece q), Hrest, list_elem_of_In, Hq.
Qed.

(** A response that holds, after a text without a bracket, a bracketed
    list of indices written in decimal and separated by a comma and a
    space, parses to the values of the first five of them, whatever
    follows the list. *)
Theorem parse_ranking_response_array
    (before after : string) (pieces : list string) :
  Str.mem "[" before = false ->
  pieces <> [] ->
  Forall (fun p => canonical p = true) pieces ->
  LLMClient._parse_ranking_response
    (before +:+ "[" +:+ join ", " pieces +:+ String "]" after)
  = Some (firstn 5 (map LLMClient.int_of_digits pieces)).
Proof.
  intros Hb Hne Hall. unfold LLMClient._parse_ranking_response.
  rewrite (search_array_skip _ _ Hb).
  pose proof (join_class pieces Hall) as Hclass.
  destruct (join ", " pieces) as [|c inner] eqn:Ej.
  - exfalso. destruct pieces as [|p rest]; [congruence|].
    apply Forall_cons_1 in Hall as [Hp _].
    apply canonical_digits in Hp as (_ & d & t & -> & _).
    destruct rest; discriminate Ej.
  - rewrite (search_array_here _ _ _ Hclass), <- Ej.
    rewrite (json_loads_array_join pieces Hne Hall). reflexivity.
Qed.

End ParseRankingFacts.

Lemma parse_ranking_response_array_witness :
  LLMClient._parse_ranking_response
    ("Here you go: " +:+ "[" +:+ join ", " ["3"; "10"; "0"; "7"; "2"; "9"]
     +:+ String "]" " - anything else?")
  = Some (firstn 5 (map LLMClient.int_of_digits ["3"; "10"; "0"; "7"; "2"; "9"])).
Proof.
  apply (parse_ranking_response_array "Here you go: " " - anything else?"
           ["3"; "10"; "0"; "7"; "2"; "9"]).
  - reflexivity.
  - discriminate.
  - repeat constructor.
Defined.

(* ===================================================================== *)
(** * The refinement stage of rank_articles                                *)
(* ===================================================================== *)

Section Refinement.

Variable date_parse : string -> option DateTime.
Variable call_llm : list Article -> string -> option string.

Lemma usable_indices_parsed config candidates topic response extracted :
  LLMClient.is_available config = true ->
  call_llm candidates topic = Some response ->
  LLMClient._parse_ranking_response response = Some extracted ->
  usable_indices call_llm config candidates topic
  = List.filter (fun i => (i <? N.of_nat (List.length candidates))%N) extracted.
Proof.
  intros Ha Hc Hp. unfold usable_indices. rewrite Ha, Hc, Hp. reflexivity.
Qed.

Lemma usable_indices_length config candidates topic :
  (List.length (usable_indices call_llm config candidates topic) <= 5)%nat.
Proof.
  unfold usable_indices.
  destruct (LLMClient.is_available config); [|simpl; lia].
  destruct (call_llm candidates topic) as [response|]; [|simpl; lia].
  destruct (LLMClient._parse_ranking_response response) as [extracted|] eqn:E;
    [|simpl; lia].
  apply parse_ranking_length in E.
  etransitivity; [|exact E].
  clear E. induction extracted as [|i l IH]; simpl; [lia|].
  destruct (_ <? _)%N; simpl; lia.
Qed.

(** C7 (as amended). The indices of the refinement are the first five
    that the parser extracts from the response: the first five entries of
    the first bracketed list of digits, commas and white space when the
    response has one, the first five standalone numbers of the text
    otherwise.  Of these, the ones that point beyond the candidates are
    dropped and each of the others yields its article.  A response from
    which the parser extracts nothing (a bracketed list that is not valid
    JSON; no bracketed list and no number that [int] converts) leaves the
    heuristic order.  The result is the first five of the selected
    articles when at least one of the extracted indices is usable, the
    first five of the heuristic order otherwise. *)
Theorem rank_articles_refinement
    (config : Config) (now : Z) (items : list Article) (topic : string) :
  let candidates := top_candidates date_parse config now topic items in
  let usable := usable_indices call_llm config candidates topic in
  let refined := omap (fun i => candidates !! N.to_nat i) usable in
  let in_range := fun i => (i <? N.of_nat (List.length candidates))%N in
  (Forall (fun i => (N.to_nat i < List.length candidates)%nat) usable
   /\ List.length refined = List.length usable
   /\ (List.length usable <= 5)%nat)
  /\ (forall response inner indices,
        LLMClient.is_available config = true ->
        call_llm candidates topic = Some response ->
        LLMClient.search_array response = Some inner ->
        LLMClient.json_loads_array inner = Some indices ->
        usable = List.filter in_range (firstn 5 indices))
  /\ (forall response values,
        LLMClient.is_available config = true ->
        call_llm candidates topic = Some response ->
        LLMClient.search_array response = None ->
        LLMClient.findall_numbers response <> [] ->
        mapM LLMClient.int (firstn 5 (LLMClient.findall_numbers response))
        = Some values ->
        usable = List.filter in_range values)
  /\ (forall response,
        call_llm candidates topic = Some response ->
        (exists inner,
           LLMClient.search_array response = Some inner
           /\ LLMClient.json_loads_array inner = None)
        \/ (LLMClient.search_array response = None
            /\ (LLMClient.findall_numbers response = []
                \/ mapM LLMClient.int
                     (firstn 5 (LLMClient.findall_numbers response)) = None)) ->
        rank_articles date_parse call_llm config now items topic
        = firstn 5 candidates)
  /\ rank_articles date_parse call_llm config now items topic
     = match usable with
       | [] => firstn 5 candidates
       | _ => firstn 5 refined
       end.
Proof.
  intros candidates usable refined in_range.
  destruct (rank_articles_by_usable date_parse call_llm config now items topic)
    as (Hrange & Hlen & Hnone & Hmain).
  fold candidates in Hrange, Hlen, Hnone, Hmain.
  fold usable in Hrange, Hlen, Hmain. fold refined in Hlen, Hmain.
  split; [|split; [|split; [|split]]].
  - split; [exact Hrange|]. split; [exact Hlen|].
    apply usable_indices_length.
  - intros response inner indices Ha Hc Hs Hj.
    apply (usable_indices_parsed _ _ _ response); [exact Ha|exact Hc|].
    unfold LLMClient._parse_ranking_response. rewrite Hs, Hj. reflexivity.
  - intros response values Ha Hc Hs Hn Hv.
    apply (usable_indices_parsed _ _ _ response); [exact Ha|exact Hc|].
    unfold LLMClient._parse_ranking_response. rewrite Hs.
    destruct (LLMClient.findall_numbers response) as [|n ns]; [congruence|].
    exact Hv.
  - intros response Hc Hcase. apply (Hnone response Hc).
    unfold LLMClient._parse_ranking_response.
    destruct Hcase as [(inner & -> & ->)|[-> [->|Hv]]]; try reflexivity.
    destruct (LLMClient.findall_numbers response) as [|n ns]; [reflexivity|].
    exact Hv.
  - exact Hmain.
Qed.

End Refinement.

(** ** The refinement stage in the words of the specification *)

(** The response read as the JSON array of indices that the prompt asks
    for; [None] for a response that is not one. *)
Definition response_as_array (response : string) : option (list N) :=
  match response with
  | String "[" rest =>
      if LLMClient.endswith "]" rest
      then LLMClient.json_loads_array (Str.take (String.length rest - 1) rest)
      else None
  | _ => None
  end.

(** The result as the specification words it: every returned index that
    points beyond the candidates is dropped, the first five of the
    refined order are returned when at least one index is usable, and a
    malformed response ([None]) leaves the heuristic order. *)
Definition refinement_as_claimed (candidates : list Article)
    (returned : option (list N)) : list Article :=
  match returned with
  | None => firstn 5 candidates
  | Some indices =>
      match omap (fun i => candidates !! N.to_nat i)
                 (List.filter
                    (fun i => (i <? N.of_nat (List.length candidates))%N)
                    indices) with
      | [] => firstn 5 candidates
      | refined => firstn 5 refined
      end
  end.

Module RefineRun.

Definition a (n : string) : Article :=
  stub ("Story " +:+ n) ("https://site.example/" +:+ n).

(** Eight articles with the same score: the heuristic order is theirs. *)
Definition items : list Article :=
  [a "0"; a "1"; a "2"; a "3"; a "4"; a "5"; a "6"; a "7"].

(** [rank_articles] when the language model answers [response]. *)
Definition run (response : string) : list Article :=
  rank_articles (fun _ => None) (fun _ _ => Some response) ranker_config 0
                items "news".

End RefineRun.

Example refine_run_candidates :
  top_candidates (fun _ => None) ranker_config 0 "news" RefineRun.items
  = RefineRun.items.
Proof. vm_compute. reflexivity. Qed.

(** The code differs from the specification's words at three responses.
    Usable indices after the fifth entry are never looked at: an answer
    whose first five indices are out of range leaves the heuristic order,
    and one out-of-range index among six costs a place.  An answer that is
    not a JSON array but holds numbers is not treated as malformed: its
    numbers are used as indices. *)
Lemma rank_articles_not_as_claimed :
  (response_as_array "[20, 21, 22, 23, 24, 5, 4, 3]"
   = Some [20; 21; 22; 23; 24; 5; 4; 3]%N
   /\ refinement_as_claimed RefineRun.items
        (response_as_array "[20, 21, 22, 23, 24, 5, 4, 3]")
      = [RefineRun.a "5"; RefineRun.a "4"; RefineRun.a "3"]
   /\ RefineRun.run "[20, 21, 22, 23, 24, 5, 4, 3]"
      = [RefineRun.a "0"; RefineRun.a "1"; RefineRun.a "2"; RefineRun.a "3";
         RefineRun.a "4"])
  /\ (refinement_as_claimed RefineRun.items
        (response_as_array "[99, 5, 4, 3, 2, 1]")
      = [RefineRun.a "5"; RefineRun.a "4"; RefineRun.a "3"; RefineRun.a "2";
         RefineRun.a "1"]
      /\ RefineRun.run "[99, 5, 4, 3, 2, 1]"
         = [RefineRun.a "5"; RefineRun.a "4"; RefineRun.a "3"; RefineRun.a "2"])
  /\ (response_as_array "[1, 2" = None
      /\ refinement_as_claimed RefineRun.items (response_as_array "[1, 2")
         = [RefineRun.a "0"; RefineRun.a "1"; RefineRun.a "2"; RefineRun.a "3";
            RefineRun.a "4"]
      /\ RefineRun.run "[1, 2" = [RefineRun.a "1"; RefineRun.a "2"])
  /\ RefineRun.run "[20, 21, 22, 23, 24, 5, 4, 3]"
     <> refinement_as_claimed RefineRun.items
          (response_as_array "[20, 21, 22, 23, 24, 5, 4, 3]")
  /\ RefineRun.run "[1, 2"
     <> refinement_as_claimed RefineRun.items (response_as_array "[1, 2").
Proof.
  repeat split; try (vm_compute; reflexivity); vm_compute; discriminate.
Qed.
